(** * open-task-scheduler: a shallow embedding of [scheduler.py]

    The program keeps a list of task records in [tasks.yml], offers the
    commands [run], [list], [add], [remove] and [test], and relies on the
    third-party [schedule] package for the polling loop.

    Layout of the development:
    - [PyStr]    : the few [str] methods the script calls;
    - Python values, exceptions, the process state and a state/exception
      monad for the script's effects;
    - [Schedule] : the parts of the [schedule] package the script calls
      (release 1.2.2: [every], [day], [monday], [at], [do], [run_pending]);
    - the script itself, function by function, under the source's names;
    - the properties. *)

From Stdlib Require Import ZArith List String Ascii Bool Lia Permutation.
Import ListNotations.
Open Scope string_scope.
Open Scope Z_scope.

(** ** Strings

    Strings are byte strings.  The methods below agree with Python's on
    ASCII text; code points above 127 are left alone by [lower] and are
    never white space. *)
Module PyStr.

Definition is_space (c : ascii) : bool :=
  let n := nat_of_ascii c in
  ((9 <=? n)%nat && (n <=? 13)%nat) || ((28 <=? n)%nat && (n <=? 32)%nat).

Fixpoint lstrip (s : string) : string :=
  match s with
  | EmptyString => EmptyString
  | String c s' => if is_space c then lstrip s' else s
  end.

Fixpoint rstrip (s : string) : string :=
  match s with
  | EmptyString => EmptyString
  | String c s' =>
      match rstrip s' with
      | EmptyString => if is_space c then EmptyString else String c EmptyString
      | r => String c r
      end
  end.

(** [s.strip()] *)
Definition strip (s : string) : string := rstrip (lstrip s).

Definition lower_char (c : ascii) : ascii :=
  let n := nat_of_ascii c in
  if ((65 <=? n)%nat && (n <=? 90)%nat)%bool then ascii_of_nat (n + 32) else c.

(** [s.lower()] *)
Fixpoint lower (s : string) : string :=
  match s with
  | EmptyString => EmptyString
  | String c s' => String (lower_char c) (lower s')
  end.

(** [s.split()]: the maximal runs of characters that are not white
    space.  [cur] is the run being read, reversed. *)
Fixpoint split_ws (cur : list ascii) (s : string) : list string :=
  let flush := match cur with
               | [] => []
               | _ => [string_of_list_ascii (rev cur)]
               end in
  match s with
  | EmptyString => flush
  | String c s' =>
      if is_space c then (flush ++ split_ws [] s')%list else split_ws (c :: cur) s'
  end.

Definition split (s : string) : list string := split_ws [] s.

(** [sep.join(l)] *)
Fixpoint join (sep : string) (l : list string) : string :=
  match l with
  | [] => EmptyString
  | [x] => x
  | x :: rest => x ++ sep ++ join sep rest
  end.

End PyStr.

(** ** Python values

    What [yaml.safe_load] and [input] hand to the script.  A mapping is
    kept as an association list in insertion order ([yaml.dump] is called
    with [sort_keys=False]); the script only ever looks up string keys, so
    keys are strings.  Floats, dates and binary data are left out: to the
    script they are, like [VInt], values that are neither strings, lists
    nor mappings. *)
#[local] Set Warnings "-register-all".
Inductive pyval : Type :=
| VNone
| VBool (b : bool)
| VInt (n : Z)
| VStr (s : string)
| VList (l : list pyval)
| VDict (d : list (string * pyval)).

Fixpoint assoc (k : string) (d : list (string * pyval)) : option pyval :=
  match d with
  | [] => None
  | (k', v) :: d' => if String.eqb k k' then Some v else assoc k d'
  end.

(** [v == s] for a string [s]: only a string equals a string. *)
Definition eq_str (v : pyval) (s : string) : bool :=
  match v with
  | VStr s' => String.eqb s' s
  | _ => false
  end.

(** ** Exceptions *)
Inductive exn_class : Type :=
| AttributeError
| TypeError
| EOFError
| YAMLError
| ScheduleValueError
| IntervalError
| AssertionError
| CalledProcessError
| OSError
| KeyboardInterrupt
| SystemExit (code : Z).

(** An exception: its class and [str(e)]. *)
Record exn : Type := Exn { exn_cls : exn_class; exn_msg : string }.

(** [except Exception] catches everything but the [BaseException]-only
    classes. *)
Definition is_Exception (e : exn) : bool :=
  match exn_cls e with
  | KeyboardInterrupt | SystemExit _ => false
  | _ => true
  end.

Inductive result (A : Type) : Type :=
| Ok (a : A)
| Raise (e : exn).
Arguments Ok {A} a.
Arguments Raise {A} e.

Definition exn_cls_of {A} (r : result A) : option exn_class :=
  match r with
  | Ok _ => None
  | Raise e => Some (exn_cls e)
  end.

(** ** Wall-clock time

    A naive [datetime] is the number of microseconds since
    0001-01-01 00:00:00, which was a Monday ([weekday() = 0]). *)
Definition usec : Z := 1000000.
Definition day_us : Z := 86400 * usec.

Definition weekday (t : Z) : Z := (t / day_us) mod 7.
Definition time_of_day (t : Z) : Z := t mod day_us.

(** [datetime.time(hour, minute, second)] *)
Record time_ : Type := Time { hour : Z; minute : Z; second : Z }.

Definition time_us (a : time_) : Z :=
  (hour a * 3600 + minute a * 60 + second a) * usec.

(** [moment.replace(hour=.., minute=.., second=.., microsecond=0)] *)
Definition replace_time (t : Z) (a : time_) : Z :=
  (t / day_us) * day_us + time_us a.

(** The two units the script's calls select ([every().day] and
    [every().monday]); [unit_us u] is one [timedelta] of [u]. *)
Inductive time_unit : Type := Days | Weeks.

Definition unit_us (u : time_unit) : Z :=
  match u with
  | Days => day_us
  | Weeks => 7 * day_us
  end.

Inductive day_name : Type :=
| Monday | Tuesday | Wednesday | Thursday | Friday | Saturday | Sunday.

(** [schedule._weekday_index] *)
Definition weekday_index (d : day_name) : Z :=
  match d with
  | Monday => 0 | Tuesday => 1 | Wednesday => 2 | Thursday => 3
  | Friday => 4 | Saturday => 5 | Sunday => 6
  end.

(** ** The process state *)

(** [schedule.Job], with the attributes the script's calls read or set.
    [job_func] is [functools.partial(run_task, task)]: [run_task] is the
    only function the script schedules, so the task stands for it. *)
Record Job : Type := mkJob {
  interval : Z;
  unit_ : option time_unit;
  at_time : option time_;
  start_day : option day_name;
  last_run : option Z;
  next_run : option Z;
  job_func : pyval
}.

(** The state the script reads and writes:
    - [fs]: the contents of [tasks.yml], [None] when the file is missing;
    - [stdin]: the lines [input] has still to read;
    - [console]: what was written to standard output, oldest first;
    - [clock]: what [datetime.datetime.now()] returns;
    - [future]: the clock readings at which the coming [time.sleep(1)]
      calls return; when there is none left the user presses Ctrl+C;
    - [jobs]: [schedule.jobs], the default scheduler's job list;
    - [executed]: history of the calls of [run_task], with the clock;
    - [fired]: history of [Job.run], the job's position in [jobs] and
      the clock.
    The last two are observation only: nothing reads them.

    Time passes in [time.sleep] only: every reading of the clock within
    one pass of the loop, and at registration, is the same.  Opening,
    reading and writing the file do not fail. *)
Record World : Type := mkWorld {
  fs : option string;
  stdin : list string;
  console : list string;
  clock : Z;
  future : list Z;
  jobs : list Job;
  executed : list (Z * pyval);
  fired : list (Z * nat)
}.

(** ** The monad of the script: state and exceptions *)
Definition M (A : Type) : Type := World -> World * result A.

Definition ret {A} (a : A) : M A := fun w => (w, Ok a).

Definition bind {A B} (m : M A) (k : A -> M B) : M B :=
  fun w =>
    match m w with
    | (w', Ok a) => k a w'
    | (w', Raise e) => (w', Raise e)
    end.

Definition raise {A} (e : exn) : M A := fun w => (w, Raise e).

(** [try: body / except <classes in handles>: handler] *)
Definition try_except {A} (body : M A) (handles : exn -> bool)
    (handler : exn -> M A) : M A :=
  fun w =>
    match body w with
    | (w', Raise e) => if handles e then handler e w' else (w', Raise e)
    | r => r
    end.

Definition lift {A} (r : result A) : M A := fun w => (w, r).

Declare Scope py_scope.
Delimit Scope py_scope with py.
Notation "x <- c ;; k" := (bind c (fun x => k))
  (at level 61, c at next level, right associativity) : py_scope.
Notation "c ;; k" := (bind c (fun _ => k))
  (at level 61, right associativity) : py_scope.
Open Scope py_scope.

(** [print(s)] *)
Definition print (s : string) : M unit :=
  fun w => (mkWorld (fs w) (stdin w) (console w ++ [s])%list (clock w) (future w)
                    (jobs w) (executed w) (fired w), Ok tt).

(** [input(prompt)]: writes the prompt, reads one line; [EOFError] at the
    end of the input. *)
Definition input (prompt : string) : M string :=
  fun w =>
    let out := (console w ++ [prompt])%list in
    match stdin w with
    | [] => (mkWorld (fs w) [] out (clock w) (future w)
                     (jobs w) (executed w) (fired w),
             Raise (Exn EOFError "EOF when reading a line"))
    | l :: rest => (mkWorld (fs w) rest out (clock w) (future w)
                            (jobs w) (executed w) (fired w), Ok l)
    end.

(** [datetime.datetime.now()] *)
Definition now : M Z := fun w => (w, Ok (clock w)).

(** [time.sleep(1)]: returns at the next reading of [future]; with none
    left, [KeyboardInterrupt] is raised in it. *)
Definition sleep : M unit :=
  fun w =>
    match future w with
    | [] => (w, Raise (Exn KeyboardInterrupt ""))
    | t :: rest => (mkWorld (fs w) (stdin w) (console w) t rest
                            (jobs w) (executed w) (fired w), Ok tt)
    end.

(** [for x in l: body(x)] *)
Fixpoint for_each {A} (l : list A) (body : A -> M unit) : M unit :=
  match l with
  | [] => ret tt
  | x :: rest => body x ;; for_each rest body
  end.

(** *** Operations on values *)

(** [v.get(k, default)]: only a mapping has [get]. *)
Definition py_get (v : pyval) (k : string) (default : pyval) : result pyval :=
  match v with
  | VDict d => Ok (match assoc k d with Some x => x | None => default end)
  | _ => Raise (Exn AttributeError "object has no attribute 'get'")
  end.

(** [v.lower()]: only a string has [lower]. *)
Definition py_lower (v : pyval) : result string :=
  match v with
  | VStr s => Ok (PyStr.lower s)
  | _ => Raise (Exn AttributeError "object has no attribute 'lower'")
  end.

(** The items [for x in v] visits: the elements of a list, the keys of a
    mapping, the characters of a string. *)
Definition py_iter (v : pyval) : result (list pyval) :=
  match v with
  | VList l => Ok l
  | VDict d => Ok (map (fun kv => VStr (fst kv)) d)
  | VStr s => Ok (map (fun c => VStr (String c EmptyString)) (list_ascii_of_string s))
  | _ => Raise (Exn TypeError "object is not iterable")
  end.

(** [len(v)] *)
Definition py_len (v : pyval) : result nat :=
  match v with
  | VList l => Ok (List.length l)
  | VDict d => Ok (List.length d)
  | VStr s => Ok (String.length s)
  | _ => Raise (Exn TypeError "object has no len()")
  end.

(** [not v] *)
Definition py_not (v : pyval) : bool :=
  match v with
  | VNone => true
  | VBool b => negb b
  | VInt n => n =? 0
  | VStr s => String.eqb s ""
  | VList l => match l with [] => true | _ => false end
  | VDict d => match d with [] => true | _ => false end
  end.

(** ** What the script takes from its platform

    The YAML reader and writer, [str()] of a value (used by the f-strings),
    the outcome of launching a child process, and the names of signals are
    not part of the script; the development is parametric in them. *)
Inductive spawn_outcome : Type :=
| Exited (status : Z)       (* the child ran and returned this status *)
| Fault (msg : string).     (* the launch raised an [OSError] or the like *)

Record Platform : Type := mkPlatform {
  yaml_safe_load : string -> string + pyval;  (* [inl]: a [YAMLError] *)
  yaml_dump : pyval -> string;
  py_str : pyval -> string;
  spawn : list pyval -> spawn_outcome;
  signal_repr : Z -> string
}.

(** ** The [schedule] package

    The methods the script calls on the package's default scheduler, as
    release 1.2.2 defines them, for jobs built by [every().day] and
    [every().monday].  Time zones, [until], [to] and tags are not used by
    the script and are left out. *)
Module Schedule.

Definition set_jobs (l : list Job) : M unit :=
  fun w => (mkWorld (fs w) (stdin w) (console w) (clock w) (future w)
                    l (executed w) (fired w), Ok tt).

Definition get_jobs : M (list Job) := fun w => (w, Ok (jobs w)).

Definition log_fired (i : nat) : M unit :=
  fun w => (mkWorld (fs w) (stdin w) (console w) (clock w) (future w)
                    (jobs w) (executed w) (fired w ++ [(clock w, i)])%list,
            Ok tt).

(** [l[i] = x] on the job list *)
Fixpoint update_nth (i : nat) (x : Job) (l : list Job) : list Job :=
  match l, i with
  | [], _ => []
  | _ :: rest, O => x :: rest
  | y :: rest, S i' => y :: update_nth i' x rest
  end.

(** [schedule.every()]: a new job with [interval = 1] and nothing else. *)
Definition every : Job := mkJob 1 None None None None None VNone.

(** [Job.day] *)
Definition day (j : Job) : result Job :=
  if interval j =? 1
  then Ok (mkJob (interval j) (Some Days) (at_time j) (start_day j)
                 (last_run j) (next_run j) (job_func j))
  else Raise (Exn IntervalError "Use days instead of day").

(** [Job.monday]: sets [start_day] and returns [self.weeks]. *)
Definition monday (j : Job) : result Job :=
  if interval j =? 1
  then Ok (mkJob (interval j) (Some Weeks) (at_time j) (Some Monday)
                 (last_run j) (next_run j) (job_func j))
  else Raise (Exn IntervalError
                "Scheduling .monday() jobs is only allowed for weekly jobs.").

Definition digit_between (lo hi : nat) (c : ascii) : bool :=
  let n := nat_of_ascii c in ((48 + lo <=? n)%nat && (n <=? 48 + hi)%nat)%bool.

Definition digit_val (c : ascii) : Z := Z.of_nat (nat_of_ascii c - 48).

(** Where [$] matches: at the end, or before a final newline. *)
Definition at_end (l : list ascii) : bool :=
  match l with
  | [] => true
  | [c] => Ascii.eqb c "010"%char
  | _ => false
  end.

(** [re.match(r"^[0-2]\d:[0-5]\d(:[0-5]\d)?$", time_str)] followed by
    [time_str.split(":")] and [int] of each field: the hour, minute and
    second read from a string of that format ([int] ignores the final
    newline). *)
Definition parse_daily (time_str : string) : option (Z * Z * Z) :=
  match list_ascii_of_string time_str with
  | h1 :: h2 :: c1 :: m1 :: m2 :: rest =>
      if (digit_between 0 2 h1 && digit_between 0 9 h2 && Ascii.eqb c1 ":"%char
          && digit_between 0 5 m1 && digit_between 0 9 m2)%bool
      then
        let h := 10 * digit_val h1 + digit_val h2 in
        let m := 10 * digit_val m1 + digit_val m2 in
        if at_end rest then Some (h, m, 0)
        else match rest with
             | c2 :: s1 :: s2 :: rest' =>
                 if (Ascii.eqb c2 ":"%char && digit_between 0 5 s1
                     && digit_between 0 9 s2 && at_end rest')%bool
                 then Some (h, m, 10 * digit_val s1 + digit_val s2)
                 else None
             | _ => None
             end
      else None
  | _ => None
  end.

(** [Job.at(time_str)] for a job whose unit is days or that has a
    [start_day]. *)
Definition at_ (j : Job) (time_str : pyval) : result Job :=
  match unit_ j, start_day j with
  | Some Days, _ | _, Some _ =>
      match time_str with
      | VStr s =>
          match parse_daily s with
          | None => Raise (Exn ScheduleValueError
              "Invalid time format for a daily job (valid format is HH:MM(:SS)?)")
          | Some (h, m, sec) =>
              if ((0 <=? h) && (h <=? 23))%bool
              then Ok (mkJob (interval j) (unit_ j) (Some (Time h m sec))
                             (start_day j) (last_run j) (next_run j)
                             (job_func j))
              else Raise (Exn ScheduleValueError
                            "Invalid number of hours (not between 0 and 23)")
          end
      | _ => Raise (Exn TypeError "at() should be passed a string")
      end
  | _, _ => Raise (Exn ScheduleValueError
                     "Invalid unit (valid units are `days`, `hours`, and `minutes`)")
  end.

(** [_move_to_next_weekday(moment, weekday)] *)
Definition _move_to_next_weekday (moment : Z) (d : day_name) : Z :=
  let days_ahead := weekday_index d - weekday moment in
  let days_ahead := if days_ahead <? 0 then days_ahead + 7 else days_ahead in
  moment + days_ahead * day_us.

(** [Job._move_to_at_time(moment)] *)
Definition _move_to_at_time (j : Job) (moment : Z) : Z :=
  match at_time j with
  | None => moment
  | Some a => replace_time moment a
  end.

(** [while next_run <= now: next_run += period], unrolled at most [fuel]
    times; [catch_up_spec] shows that the fuel [_schedule_next_run] gives
    it lets the loop leave by its test. *)
Fixpoint catch_up (fuel : nat) (period now_ next : Z) : Z :=
  match fuel with
  | O => next
  | S n => if next <=? now_ then catch_up n period now_ (next + period) else next
  end.

(** [Job._schedule_next_run()], reading the clock as [now_]. *)
Definition _schedule_next_run (j : Job) (now_ : Z) : result Job :=
  match unit_ j with
  | None => Raise (Exn ScheduleValueError "Invalid unit")
  | Some u =>
      let moved :=
        match start_day j with
        | None => Ok now_
        | Some d =>
            match u with
            | Weeks => Ok (_move_to_next_weekday now_ d)
            | _ => Raise (Exn ScheduleValueError "`unit` should be 'weeks'")
            end
        end in
      match moved with
      | Raise e => Raise e
      | Ok next =>
          let next := _move_to_at_time j next in
          let period := interval j * unit_us u in
          let next := if interval j =? 1 then next else next + period in
          let next := catch_up (Z.to_nat ((now_ - next) / period + 1))
                               period now_ next in
          Ok (mkJob (interval j) (unit_ j) (at_time j) (start_day j)
                    (last_run j) (Some next) (job_func j))
      end
  end.

(** [Job.do(job_func, task)]: stores the call, computes the first
    [next_run] and appends the job to the scheduler's list. *)
Definition do (j : Job) (task : pyval) : M Job :=
  let j := mkJob (interval j) (unit_ j) (at_time j) (start_day j)
                 (last_run j) (next_run j) task in
  t <- now ;;
  j <- lift (_schedule_next_run j t) ;;
  l <- get_jobs ;;
  set_jobs (l ++ [j])%list ;;
  ret j.

(** [Job.should_run] *)
Definition should_run (j : Job) (now_ : Z) : result bool :=
  match next_run j with
  | None => Raise (Exn AssertionError "must run _schedule_next_run before")
  | Some t => Ok (t <=? now_)
  end.

(** [(job for job in self.jobs if job.should_run)]: the positions of the
    jobs that are due, each with its [next_run], the sort key; [i] is the
    position of the head of [l]. *)
Fixpoint runnable_jobs (now_ : Z) (i : nat) (l : list Job)
  : result (list (nat * Z)) :=
  match l with
  | [] => Ok []
  | j :: rest =>
      match should_run j now_ with
      | Raise e => Raise e
      | Ok b =>
          match runnable_jobs now_ (S i) rest with
          | Raise e => Raise e
          | Ok r =>
              Ok (if b then (i, match next_run j with Some t => t | None => 0 end) :: r
                  else r)
          end
      end
  end.

(** [sorted(...)] with [Job.__lt__], which compares [next_run]: a stable
    insertion sort. *)
Fixpoint insert_job (x : nat * Z) (l : list (nat * Z)) : list (nat * Z) :=
  match l with
  | [] => [x]
  | y :: rest => if snd y <? snd x then y :: insert_job x rest else x :: l
  end.

Definition sorted (l : list (nat * Z)) : list (nat * Z) :=
  fold_right insert_job [] l.

(** The job object at position [i] of the scheduler's list.  Jobs are only
    ever appended, so a position that was valid stays valid. *)
Definition job_at (i : nat) : M Job :=
  fun w =>
    match nth_error (jobs w) i with
    | Some j => (w, Ok j)
    | None => (w, Raise (Exn AssertionError "no such job"))
    end.

Definition set_job (i : nat) (j : Job) : M unit :=
  l <- get_jobs ;; set_jobs (update_nth i j l).

Section Run.
(** How a stored [job_func] is called. *)
Variable call : pyval -> M unit.

(** [Job.run()]: calls the job function, stamps [last_run], computes
    the next [next_run].  (No [until] is set, so the job is never
    overdue.) *)
Definition run (i : nat) : M unit :=
  j <- job_at i ;;
  log_fired i ;;
  call (job_func j) ;;
  t <- now ;;
  j <- job_at i ;;
  let j := mkJob (interval j) (unit_ j) (at_time j) (start_day j)
                 (Some t) (next_run j) (job_func j) in
  set_job i j ;;
  t <- now ;;
  j <- lift (_schedule_next_run j t) ;;
  set_job i j.

(** [Scheduler._run_job(job)]: the job function returns [None], never
    [CancelJob]. *)
Definition _run_job (i : nat) : M unit := run i.

(** [Scheduler.run_pending()] *)
Definition run_pending : M unit :=
  l <- get_jobs ;;
  t <- now ;;
  runnable <- lift (runnable_jobs t 0 l) ;;
  for_each (sorted runnable) (fun p => _run_job (fst p)).
End Run.

End Schedule.

(** ** The script *)

(** The parsed command line: [args.command] and [args.id]. *)
Inductive command : Type := CmdRun | CmdList | CmdAdd | CmdRemove | CmdTest.
Record Args : Type := mkArgs { args_command : command; args_id : option string }.

Section Script.
Variable P : Platform.

Definition str (v : pyval) : string := py_str P v.

Definition TASKS_FILE : string := "tasks.yml".

(** [os.path.exists(TASKS_FILE)] *)
Definition path_exists : M bool :=
  fun w => (w, Ok (match fs w with Some _ => true | None => false end)).

(** Reading [TASKS_FILE] in full *)
Definition read_file : M string :=
  fun w =>
    match fs w with
    | Some text => (w, Ok text)
    | None => (w, Raise (Exn OSError ("No such file or directory: " ++ TASKS_FILE)))
    end.

(** [yaml.safe_load(f)] *)
Definition safe_load (text : string) : M pyval :=
  match yaml_safe_load P text with
  | inr data => ret data
  | inl msg => raise (Exn YAMLError msg)
  end.

Definition is_YAMLError (e : exn) : bool :=
  match exn_cls e with YAMLError => true | _ => false end.

Definition load_tasks : M pyval :=
  present <- path_exists ;;
  if negb present then ret (VList [])
  else
    text <- read_file ;;
    try_except
      (data <- safe_load text ;;
       match data with
       | VNone => ret (VList [])
       | _ => lift (py_get data "tasks" (VList []))
       end)
      is_YAMLError
      (fun exc =>
         print ("Erreur de parsing YAML: " ++ exn_msg exc) ;;
         ret (VList [])).

Definition write_tasks (tasks : pyval) : M unit :=
  fun w => (mkWorld (Some (yaml_dump P (VDict [("tasks", tasks)])))
                    (stdin w) (console w) (clock w) (future w)
                    (jobs w) (executed w) (fired w), Ok tt).

(** [' '.join(v)]: every item must be a string. *)
Fixpoint all_str (l : list pyval) : result (list string) :=
  match l with
  | [] => Ok []
  | VStr x :: rest =>
      match all_str rest with
      | Ok r => Ok (x :: r)
      | Raise e => Raise e
      end
  | _ :: _ => Raise (Exn TypeError "sequence item: expected str instance")
  end.

Definition py_join (sep : string) (v : pyval) : result string :=
  match py_iter v with
  | Raise e => Raise e
  | Ok items =>
      match all_str items with
      | Ok l => Ok (PyStr.join sep l)
      | Raise e => Raise e
      end
  end.

Definition list_tasks : M unit :=
  tasks <- load_tasks ;;
  if py_not tasks then print "Aucune tâche trouvée."
  else
    print "Tâches programmées :" ;;
    items <- lift (py_iter tasks) ;;
    for_each items (fun task =>
      id <- lift (py_get task "id" VNone) ;;
      print ("ID: " ++ str id) ;;
      name <- lift (py_get task "name" VNone) ;;
      print ("  Nom       : " ++ str name) ;;
      cmd <- lift (py_get task "command" VNone) ;;
      args <- lift (py_get task "args" (VList [])) ;;
      joined <- lift (py_join " " args) ;;
      print ("  Commande  : " ++ str cmd ++ " " ++ joined) ;;
      sched <- lift (py_get task "schedule" VNone) ;;
      rec <- lift (py_get task "recurrence" (VStr "daily")) ;;
      print ("  Horaire   : " ++ str sched ++ " (récurrence: " ++ str rec ++ ")") ;;
      print "").

(** [any(task.get("id") == id for task in tasks)]: stops at the first
    match. *)
Fixpoint any_id_eq (id : string) (items : list pyval) : result bool :=
  match items with
  | [] => Ok false
  | task :: rest =>
      match py_get task "id" VNone with
      | Raise e => Raise e
      | Ok v => if eq_str v id then Ok true else any_id_eq id rest
      end
  end.

(** [tasks.append(new_task)]: only a list has [append]. *)
Definition py_append (tasks new_task : pyval) : result pyval :=
  match tasks with
  | VList l => Ok (VList (l ++ [new_task]))
  | _ => Raise (Exn AttributeError "object has no attribute 'append'")
  end.

Definition add_task_interactive : M unit :=
  tasks <- load_tasks ;;
  line <- input "Entrez l'ID unique de la tâche : " ;;
  let id := PyStr.strip line in
  items <- lift (py_iter tasks) ;;
  dup <- lift (any_id_eq id items) ;;
  if dup then print "Une tâche avec cet ID existe déjà."
  else
    line <- input "Nom de la tâche : " ;;
    let name := PyStr.strip line in
    line <- input "Chemin complet du programme/script : " ;;
    let cmd := PyStr.strip line in
    line <- input "Arguments (séparés par des espaces, optionnel) : " ;;
    let args := PyStr.split line in
    line <- input "Heure d'exécution (format HH:MM, ex: 09:00) : " ;;
    let schedule_time := PyStr.strip line in
    line <- input "Récurrence (daily/weekly, par défaut daily) : " ;;
    let recurrence := PyStr.strip line in
    let recurrence := if String.eqb recurrence "" then "daily" else recurrence in
    let new_task := VDict [("id", VStr id);
                           ("name", VStr name);
                           ("command", VStr cmd);
                           ("args", VList (map VStr args));
                           ("schedule", VStr schedule_time);
                           ("recurrence", VStr (PyStr.lower recurrence))] in
    tasks <- lift (py_append tasks new_task) ;;
    write_tasks tasks ;;
    print "Tâche ajoutée avec succès.".

(** [[task for task in tasks if task.get("id") != task_id]] *)
Fixpoint without_id (task_id : string) (items : list pyval)
  : result (list pyval) :=
  match items with
  | [] => Ok []
  | task :: rest =>
      match py_get task "id" VNone with
      | Raise e => Raise e
      | Ok v =>
          match without_id task_id rest with
          | Raise e => Raise e
          | Ok r => Ok (if negb (eq_str v task_id) then task :: r else r)
          end
      end
  end.

Definition remove_task (task_id : string) : M unit :=
  tasks <- load_tasks ;;
  items <- lift (py_iter tasks) ;;
  new_tasks <- lift (without_id task_id items) ;;
  n <- lift (py_len tasks) ;;
  if (List.length new_tasks =? n)%nat
  then print "Aucune tâche avec cet ID n'a été trouvée."
  else
    write_tasks (VList new_tasks) ;;
    print "Tâche supprimée avec succès.".

Definition log_executed (task : pyval) : M unit :=
  fun w => (mkWorld (fs w) (stdin w) (console w) (clock w) (future w)
                    (jobs w) (executed w ++ [(clock w, task)])%list (fired w),
            Ok tt).

(** [[command] + args]: only a list can be appended to a list. *)
Definition py_cons (x v : pyval) : result (list pyval) :=
  match v with
  | VList l => Ok (x :: l)
  | _ => Raise (Exn TypeError "can only concatenate list to list")
  end.

(** [str(e)] of the [CalledProcessError] for [argv] and [status]. *)
Definition called_process_error (argv : list pyval) (status : Z) : exn :=
  Exn CalledProcessError
      (if status <? 0
       then "Command '" ++ str (VList argv) ++ "' died with "
            ++ signal_repr P (- status) ++ "."
       else "Command '" ++ str (VList argv)
            ++ "' returned non-zero exit status " ++ str (VInt status) ++ ".").

(** [subprocess.run(argv, check=True)] *)
Definition subprocess_run (argv : list pyval) : M unit :=
  match spawn P argv with
  | Exited status =>
      if status =? 0 then ret tt else raise (called_process_error argv status)
  | Fault msg => raise (Exn OSError msg)
  end.

Definition is_CalledProcessError (e : exn) : bool :=
  match exn_cls e with CalledProcessError => true | _ => false end.

(** (The first line is not the script's: it records the call in the
    history.) *)
Definition run_task (task : pyval) : M unit :=
  log_executed task ;;
  name <- lift (py_get task "name" VNone) ;;
  id <- lift (py_get task "id" VNone) ;;
  print ("Exécution de la tâche : " ++ str name ++ " (ID: " ++ str id ++ ")") ;;
  cmd <- lift (py_get task "command" VNone) ;;
  args <- lift (py_get task "args" (VList [])) ;;
  try_except
    (argv <- lift (py_cons cmd args) ;;
     subprocess_run argv ;;
     print "Tâche exécutée avec succès.")
    is_Exception
    (fun e =>
       if is_CalledProcessError e
       then print ("Erreur lors de l'exécution de la tâche : " ++ exn_msg e)
       else print ("Exception : " ++ exn_msg e)).

(** One turn of the [for task in tasks] loop of [schedule_tasks]. *)
Definition schedule_task (task : pyval) : M unit :=
  rec <- lift (py_get task "recurrence" (VStr "daily")) ;;
  recurrence <- lift (py_lower rec) ;;
  time_str <- lift (py_get task "schedule" VNone) ;;
  if String.eqb recurrence "daily" then
    try_except
      (j <- lift (Schedule.day Schedule.every) ;;
       j <- lift (Schedule.at_ j time_str) ;;
       Schedule.do j task ;;
       name <- lift (py_get task "name" VNone) ;;
       print ("Tâche '" ++ str name ++ "' programmée tous les jours à "
              ++ str time_str ++ "."))
      is_Exception
      (fun e =>
         id <- lift (py_get task "id" VNone) ;;
         print ("Erreur dans la programmation de la tâche " ++ str id
                ++ ": " ++ exn_msg e))
  else if String.eqb recurrence "weekly" then
    try_except
      (j <- lift (Schedule.monday Schedule.every) ;;
       j <- lift (Schedule.at_ j time_str) ;;
       Schedule.do j task ;;
       name <- lift (py_get task "name" VNone) ;;
       print ("Tâche '" ++ str name ++ "' programmée chaque lundi à "
              ++ str time_str ++ "."))
      is_Exception
      (fun e =>
         id <- lift (py_get task "id" VNone) ;;
         print ("Erreur dans la programmation de la tâche " ++ str id
                ++ ": " ++ exn_msg e))
  else
    id <- lift (py_get task "id" VNone) ;;
    print ("Récurrence non supportée pour la tâche " ++ str id
           ++ ": " ++ recurrence).

Definition schedule_tasks : M unit :=
  tasks <- load_tasks ;;
  items <- lift (py_iter tasks) ;;
  for_each items schedule_task.

(** [schedule.run_pending()]: every job of the script calls
    [run_task]. *)
Definition run_pending : M unit := Schedule.run_pending run_task.

(** [while True: schedule.run_pending(); time.sleep(1)], unrolled at
    most [fuel] times.  The loop only ends by the [KeyboardInterrupt]
    raised in [sleep]; see [scheduler_loop_spec] for the fuel
    that reaches it. *)
Fixpoint scheduler_loop (fuel : nat) : M unit :=
  match fuel with
  | O => ret tt
  | S n => run_pending ;; sleep ;; scheduler_loop n
  end.

Definition is_KeyboardInterrupt (e : exn) : bool :=
  match exn_cls e with KeyboardInterrupt => true | _ => false end.

Definition run_scheduler_loop : M unit :=
  print "Démarrage de l'exécution de l'agenda. Appuyez sur Ctrl+C pour arrêter." ;;
  schedule_tasks ;;
  try_except
    (fun w => scheduler_loop (S (List.length (future w))) w)
    is_KeyboardInterrupt
    (fun _ => print "Arrêt de l'agenda.").

(** The [for] loop of [test_task], which returns at the first match,
    and the line after it. *)
Fixpoint test_task_loop (task_id : string) (items : list pyval) : M unit :=
  match items with
  | [] => print "Aucune tâche avec cet ID n'a été trouvée."
  | task :: rest =>
      id <- lift (py_get task "id" VNone) ;;
      if eq_str id task_id then
        name <- lift (py_get task "name" VNone) ;;
        print ("Test de la tâche '" ++ str name ++ "' (ID: " ++ task_id ++ ")") ;;
        run_task task
      else test_task_loop task_id rest
  end.

Definition test_task (task_id : string) : M unit :=
  tasks <- load_tasks ;;
  items <- lift (py_iter tasks) ;;
  test_task_loop task_id items.

(** [sys.exit(code)] *)
Definition sys_exit (code : Z) : M unit := raise (Exn (SystemExit code) "").

(** [not args.id]: no [--id], or an empty one. *)
Definition no_id (a : Args) : bool :=
  match args_id a with
  | None => true
  | Some s => String.eqb s ""
  end.

Definition the_id (a : Args) : string :=
  match args_id a with Some s => s | None => "" end.

(** [main], after [parser.parse_args()] *)
Definition main (a : Args) : M unit :=
  match args_command a with
  | CmdList => list_tasks
  | CmdAdd => add_task_interactive
  | CmdRemove =>
      if no_id a then
        print "Veuillez spécifier --id pour supprimer une tâche." ;;
        sys_exit 1
      else remove_task (the_id a)
  | CmdTest =>
      if no_id a then
        print "Veuillez spécifier --id pour tester une tâche." ;;
        sys_exit 1
      else test_task (the_id a)
  | CmdRun => run_scheduler_loop
  end.

(** The exit status of the process that ran [main]: 0 on return, the
    code of [sys.exit], 1 on any other uncaught exception. *)
Definition exit_status (r : result unit) : Z :=
  match r with
  | Ok _ => 0
  | Raise e => match exn_cls e with SystemExit c => c | _ => 1 end
  end.
End Script.

(** A process starts with an empty scheduler and empty histories. *)
Definition boot (file : option string) (keyboard : list string)
    (t0 : Z) (ticks : list Z) : World :=
  mkWorld file keyboard [] t0 ticks [] [] [].

(** * Properties *)

(** ** Slots: the instants a recurring job is due

    A job with period [per] and phase [ph] is due at the instants [n]
    with [n mod per = ph mod per].  [next_slot per ph t] is the first of
    them after [t]. *)
Definition next_slot (per ph t : Z) : Z := t + 1 + (ph - t - 1) mod per.

Section Slots.
Variables per ph : Z.
Hypothesis per_pos : 0 < per.

Lemma next_slot_after t : t < next_slot per ph t <= t + per.
Proof.
  unfold next_slot.
  pose proof (Z.mod_pos_bound (ph - t - 1) per per_pos). lia.
Qed.

Lemma next_slot_phase t : next_slot per ph t mod per = ph mod per.
Proof.
  unfold next_slot. rewrite Zplus_mod_idemp_r. f_equal. lia.
Qed.

Lemma next_slot_unique t n :
  t < n <= t + per -> n mod per = ph mod per -> n = next_slot per ph t.
Proof.
  intros Hn Hm. unfold next_slot.
  assert (E : (ph - t - 1) mod per = (n - t - 1) mod per).
  { replace (ph - t - 1) with (ph + (- t - 1)) by lia.
    replace (n - t - 1) with (n + (- t - 1)) by lia.
    rewrite (Zplus_mod ph), (Zplus_mod n), Hm. reflexivity. }
  rewrite E, Z.mod_small; lia.
Qed.

(** No slot between [t] and [t']: the next slot is the same. *)
Lemma next_slot_stable t t' :
  t <= t' < next_slot per ph t -> next_slot per ph t' = next_slot per ph t.
Proof.
  intros Ht. symmetry. apply next_slot_unique.
  - pose proof (next_slot_after t). lia.
  - apply next_slot_phase.
Qed.

(** Once a slot is reached, the next one is a whole period later. *)
Lemma next_slot_skip t t' :
  next_slot per ph t <= t' -> next_slot per ph t + per <= next_slot per ph t'.
Proof.
  intros Ht.
  pose proof (next_slot_after t') as A.
  pose proof (next_slot_phase t) as B.
  pose proof (next_slot_phase t') as C.
  rewrite <- B in C.
  set (a := next_slot per ph t) in *. set (b := next_slot per ph t') in *.
  assert (E : b = a + per * ((b - a) / per)).
  { pose proof (Z.div_mod (b - a) per ltac:(lia)).
    assert ((b - a) mod per = 0).
    { rewrite Zminus_mod, C, Z.sub_diag. apply Z.mod_0_l. lia. }
    lia. }
  remember ((b - a) / per) as q.
  assert (a < b) by lia.
  assert (0 < q) by (destruct (Z_lt_le_dec 0 q); [assumption | exfalso; nia]).
  nia.
Qed.

(** The [while] loop of [_schedule_next_run] leaves with the first
    instant after [now_] among [next], [next + per], ...; the fuel the
    model gives it is enough. *)
Lemma catch_up_spec fuel now_ next :
  (now_ - next) / per + 1 <= Z.of_nat fuel ->
  let r := Schedule.catch_up fuel per now_ next in
  now_ < r /\ exists k, 0 <= k /\ r = next + k * per /\ (k = 0 \/ r - per <= now_).
Proof.
  revert next. induction fuel as [|n IH]; intros next Hf; simpl.
  - assert (now_ < next).
    { destruct (Z_lt_le_dec now_ next); auto.
      assert (0 <= (now_ - next) / per) by (apply Z.div_pos; lia).
      simpl in Hf. lia. }
    split; auto. exists 0. lia.
  - destruct (Z.leb_spec next now_).
    + destruct (IH (next + per)) as [A [k [K1 [K2 K3]]]].
      { replace (now_ - (next + per)) with (now_ - next + (-1) * per) by lia.
        rewrite Z.div_add by lia. lia. }
      split; auto. exists (k + 1). split; [lia|]. split; [lia|].
      right. destruct K3; subst; lia.
    + split; auto. exists 0; lia.
Qed.

Lemma candidate_slot t m fuel :
  m mod per = ph mod per -> m <= t + per ->
  (t - m) / per + 1 <= Z.of_nat fuel ->
  Schedule.catch_up fuel per t m = next_slot per ph t.
Proof.
  intros Hm Hle Hf.
  destruct (catch_up_spec fuel t m Hf) as [A [k [K1 [K2 K3]]]].
  apply next_slot_unique.
  - split; auto. destruct K3; subst; lia.
  - rewrite K2, Z.mod_add by lia. exact Hm.
Qed.
End Slots.

Lemma day_us_pos : 0 < day_us.
Proof. reflexivity. Qed.

Lemma replace_time_phase t a :
  replace_time t a mod day_us = time_us a mod day_us.
Proof.
  unfold replace_time.
  rewrite Z.add_comm, Z.mod_add by (pose proof day_us_pos; lia). reflexivity.
Qed.

Lemma replace_time_le t a :
  time_us a < day_us -> replace_time t a <= t + day_us.
Proof.
  unfold replace_time. pose proof (Z.mul_div_le t day_us day_us_pos). lia.
Qed.

(** The candidate of a Monday job: a Monday, at the job's time, at most a
    week ahead. *)
Lemma monday_candidate t a :
  0 <= time_us a < day_us ->
  let m := replace_time (Schedule._move_to_next_weekday t Monday) a in
  m mod (7 * day_us) = time_us a mod (7 * day_us) /\ m <= t + 7 * day_us.
Proof.
  intros Ha.
  unfold replace_time, Schedule._move_to_next_weekday, weekday.
  cbn [weekday_index].
  pose proof day_us_pos as Hd.
  remember day_us as D eqn:HD.
  set (d := t / D).
  assert (HD' : D = 86400000000) by (subst D; reflexivity). clear HD.
  pose proof (Z.mod_pos_bound d 7 ltac:(lia)) as Hw.
  pose proof (Z.div_mod d 7 ltac:(lia)) as Hq.
  pose proof (Z.mul_div_le t D Hd) as Hle. fold d in Hle.
  assert (E : forall k, (t + k * D) / D = d + k).
  { intros k. rewrite Z.div_add by lia. reflexivity. }
  destruct (Z.ltb_spec (0 - d mod 7) 0); rewrite E.
  - split; [|nia].
    replace ((d + (0 - d mod 7 + 7)) * D + time_us a)
      with (time_us a + (d / 7 + 1) * (7 * D)) by nia.
    apply Z.mod_add. lia.
  - split; [|nia].
    replace ((d + (0 - d mod 7)) * D + time_us a)
      with (time_us a + (d / 7) * (7 * D)) by nia.
    apply Z.mod_add. lia.
Qed.

(** ** The jobs the script registers *)

(** [task.get("recurrence", "daily").lower()] *)
Definition recurrence_of (task : pyval) : result string :=
  match py_get task "recurrence" (VStr "daily") with
  | Ok v => py_lower v
  | Raise e => Raise e
  end.

(** The unit [schedule_task] selects for a task, if any. *)
Definition kind_of (task : pyval) : option time_unit :=
  match recurrence_of task with
  | Ok r => if String.eqb r "daily" then Some Days
            else if String.eqb r "weekly" then Some Weeks
            else None
  | Raise _ => None
  end.

Definition period (j : Job) : Z :=
  match unit_ j with Some u => unit_us u | None => day_us end.

Definition phase (j : Job) : Z :=
  match at_time j with Some a => time_us a | None => 0 end.

(** The shape of a job built by [every().day.at(..)] or
    [every().monday.at(..)]. *)
Definition timed_job (j : Job) : Prop :=
  interval j = 1 /\
  (exists a, at_time j = Some a /\ 0 <= time_us a <= day_us - usec) /\
  ((unit_ j = Some Days /\ start_day j = None) \/
   (unit_ j = Some Weeks /\ start_day j = Some Monday)).

(** A job of the script: of that shape, for a record whose recurrence
    selects the job's unit. *)
Definition script_job (j : Job) : Prop :=
  timed_job j /\
  (exists d, job_func j = VDict d) /\
  kind_of (job_func j) = unit_ j.

Definition set_next_run (j : Job) (n : Z) : Job :=
  mkJob (interval j) (unit_ j) (at_time j) (start_day j) (last_run j)
        (Some n) (job_func j).

Definition set_last_run (j : Job) (t : Z) : Job :=
  mkJob (interval j) (unit_ j) (at_time j) (start_day j) (Some t)
        (next_run j) (job_func j).

Lemma period_pos j : 0 < period j.
Proof. unfold period. destruct (unit_ j) as [[|]|]; reflexivity. Qed.

(** [_schedule_next_run] on a job of the script: the first slot after the
    clock reading. *)
Lemma schedule_next_run_slot j t :
  timed_job j ->
  Schedule._schedule_next_run j t
  = Ok (set_next_run j (next_slot (period j) (phase j) t)).
Proof.
  intros (Hi & (a & Ha & Hr) & Hk). pose proof day_us_pos as Hd.
  assert (Hr' : 0 <= time_us a < day_us) by (unfold usec in Hr; lia).
  unfold Schedule._schedule_next_run, set_next_run, period, phase,
    Schedule._move_to_at_time.
  rewrite Hi, Ha.
  destruct Hk as [(Hu & Hs) | (Hu & Hs)]; rewrite Hu, Hs;
    cbn [unit_us Z.eqb Pos.eqb]; rewrite Z.mul_1_l;
    do 3 f_equal; apply candidate_slot; try lia.
  - apply replace_time_phase.
  - apply replace_time_le; lia.
  - apply monday_candidate; assumption.
  - apply monday_candidate; assumption.
Qed.

Lemma digit_between_val lo hi c :
  Schedule.digit_between lo hi c = true ->
  Z.of_nat lo <= Schedule.digit_val c <= Z.of_nat hi.
Proof.
  unfold Schedule.digit_between, Schedule.digit_val. intros H.
  apply andb_true_iff in H. destruct H as [H1 H2].
  apply Nat.leb_le in H1. apply Nat.leb_le in H2. lia.
Qed.

Lemma parse_daily_bounds s h m sec :
  Schedule.parse_daily s = Some (h, m, sec) ->
  0 <= h <= 29 /\ 0 <= m <= 59 /\ 0 <= sec <= 59.
Proof.
  unfold Schedule.parse_daily.
  destruct (list_ascii_of_string s) as [|h1 [|h2 [|c1 [|m1 [|m2 rest]]]]];
    try discriminate.
  destruct (_ && _)%bool eqn:E; [|discriminate].
  do 4 (apply andb_true_iff in E; destruct E as [E ?]).
  repeat match goal with
         | H : Schedule.digit_between _ _ _ = true |- _ =>
             apply digit_between_val in H
         end.
  remember (10 * Schedule.digit_val h1 + Schedule.digit_val h2) as hh.
  remember (10 * Schedule.digit_val m1 + Schedule.digit_val m2) as mm.
  destruct (Schedule.at_end rest).
  - intros [= <- <- <-]. lia.
  - destruct rest as [|c2 [|s1 [|s2 rest']]]; try discriminate.
    destruct (_ && _)%bool eqn:E'; [|discriminate].
    do 3 (apply andb_true_iff in E'; destruct E' as [E' ?]).
    repeat match goal with
           | H : Schedule.digit_between _ _ _ = true |- _ =>
               apply digit_between_val in H
           end.
    remember (10 * Schedule.digit_val s1 + Schedule.digit_val s2) as ss.
    intros [= <- <- <-]. lia.
Qed.

(** ** The Executor: [run_task] *)

Definition with_output (w : World) (out : list string)
    (calls : list (Z * pyval)) : World :=
  mkWorld (fs w) (stdin w) (console w ++ out) (clock w) (future w)
          (jobs w) (executed w ++ calls) (fired w).

Section Executor.
Variable P : Platform.

(** The line [run_task] prints for the outcome of the launch. *)
Definition outcome_line (cmd args : pyval) : string :=
  match py_cons cmd args with
  | Raise e => "Exception : " ++ exn_msg e
  | Ok argv =>
      match spawn P argv with
      | Exited status =>
          if status =? 0 then "Tâche exécutée avec succès."
          else "Erreur lors de l'exécution de la tâche : "
               ++ exn_msg (called_process_error P argv status)
      | Fault msg => "Exception : " ++ msg
      end
  end.

Definition field (d : list (string * pyval)) (k : string) (default : pyval) : pyval :=
  match assoc k d with Some x => x | None => default end.

Definition run_task_output (d : list (string * pyval)) : list string :=
  [ "Exécution de la tâche : " ++ str P (field d "name" VNone)
      ++ " (ID: " ++ str P (field d "id" VNone) ++ ")";
    outcome_line (field d "command" VNone) (field d "args" (VList [])) ].

(** On a record, [run_task] always returns normally; it adds two lines
    to the console and one entry to the history, and touches nothing
    else. *)
Lemma run_task_dict d w :
  run_task P (VDict d) w
  = (with_output w (run_task_output d) [(clock w, VDict d)], Ok tt).
Proof.
  unfold run_task, run_task_output, outcome_line, with_output, field.
  unfold bind, lift, log_executed, print, try_except, subprocess_run, ret, raise.
  cbn [py_get fs stdin console clock future jobs executed fired].
  destruct (py_cons _ _) as [argv|e] eqn:Hc.
  - destruct (spawn P argv) as [status|msg].
    + destruct (status =? 0); cbn; rewrite <- app_assoc; reflexivity.
    + cbn. rewrite <- app_assoc. reflexivity.
  - assert (He : is_Exception e = true /\ is_CalledProcessError e = false).
    { unfold py_cons in Hc. destruct (match assoc "args" d with Some x => x | None => VList [] end);
        try discriminate; injection Hc as <-; split; reflexivity. }
    destruct He as [-> ->]. cbn. rewrite <- app_assoc. reflexivity.
Qed.
End Executor.

(** ** One pass of the scheduler *)

Open Scope list_scope.

(** A job after it ran at [t]. *)
Definition reschedule (t : Z) (j : Job) : Job :=
  set_next_run (set_last_run j t) (next_slot (period j) (phase j) t).

Definition due (t : Z) (j : Job) : bool :=
  match next_run j with Some n => n <=? t | None => false end.

(** A job after [run_pending] at [t]. *)
Definition tick_job (t : Z) (j : Job) : Job :=
  if due t j then reschedule t j else j.

Definition task_of (l : list Job) (i : nat) : pyval :=
  match nth_error l i with Some j => job_func j | None => VNone end.

Lemma nth_error_update_nth i x l k :
  nth_error (Schedule.update_nth i x l) k
  = if (k =? i)%nat then (match nth_error l k with Some _ => Some x | None => None end)
    else nth_error l k.
Proof.
  revert i k. induction l as [|y l IH]; intros [|i] [|k]; cbn; try reflexivity.
  - destruct (k =? i)%nat; reflexivity.
  - apply IH.
Qed.

Lemma length_update_nth i x l :
  List.length (Schedule.update_nth i x l) = List.length l.
Proof.
  revert i. induction l as [|y l IH]; intros [|i]; cbn; auto.
Qed.

Lemma update_nth_twice i x y l :
  Schedule.update_nth i x (Schedule.update_nth i y l) = Schedule.update_nth i x l.
Proof.
  revert i. induction l as [|z l IH]; intros [|i]; cbn; auto. now rewrite IH.
Qed.

Section Pass.
Variable P : Platform.

(** The world after the job at position [i], [j], ran. *)
Definition after_run (w : World) (i : nat) (j : Job) (d : list (string * pyval)) : World :=
  mkWorld (fs w) (stdin w) (console w ++ run_task_output P d) (clock w) (future w)
          (Schedule.update_nth i (reschedule (clock w) j) (jobs w))
          (executed w ++ [(clock w, VDict d)]) (fired w ++ [(clock w, i)]).

Lemma run_spec w i j d :
  nth_error (jobs w) i = Some j -> script_job j -> job_func j = VDict d ->
  Schedule.run (run_task P) i w = (after_run w i j d, Ok tt).
Proof.
  intros Hn Hj Hd. unfold Schedule.run, after_run.
  unfold bind at 1. unfold Schedule.job_at at 1. rewrite Hn.
  unfold bind at 1. unfold Schedule.log_fired.
  unfold bind at 1. rewrite Hd, run_task_dict.
  unfold bind, now, Schedule.job_at, Schedule.set_job, Schedule.get_jobs,
    Schedule.set_jobs, lift, with_output.
  cbn [fs stdin console clock future jobs executed fired].
  rewrite Hn.
  cbn [fs stdin console clock future jobs executed fired].
  unfold bind. cbn [fs stdin console clock future jobs executed fired].
  fold (set_last_run j (clock w)).
  rewrite (schedule_next_run_slot (set_last_run j (clock w)) _ (proj1 Hj)).
  cbn [fs stdin console clock future jobs executed fired].
  rewrite update_nth_twice. reflexivity.
Qed.
End Pass.

Section Passes.
Variable P : Platform.

(** The world after the jobs at the positions [idxs] ran, in that
    order. *)
Fixpoint after_runs (w : World) (idxs : list nat) : World :=
  match idxs with
  | [] => w
  | i :: rest =>
      match nth_error (jobs w) i with
      | Some j =>
          match job_func j with
          | VDict d => after_runs (after_run P w i j d) rest
          | _ => w
          end
      | None => w
      end
  end.

Lemma Forall_update_nth (Q : Job -> Prop) i x l :
  Forall Q l -> Q x -> Forall Q (Schedule.update_nth i x l).
Proof.
  intros Hl Hx. revert i. induction Hl as [|y l Hy Hl IH]; intros [|i]; cbn; auto.
Qed.

Lemma for_each_runs idxs : forall w,
  Forall script_job (jobs w) ->
  (forall i, In i idxs -> (i < List.length (jobs w))%nat) ->
  for_each idxs (fun i => Schedule._run_job (run_task P) i) w
  = (after_runs w idxs, Ok tt).
Proof.
  induction idxs as [|i rest IH]; intros w Hw Hi; [reflexivity|].
  destruct (nth_error (jobs w) i) as [j|] eqn:Hn.
  2:{ apply nth_error_None in Hn. specialize (Hi i (or_introl eq_refl)). lia. }
  assert (Hj : script_job j).
  { rewrite Forall_forall in Hw. apply Hw. eapply nth_error_In; eauto. }
  destruct (Hj) as (_ & (d & Hd) & _).
  cbn [for_each after_runs]. rewrite Hn, Hd.
  unfold bind, Schedule._run_job. rewrite (run_spec P w i j d Hn Hj Hd).
  apply IH.
  - cbn [after_run jobs]. apply Forall_update_nth; auto.
  - intros k Hk. cbn [after_run jobs]. rewrite length_update_nth. auto with datatypes.
Qed.

Lemma after_runs_frame idxs : forall w,
  fs (after_runs w idxs) = fs w /\ stdin (after_runs w idxs) = stdin w /\
  clock (after_runs w idxs) = clock w /\ future (after_runs w idxs) = future w /\
  List.length (jobs (after_runs w idxs)) = List.length (jobs w) /\
  exists out, console (after_runs w idxs) = console w ++ out.
Proof.
  induction idxs as [|i rest IH]; intros w; cbn [after_runs].
  - repeat split; auto. exists []. now rewrite app_nil_r.
  - destruct (nth_error (jobs w) i) as [j|].
    2:{ repeat split; auto. exists []. now rewrite app_nil_r. }
    destruct (job_func j);
      try (repeat split; auto; exists []; now rewrite app_nil_r).
    destruct (IH (after_run P w i j d)) as (A & B & C & D & E & out & F).
    cbn [after_run fs stdin clock future jobs console] in *.
    rewrite length_update_nth in E.
    repeat split; auto.
    eexists. rewrite F, <- app_assoc. reflexivity.
Qed.

Lemma task_of_update_nth i t j l k :
  nth_error l i = Some j ->
  task_of (Schedule.update_nth i (reschedule t j) l) k = task_of l k.
Proof.
  intros Hn. unfold task_of. rewrite nth_error_update_nth.
  destruct (Nat.eqb_spec k i) as [->|]; [|reflexivity].
  rewrite Hn. reflexivity.
Qed.

(** The histories grow by one entry per position, in order. *)
Lemma after_runs_histories idxs : forall w,
  Forall script_job (jobs w) ->
  (forall i, In i idxs -> (i < List.length (jobs w))%nat) ->
  fired (after_runs w idxs) = fired w ++ map (fun i => (clock w, i)) idxs /\
  executed (after_runs w idxs)
  = executed w ++ map (fun i => (clock w, task_of (jobs w) i)) idxs /\
  (forall k, task_of (jobs (after_runs w idxs)) k = task_of (jobs w) k).
Proof.
  induction idxs as [|i rest IH]; intros w Hw Hi; cbn [after_runs map].
  - rewrite !app_nil_r. auto.
  - destruct (nth_error (jobs w) i) as [j|] eqn:Hn.
    2:{ apply nth_error_None in Hn. specialize (Hi i (or_introl eq_refl)). lia. }
    assert (Hj : script_job j).
    { rewrite Forall_forall in Hw. apply Hw. eapply nth_error_In; eauto. }
    destruct (Hj) as (_ & (d & Hd) & _). rewrite Hd.
    destruct (IH (after_run P w i j d)) as (A & B & C).
    { cbn [after_run jobs]. apply Forall_update_nth; auto. }
    { intros k Hk. cbn [after_run jobs]. rewrite length_update_nth.
      auto with datatypes. }
    cbn [after_run fired executed clock jobs] in A, B, C.
    rewrite A, B, <- !app_assoc. cbn [app].
    split; [reflexivity|]. split.
    + do 2 f_equal.
      * unfold task_of. rewrite Hn. now rewrite Hd.
      * apply map_ext. intros k. f_equal. apply task_of_update_nth; auto.
    + intros k. rewrite C. apply task_of_update_nth; auto.
Qed.

(** Each position that ran holds the rescheduled job; the others are
    untouched. *)
Lemma after_runs_jobs idxs : forall w k,
  Forall script_job (jobs w) ->
  (forall i, In i idxs -> (i < List.length (jobs w))%nat) ->
  NoDup idxs ->
  nth_error (jobs (after_runs w idxs)) k
  = if existsb (Nat.eqb k) idxs
    then option_map (reschedule (clock w)) (nth_error (jobs w) k)
    else nth_error (jobs w) k.
Proof.
  induction idxs as [|i rest IH]; intros w k Hw Hi Hnd; cbn [after_runs existsb].
  - reflexivity.
  - destruct (nth_error (jobs w) i) as [j|] eqn:Hn.
    2:{ apply nth_error_None in Hn. specialize (Hi i (or_introl eq_refl)). lia. }
    assert (Hj : script_job j).
    { rewrite Forall_forall in Hw. apply Hw. eapply nth_error_In; eauto. }
    destruct (Hj) as (_ & (d & Hd) & _). rewrite Hd.
    inversion Hnd as [|? ? Hni Hnd']; subst.
    rewrite IH; auto.
    2:{ cbn [after_run jobs]. apply Forall_update_nth; auto. }
    2:{ intros k' Hk'. cbn [after_run jobs]. rewrite length_update_nth.
        auto with datatypes. }
    cbn [after_run jobs clock]. rewrite nth_error_update_nth.
    destruct (Nat.eqb_spec k i) as [->|Hki]; cbn [orb].
    + rewrite Hn.
      assert (E : existsb (Nat.eqb i) rest = false).
      { destruct (existsb (Nat.eqb i) rest) eqn:E; auto.
        apply existsb_exists in E. destruct E as (x & Hx & Hxi).
        apply Nat.eqb_eq in Hxi. subst x. contradiction. }
      rewrite E. reflexivity.
    + reflexivity.
Qed.
End Passes.

(** The positions [run_pending] finds due at [t], before sorting, with
    their keys; [i] is the position of the head of [l]. *)
Fixpoint due_list (t : Z) (i : nat) (l : list Job) : list (nat * Z) :=
  match l with
  | [] => []
  | j :: rest =>
      if due t j
      then (i, match next_run j with Some n => n | None => 0 end)
             :: due_list t (S i) rest
      else due_list t (S i) rest
  end.

(** The positions of the jobs that run in a pass at [t], in the order in
    which they run. *)
Definition pending (t : Z) (l : list Job) : list nat :=
  map fst (Schedule.sorted (due_list t 0 l)).

Lemma runnable_jobs_due_list t l : forall i,
  Forall (fun j => next_run j <> None) l ->
  Schedule.runnable_jobs t i l = Ok (due_list t i l).
Proof.
  induction l as [|j rest IH]; intros i Hl; [reflexivity|].
  inversion Hl as [|? ? Hj Hrest]; subst.
  cbn [Schedule.runnable_jobs due_list]. rewrite (IH (S i) Hrest).
  unfold Schedule.should_run, due.
  destruct (next_run j) as [n|]; [|contradiction].
  reflexivity.
Qed.

Lemma in_due_list t l : forall i k key,
  In (k, key) (due_list t i l) ->
  (i <= k)%nat /\ exists j, nth_error l (k - i) = Some j /\ due t j = true.
Proof.
  induction l as [|j rest IH]; intros i k key H; [contradiction|].
  cbn [due_list] in H.
  assert (G : (k = i /\ due t j = true) \/ In (k, key) (due_list t (S i) rest)).
  { destruct (due t j); [|auto]. destruct H as [H|H]; [|auto].
    injection H as <- _. auto. }
  destruct G as [[-> Hd]|G].
  - split; [lia|]. exists j. rewrite Nat.sub_diag. auto.
  - apply IH in G. destruct G as (Hle & j' & Hn & Hd).
    split; [lia|]. exists j'. split; auto.
    replace (k - i)%nat with (S (k - S i)) by lia. exact Hn.
Qed.

Lemma due_list_complete t l : forall i k j,
  nth_error l k = Some j -> due t j = true ->
  In (i + k)%nat (map fst (due_list t i l)).
Proof.
  induction l as [|j' rest IH]; intros i [|k] j Hn Hd; try discriminate.
  - injection Hn as ->. cbn [due_list]. rewrite Hd. left. cbn. lia.
  - cbn [due_list]. cbn [nth_error] in Hn.
    replace (i + S k)%nat with (S i + k)%nat by lia.
    destruct (due t j'); [right|]; eapply IH; eauto.
Qed.

Lemma NoDup_due_list t l : forall i, NoDup (map fst (due_list t i l)).
Proof.
  induction l as [|j rest IH]; intros i; cbn [due_list]; [constructor|].
  destruct (due t j); [|apply IH].
  cbn [map fst]. constructor; [|apply IH].
  intros H. apply in_map_iff in H. destruct H as ([k key] & Hk & Hin).
  cbn in Hk. subst k. apply in_due_list in Hin. lia.
Qed.

Lemma insert_job_perm x l : Permutation (Schedule.insert_job x l) (x :: l).
Proof.
  induction l as [|y l IH]; cbn; [reflexivity|].
  destruct (snd y <? snd x); [|reflexivity].
  rewrite IH. apply perm_swap.
Qed.

Lemma sorted_perm l : Permutation (Schedule.sorted l) l.
Proof.
  induction l as [|x l IH]; cbn; [reflexivity|].
  rewrite insert_job_perm. now constructor.
Qed.

Lemma pending_perm t l : Permutation (pending t l) (map fst (due_list t 0 l)).
Proof. unfold pending. apply Permutation_map, sorted_perm. Qed.

Lemma NoDup_pending t l : NoDup (pending t l).
Proof.
  eapply Permutation_NoDup; [symmetry; apply pending_perm|apply NoDup_due_list].
Qed.

Lemma in_pending t l k :
  In k (pending t l) <-> exists j, nth_error l k = Some j /\ due t j = true.
Proof.
  split.
  - intros H. apply (Permutation_in _ (pending_perm t l)) in H.
    apply in_map_iff in H. destruct H as ([k' key] & Hk & Hin). cbn in Hk. subst k'.
    apply in_due_list in Hin. destruct Hin as (_ & j & Hn & Hd).
    rewrite Nat.sub_0_r in Hn. eauto.
  - intros (j & Hn & Hd).
    apply (Permutation_in _ (Permutation_sym (pending_perm t l))).
    apply (due_list_complete t l 0%nat k j Hn Hd).
Qed.

Lemma existsb_pending t l k :
  existsb (Nat.eqb k) (pending t l)
  = match nth_error l k with Some j => due t j | None => false end.
Proof.
  destruct (existsb (Nat.eqb k) (pending t l)) eqn:E.
  - apply existsb_exists in E. destruct E as (x & Hx & Hxk).
    apply Nat.eqb_eq in Hxk. subst x.
    apply in_pending in Hx. destruct Hx as (j & -> & ->). reflexivity.
  - destruct (nth_error l k) as [j|] eqn:Hn; [|reflexivity].
    destruct (due t j) eqn:Hd; [|reflexivity].
    assert (Hin : In k (pending t l)) by (apply in_pending; eauto).
    assert (existsb (Nat.eqb k) (pending t l) = true).
    { apply existsb_exists. exists k. split; auto. apply Nat.eqb_refl. }
    congruence.
Qed.

(** [next_run] is the first slot after [tprev]: nothing was due and missed
    between [tprev] and now. *)
Definition tracked (tprev : Z) (j : Job) : Prop :=
  script_job j /\ next_run j = Some (next_slot (period j) (phase j) tprev).

Lemma tracked_tick tprev t j :
  tprev <= t -> tracked tprev j -> tracked t (tick_job t j).
Proof.
  intros Ht [Hj Hn]. unfold tick_job, due. rewrite Hn.
  destruct (Z.leb_spec (next_slot (period j) (phase j) tprev) t).
  - split; [exact Hj|reflexivity].
  - split; [exact Hj|]. rewrite Hn. f_equal. symmetry.
    apply next_slot_stable; [apply period_pos|lia].
Qed.

Section Pending.
Variable P : Platform.

(** [run_pending] on a scheduler that holds jobs of the script: it
    returns normally, having run every due job once. *)
Lemma run_pending_spec w tprev :
  Forall (tracked tprev) (jobs w) ->
  run_pending P w = (after_runs P w (pending (clock w) (jobs w)), Ok tt).
Proof.
  intros Hw. unfold run_pending, Schedule.run_pending.
  unfold bind at 1. unfold Schedule.get_jobs.
  unfold bind at 1. unfold now.
  unfold bind at 1. unfold lift.
  rewrite runnable_jobs_due_list.
  2:{ eapply Forall_impl; [|exact Hw]. intros j [_ Hj]. rewrite Hj. discriminate. }
  assert (Hs : Forall script_job (jobs w)).
  { eapply Forall_impl; [|exact Hw]. intros j [Hj _]. exact Hj. }
  pose proof (for_each_runs P (pending (clock w) (jobs w)) w Hs) as H.
  unfold pending in H at 2. rewrite <- H.
  - clear. generalize (Schedule.sorted (due_list (clock w) 0 (jobs w))).
    intros l. revert w. induction l as [|p l IH]; intros w; [reflexivity|].
    cbn [map for_each]. unfold bind.
    destruct (Schedule._run_job (run_task P) (fst p) w) as [w' [[]|e]]; auto.
  - intros i Hi. apply in_pending in Hi. destruct Hi as (j & Hn & _).
    apply nth_error_Some. congruence.
Qed.

Lemma run_pending_jobs w tprev :
  Forall (tracked tprev) (jobs w) ->
  jobs (fst (run_pending P w)) = map (tick_job (clock w)) (jobs w).
Proof.
  intros Hw. rewrite (run_pending_spec w tprev Hw). cbn [fst].
  assert (Hs : Forall script_job (jobs w)).
  { eapply Forall_impl; [|exact Hw]. intros j [Hj _]. exact Hj. }
  apply nth_error_ext. intros k.
  rewrite after_runs_jobs; auto.
  - rewrite existsb_pending, nth_error_map. unfold tick_job.
    destruct (nth_error (jobs w) k) as [j|]; [|reflexivity].
    cbn [option_map]. destruct (due (clock w) j); reflexivity.
  - intros i Hi. apply in_pending in Hi. destruct Hi as (j & Hn & _).
    apply nth_error_Some. congruence.
  - apply NoDup_pending.
Qed.
End Pending.

(** ** The polling loop *)

(** The ticks at which a job of period [per] and phase [ph] runs, when
    the passes happen at [ticks] and the pass before them was at [tprev]
    (or the job was registered then). *)
Fixpoint firings (per ph tprev : Z) (ticks : list Z) : list Z :=
  match ticks with
  | [] => []
  | t :: rest =>
      (if next_slot per ph tprev <=? t then [t] else [])
        ++ firings per ph t rest
  end.

(** The clock never goes back: [t], then the readings of [l] in order. *)
Fixpoint ascending (t : Z) (l : list Z) : Prop :=
  match l with
  | [] => True
  | x :: rest => t <= x /\ ascending x rest
  end.

Definition ran_job (i : nat) (f : Z * nat) : bool := (snd f =? i)%nat.

Lemma filter_ran_job t i idxs :
  NoDup idxs ->
  filter (ran_job i) (map (fun k => (t, k)) idxs)
  = if existsb (Nat.eqb i) idxs then [(t, i)] else [].
Proof.
  induction idxs as [|k rest IH]; intros Hnd; [reflexivity|].
  inversion Hnd as [|? ? Hk Hrest]; subst.
  cbn [map filter existsb]. unfold ran_job at 1. cbn [snd].
  rewrite (Nat.eqb_sym i k).
  destruct (Nat.eqb_spec k i) as [->|Hne]; cbn [orb].
  - rewrite IH by assumption.
    assert (E : existsb (Nat.eqb i) rest = false).
    { destruct (existsb (Nat.eqb i) rest) eqn:E; auto.
      apply existsb_exists in E. destruct E as (x & Hx & Hxi).
      apply Nat.eqb_eq in Hxi. subst x. contradiction. }
    rewrite E. reflexivity.
  - apply IH. assumption.
Qed.

Lemma period_tick_job t j : period (tick_job t j) = period j.
Proof. unfold tick_job. destruct (due t j); reflexivity. Qed.

Lemma phase_tick_job t j : phase (tick_job t j) = phase j.
Proof. unfold tick_job. destruct (due t j); reflexivity. Qed.

(** A job without what running changes: [last_run] and [next_run]. *)
Definition static (j : Job) : Job :=
  mkJob (interval j) (unit_ j) (at_time j) (start_day j) None None (job_func j).

Lemma static_tick_job t j : static (tick_job t j) = static j.
Proof. unfold tick_job. destruct (due t j); reflexivity. Qed.

Lemma static_nth_error l l' k j' :
  map static l' = map static l -> nth_error l' k = Some j' ->
  exists j, nth_error l k = Some j /\ static j = static j'.
Proof.
  intros E Hn.
  assert (H : nth_error (map static l) k = Some (static j')).
  { rewrite <- E, nth_error_map, Hn. reflexivity. }
  rewrite nth_error_map in H.
  destruct (nth_error l k) as [j|]; [|discriminate].
  cbn [option_map] in H.
  remember (static j) as sj. remember (static j') as sj'.
  injection H as ->. subst. eauto.
Qed.

Lemma task_of_static l l' k :
  map static l' = map static l -> task_of l' k = task_of l k.
Proof.
  intros E. unfold task_of.
  assert (H : nth_error (map static l') k = nth_error (map static l) k) by now rewrite E.
  rewrite !nth_error_map in H.
  destruct (nth_error l' k) as [j'|], (nth_error l k) as [j|]; try discriminate; auto.
  cbn [option_map] in H.
  change (job_func (static j') = job_func (static j)).
  remember (static j) as sj. remember (static j') as sj'.
  injection H as ->. reflexivity.
Qed.

Section Loop.
Variable P : Platform.

(** One pass, in full. *)
Lemma pass_spec w tprev :
  Forall (tracked tprev) (jobs w) -> tprev <= clock w ->
  exists w1,
    run_pending P w = (w1, Ok tt) /\
    fs w1 = fs w /\ stdin w1 = stdin w /\
    clock w1 = clock w /\ future w1 = future w /\
    jobs w1 = map (tick_job (clock w)) (jobs w) /\
    Forall (tracked (clock w)) (jobs w1) /\
    fired w1 = fired w ++ map (fun i => (clock w, i)) (pending (clock w) (jobs w)) /\
    executed w1 = executed w
      ++ map (fun i => (clock w, task_of (jobs w) i)) (pending (clock w) (jobs w)) /\
    exists out, console w1 = console w ++ out.
Proof.
  intros Hw Ht.
  assert (Hs : Forall script_job (jobs w)).
  { eapply Forall_impl; [|exact Hw]. intros j [Hj _]. exact Hj. }
  assert (Hv : forall i, In i (pending (clock w) (jobs w)) ->
                         (i < List.length (jobs w))%nat).
  { intros i Hi. apply in_pending in Hi. destruct Hi as (j & Hn & _).
    apply nth_error_Some. congruence. }
  pose proof (run_pending_jobs P w tprev Hw) as Hjobs.
  rewrite (run_pending_spec P w tprev Hw) in *. cbn [fst] in Hjobs.
  eexists. split; [reflexivity|].
  destruct (after_runs_frame P (pending (clock w) (jobs w)) w)
    as (A & B & C & D & _ & out & E).
  destruct (after_runs_histories P (pending (clock w) (jobs w)) w Hs Hv)
    as (F & G & _).
  repeat split; auto.
  - rewrite Hjobs. apply Forall_map.
    eapply Forall_impl; [|exact Hw]. intros j Hj.
    apply (tracked_tick tprev); assumption.
  - exists out. exact E.
Qed.

Definition interrupted : result unit := Raise (Exn KeyboardInterrupt "").

(** The loop, from a scheduler whose jobs were last looked at at
    [tprev]: it ends by the interrupt, having left the store alone, and
    each job ran exactly at its [firings]. *)
Lemma scheduler_loop_spec ticks : forall w tprev fuel,
  future w = ticks ->
  Forall (tracked tprev) (jobs w) -> tprev <= clock w ->
  ascending (clock w) ticks ->
  (List.length ticks < fuel)%nat ->
  exists wf F,
    scheduler_loop P fuel w = (wf, interrupted) /\
    fs wf = fs w /\ stdin wf = stdin w /\
    map static (jobs wf) = map static (jobs w) /\
    fired wf = fired w ++ F /\
    executed wf = executed w ++ map (fun f => (fst f, task_of (jobs w) (snd f))) F /\
    (forall i j, nth_error (jobs w) i = Some j ->
       map fst (filter (ran_job i) F)
       = firings (period j) (phase j) tprev (clock w :: ticks)) /\
    Forall (fun f => (snd f < List.length (jobs w))%nat) F /\
    exists out, console wf = console w ++ out.
Proof.
  induction ticks as [|t' rest IH]; intros w tprev fuel Hf Hw Ht Hasc Hfuel;
    (destruct fuel as [|fuel]; [cbn in Hfuel; lia|]);
    destruct (pass_spec w tprev Hw Ht)
      as (w1 & Hrun & A & B & C & D & Hjobs & Htr & Hfired & Hexec & out & Hout);
    cbn [scheduler_loop]; unfold bind at 1; rewrite Hrun;
    unfold bind at 1; unfold sleep; rewrite D, Hf.
  - exists w1, (map (fun i => (clock w, i)) (pending (clock w) (jobs w))).
    split; [reflexivity|].
    assert (Hst : map static (jobs w1) = map static (jobs w)).
    { rewrite Hjobs, map_map. apply map_ext. intros j. apply static_tick_job. }
    repeat split; auto.
    + rewrite Hexec, map_map. reflexivity.
    + intros i j Hn. rewrite filter_ran_job by apply NoDup_pending.
      rewrite existsb_pending, Hn.
      rewrite Forall_forall in Hw.
      destruct (Hw j (nth_error_In _ _ Hn)) as [_ Hnext].
      cbn [firings]. unfold due. rewrite Hnext, app_nil_r.
      destruct (_ <=? _); reflexivity.
    + apply Forall_map, Forall_forall. intros i Hi. cbn [snd].
      apply in_pending in Hi. destruct Hi as (j & Hn & _).
      apply nth_error_Some. congruence.
    + exists out. exact Hout.
  - destruct Hasc as [Hle Hasc].
    set (w2 := mkWorld (fs w1) (stdin w1) (console w1) t' rest
                       (jobs w1) (executed w1) (fired w1)).
    destruct (IH w2 (clock w) fuel) as
      (wf & F & Hloop & A' & B' & L' & Hfired' & Hexec' & Hfil' & Hval' & out' & Hout');
      try (cbn [w2 future jobs clock]; auto; cbn in Hfuel; lia).
    cbn [w2 fs stdin jobs fired executed console clock] in *.
    exists wf, (map (fun i => (clock w, i)) (pending (clock w) (jobs w)) ++ F).
    split; [exact Hloop|].
    assert (Hst : map static (jobs w1) = map static (jobs w)).
    { rewrite Hjobs, map_map. apply map_ext. intros j. apply static_tick_job. }
    assert (Htask : forall k, task_of (jobs w1) k = task_of (jobs w) k).
    { intros k. apply task_of_static. exact Hst. }
    repeat split.
    + congruence.
    + congruence.
    + congruence.
    + rewrite Hfired', Hfired, app_assoc. reflexivity.
    + rewrite Hexec', Hexec, map_app, map_map, <- app_assoc. cbn [fst snd].
      do 2 f_equal. apply map_ext. intros f. now rewrite Htask.
    + intros i j Hn. rewrite filter_app, map_app.
      rewrite (Hfil' i (tick_job (clock w) j)).
      2:{ rewrite Hjobs, nth_error_map, Hn. reflexivity. }
      rewrite period_tick_job, phase_tick_job.
      rewrite filter_ran_job by apply NoDup_pending.
      rewrite existsb_pending, Hn.
      rewrite Forall_forall in Hw.
      destruct (Hw j (nth_error_In _ _ Hn)) as [_ Hnext].
      cbn [firings]. unfold due. rewrite Hnext.
      destruct (_ <=? _); reflexivity.
    + apply Forall_app. split.
      * apply Forall_map, Forall_forall. intros i Hi. cbn [snd].
        apply in_pending in Hi. destruct Hi as (j & Hn & _).
        apply nth_error_Some. congruence.
      * rewrite Hjobs, length_map in Hval'. exact Hval'.
    + exists (out ++ out'). rewrite Hout', Hout, app_assoc. reflexivity.
Qed.
End Loop.

(** ** Registration: [schedule_tasks] *)

(** The time of day [at] reads from a value, or the exception it
    raises. *)
Definition time_of (v : pyval) : result time_ :=
  match v with
  | VStr s =>
      match Schedule.parse_daily s with
      | None => Raise (Exn ScheduleValueError
          "Invalid time format for a daily job (valid format is HH:MM(:SS)?)")
      | Some (h, m, sec) =>
          if ((0 <=? h) && (h <=? 23))%bool then Ok (Time h m sec)
          else Raise (Exn ScheduleValueError
                        "Invalid number of hours (not between 0 and 23)")
      end
  | _ => Raise (Exn TypeError "at() should be passed a string")
  end.

Lemma at_time_of j v :
  unit_ j = Some Days \/ start_day j <> None ->
  Schedule.at_ j v
  = match time_of v with
    | Ok a => Ok (mkJob (interval j) (unit_ j) (Some a) (start_day j)
                        (last_run j) (next_run j) (job_func j))
    | Raise e => Raise e
    end.
Proof.
  intros H. unfold Schedule.at_, time_of.
  assert (E : forall (X : Type) (a b : X),
             match unit_ j, start_day j with
             | Some Days, _ | _, Some _ => a
             | _, _ => b
             end = a).
  { intros X a b. destruct H as [-> | H]; [reflexivity|].
    destruct (unit_ j) as [[|]|], (start_day j); try reflexivity; contradiction. }
  rewrite E. destruct v; try reflexivity.
  destruct (Schedule.parse_daily s) as [[[h m] sec]|]; [|reflexivity].
  destruct (_ && _)%bool; reflexivity.
Qed.

Lemma time_of_bounds v a : time_of v = Ok a -> 0 <= time_us a <= day_us - usec.
Proof.
  unfold time_of. destruct v; try discriminate.
  destruct (Schedule.parse_daily s) as [[[h m] sec]|] eqn:Hp; [|discriminate].
  destruct (_ && _)%bool eqn:Hh; [|discriminate].
  intros [= <-]. apply parse_daily_bounds in Hp.
  apply andb_true_iff in Hh. destruct Hh as [H1 H2].
  apply Z.leb_le in H1. apply Z.leb_le in H2.
  unfold time_us, day_us, usec. cbn [hour minute second]. lia.
Qed.

(** The job [every().day.at(..).do(run_task, task)] (for [Days]) or
    [every().monday.at(..).do(run_task, task)] (for [Weeks]) appends when
    the clock reads [t]. *)
Definition new_job (u : time_unit) (a : time_) (t : Z) (task : pyval) : Job :=
  mkJob 1 (Some u) (Some a)
        (match u with Days => None | Weeks => Some Monday end)
        None (Some (next_slot (unit_us u) (time_us a) t)) task.

(** The world after a registration step: lines printed, jobs appended. *)
Definition registered (w : World) (out : list string) (js : list Job) : World :=
  mkWorld (fs w) (stdin w) (console w ++ out) (clock w) (future w)
          (jobs w ++ js) (executed w) (fired w).

Section Registration.
Variable P : Platform.

Definition unsupported_line (d : list (string * pyval)) (r : string) : string :=
  ("Récurrence non supportée pour la tâche " ++ str P (field d "id" VNone)
   ++ ": " ++ r)%string.

Definition failed_line (d : list (string * pyval)) (e : exn) : string :=
  ("Erreur dans la programmation de la tâche " ++ str P (field d "id" VNone)
   ++ ": " ++ exn_msg e)%string.

Definition scheduled_line (d : list (string * pyval)) (u : time_unit) : string :=
  ("Tâche '" ++ str P (field d "name" VNone)
   ++ match u with
      | Days => "' programmée tous les jours à "
      | Weeks => "' programmée chaque lundi à "
      end
   ++ str P (field d "schedule" VNone) ++ ".")%string.

(** What one turn of the registration loop prints and appends, for a
    record [d] whose recurrence, lower-cased, is [r]. *)
Definition registration (t : Z) (d : list (string * pyval)) (r : string)
  : string * list Job :=
  let unit_of := if String.eqb r "daily" then Some Days
                 else if String.eqb r "weekly" then Some Weeks
                 else None in
  match unit_of with
  | None => (unsupported_line d r, [])
  | Some u =>
      match time_of (field d "schedule" VNone) with
      | Ok a => (scheduled_line d u, [new_job u a t (VDict d)])
      | Raise e => (failed_line d e, [])
      end
  end.

Lemma time_of_Exception v e : time_of v = Raise e -> is_Exception e = true.
Proof.
  unfold time_of. destruct v; try (intros [= <-]; reflexivity).
  destruct (Schedule.parse_daily s) as [[[h m] sec]|]; [|intros [= <-]; reflexivity].
  destruct (_ && _)%bool; [discriminate|intros [= <-]; reflexivity].
Qed.

Lemma new_job_timed u a t task :
  0 <= time_us a <= day_us - usec -> timed_job (new_job u a t task).
Proof.
  intros Ha. split; [reflexivity|]. split; [exists a; auto|].
  destruct u; [left|right]; split; reflexivity.
Qed.

(** [do] on a job that [at] returned. *)
Lemma do_spec u a task w :
  0 <= time_us a <= day_us - usec ->
  Schedule.do (mkJob 1 (Some u) (Some a)
                     (match u with Days => None | Weeks => Some Monday end)
                     None None VNone) task w
  = (registered w [] [new_job u a (clock w) task],
     Ok (new_job u a (clock w) task)).
Proof.
  intros Ha. unfold Schedule.do.
  cbn [interval unit_ at_time start_day last_run next_run].
  unfold bind at 1. unfold now.
  unfold bind at 1. unfold lift.
  rewrite schedule_next_run_slot.
  2:{ exact (new_job_timed u a 0 task Ha). }
  unfold bind, Schedule.get_jobs, Schedule.set_jobs, ret, registered, new_job,
    set_next_run, period, phase.
  cbn [interval unit_ at_time start_day last_run next_run job_func
       fs stdin console clock future jobs executed fired].
  rewrite app_nil_r. reflexivity.
Qed.

Lemma schedule_task_spec d r w :
  recurrence_of (VDict d) = Ok r ->
  schedule_task P (VDict d) w
  = (registered w [fst (registration (clock w) d r)]
                  (snd (registration (clock w) d r)), Ok tt).
Proof.
  unfold recurrence_of. cbn [py_get]. intros Hr.
  unfold schedule_task. unfold bind at 1. unfold lift at 1. cbn [py_get].
  unfold bind at 1. unfold lift at 1. rewrite Hr.
  unfold bind at 1. unfold lift at 1.
  unfold registration. fold (field d "schedule" VNone).
  destruct (String.eqb r "daily") eqn:Ed; [|destruct (String.eqb r "weekly") eqn:Ew].
  - unfold try_except. unfold bind at 1. unfold lift at 1.
    change (Schedule.day Schedule.every)
      with (Ok (mkJob 1 (Some Days) None None None None VNone)).
    unfold bind at 1. unfold lift at 1.
    rewrite at_time_of by (left; reflexivity).
    destruct (time_of (field d "schedule" VNone)) as [a|e] eqn:Ht.
    + cbn [interval unit_ at_time start_day last_run next_run job_func].
      unfold bind at 1.
      rewrite (do_spec Days a (VDict d) w (time_of_bounds _ _ Ht)).
      unfold bind, lift, print, registered, scheduled_line, field, str.
      cbn [py_get fs stdin console clock future jobs executed fired fst snd].
      rewrite app_nil_r. reflexivity.
    + rewrite (time_of_Exception _ _ Ht).
      unfold bind, lift, print, registered, failed_line, field, str.
      cbn [py_get fs stdin console clock future jobs executed fired fst snd].
      rewrite app_nil_r. reflexivity.
  - unfold try_except. unfold bind at 1. unfold lift at 1.
    change (Schedule.monday Schedule.every)
      with (Ok (mkJob 1 (Some Weeks) None (Some Monday) None None VNone)).
    unfold bind at 1. unfold lift at 1.
    rewrite at_time_of by (right; discriminate).
    destruct (time_of (field d "schedule" VNone)) as [a|e] eqn:Ht.
    + cbn [interval unit_ at_time start_day last_run next_run job_func].
      unfold bind at 1.
      rewrite (do_spec Weeks a (VDict d) w (time_of_bounds _ _ Ht)).
      unfold bind, lift, print, registered, scheduled_line, field, str.
      cbn [py_get fs stdin console clock future jobs executed fired fst snd].
      rewrite app_nil_r. reflexivity.
    + rewrite (time_of_Exception _ _ Ht).
      unfold bind, lift, print, registered, failed_line, field, str.
      cbn [py_get fs stdin console clock future jobs executed fired fst snd].
      rewrite app_nil_r. reflexivity.
  - unfold bind, lift, print, registered, unsupported_line, field, str.
    cbn [py_get fs stdin console clock future jobs executed fired fst snd].
    rewrite app_nil_r. reflexivity.
Qed.
End Registration.

(** ** When a job runs *)

(** Ticks at most [g] apart, the first at most [g] after [t]. *)
Fixpoint paced (g t : Z) (l : list Z) : Prop :=
  match l with
  | [] => True
  | x :: rest => t <= x <= t + g /\ paced g x rest
  end.

Lemma paced_ascending g t l : paced g t l -> ascending t l.
Proof.
  revert t. induction l as [|x rest IH]; intros t; cbn; [trivial|].
  intros [[H _] Hr]. split; auto.
Qed.

Section Firings.
Variables per ph : Z.
Hypothesis per_pos : 0 < per.

(** No tick reaches the next slot: nothing runs. *)
Lemma firings_none ticks : forall tprev,
  ascending tprev ticks ->
  Forall (fun t => t < next_slot per ph tprev) ticks ->
  firings per ph tprev ticks = [].
Proof.
  induction ticks as [|t rest IH]; intros tprev Hasc Hall; [reflexivity|].
  destruct Hasc as [Hle Hasc]. inversion Hall as [|? ? Ht Hrest]; subst.
  cbn [firings]. destruct (Z.leb_spec (next_slot per ph tprev) t); [lia|].
  cbn [app]. apply IH; auto.
  rewrite (next_slot_stable per ph per_pos tprev t) by lia. exact Hrest.
Qed.

(** Ticks at most [g] apart that reach the next slot and stay within a
    period of it: the job runs once, less than [g] after the slot. *)
Lemma firings_once g ticks : forall tprev,
  paced g tprev ticks ->
  Exists (fun t => next_slot per ph tprev <= t) ticks ->
  Forall (fun t => t < next_slot per ph tprev + per) ticks ->
  exists tf, firings per ph tprev ticks = [tf] /\
             next_slot per ph tprev <= tf < next_slot per ph tprev + g.
Proof.
  induction ticks as [|t rest IH]; intros tprev Hp Hex Hall.
  - inversion Hex.
  - destruct Hp as [Hle Hp]. inversion Hall as [|? ? Ht Hrest]; subst.
    pose proof (next_slot_after per ph per_pos tprev) as Hns.
    cbn [firings]. destruct (Z.leb_spec (next_slot per ph tprev) t) as [Hd|Hd].
    + exists t. split; [|lia].
      rewrite firings_none; [reflexivity|apply (paced_ascending g); exact Hp|].
      pose proof (next_slot_skip per ph per_pos tprev t Hd) as Hs.
      eapply Forall_impl; [|exact Hrest]. cbn. intros x Hx. lia.
    + cbn [app].
      assert (E : next_slot per ph t = next_slot per ph tprev)
        by (apply next_slot_stable; [assumption|lia]).
      destruct (IH t Hp) as (tf & Hf & Hb).
      * rewrite E. inversion Hex; subst; [lia|assumption].
      * rewrite E. exact Hrest.
      * exists tf. rewrite E in Hb. auto.
Qed.

End Firings.

(** The readings of a clock sampled once per second: [n] readings after
    [t0], one second apart. *)
Definition window (t0 : Z) (n : nat) : list Z :=
  map (fun k => t0 + Z.of_nat k * usec) (seq 1 n).

Lemma paced_seq t0 n : forall a,
  paced usec (t0 + Z.of_nat a * usec) (map (fun k => t0 + Z.of_nat k * usec) (seq (S a) n)).
Proof.
  induction n as [|n IH]; intros a; cbn [seq map paced]; [trivial|].
  split; [unfold usec; lia|]. apply IH.
Qed.

Lemma paced_window t0 n : paced usec t0 (t0 :: window t0 n).
Proof.
  cbn [paced]. split; [unfold usec; lia|].
  pose proof (paced_seq t0 n 0) as H. cbn [Z.of_nat] in H.
  rewrite Z.mul_0_l, Z.add_0_r in H. exact H.
Qed.

Lemma in_window t0 n t :
  In t (t0 :: window t0 n) <-> exists k, (k <= n)%nat /\ t = t0 + Z.of_nat k * usec.
Proof.
  split.
  - intros [<-|H].
    + exists 0%nat. split; [lia|]. cbn. lia.
    + apply in_map_iff in H. destruct H as (k & <- & Hk). apply in_seq in Hk.
      exists k. split; [lia|reflexivity].
  - intros (k & Hk & ->). destruct k as [|k].
    + left. cbn. lia.
    + right. apply in_map_iff. exists (S k). split; [reflexivity|].
      apply in_seq. lia.
Qed.

(** ** The whole run *)

(** [w'] differs from [w] by console output and, maybe, by its jobs. *)
Definition quiet (w w' : World) : Prop :=
  fs w' = fs w /\ stdin w' = stdin w /\ clock w' = clock w /\
  future w' = future w /\ executed w' = executed w /\ fired w' = fired w /\
  exists out, console w' = console w ++ out.

Lemma quiet_refl w : quiet w w.
Proof. repeat split. exists []. now rewrite app_nil_r. Qed.

Lemma quiet_trans w1 w2 w3 : quiet w1 w2 -> quiet w2 w3 -> quiet w1 w3.
Proof.
  intros (A & B & C & D & E & F & o & G) (A' & B' & C' & D' & E' & F' & o' & G').
  repeat split; try congruence.
  exists (o ++ o'). rewrite G', G, app_assoc. reflexivity.
Qed.

Lemma quiet_registered w out js : quiet w (registered w out js).
Proof. repeat split. exists out. reflexivity. Qed.

Lemma quiet_print s w : quiet w (fst (print s w)) /\ jobs (fst (print s w)) = jobs w.
Proof. split; [|reflexivity]. repeat split. exists [s]. reflexivity. Qed.

Section Startup.
Variable P : Platform.

Lemma load_tasks_missing w :
  fs w = None -> load_tasks P w = (w, Ok (VList [])).
Proof.
  intros Hfs. unfold load_tasks, bind, path_exists. rewrite Hfs. reflexivity.
Qed.

Lemma load_tasks_unparseable w text msg :
  fs w = Some text -> yaml_safe_load P text = inl msg ->
  load_tasks P w
  = (fst (print ("Erreur de parsing YAML: " ++ msg)%string w), Ok (VList [])).
Proof.
  intros Hfs Hy. unfold load_tasks, bind, path_exists, read_file, try_except, safe_load.
  rewrite Hfs. cbn [negb]. cbv beta iota. rewrite Hfs. cbv beta iota.
  rewrite Hy. reflexivity.
Qed.

Lemma load_tasks_parsed w text data :
  fs w = Some text -> yaml_safe_load P text = inr data ->
  load_tasks P w
  = (w, match data with
        | VNone => Ok (VList [])
        | _ => py_get data "tasks" (VList [])
        end).
Proof.
  intros Hfs Hy. unfold load_tasks, bind, path_exists, read_file, try_except, safe_load.
  rewrite Hfs. cbn [negb]. cbv beta iota. rewrite Hfs. cbv beta iota.
  rewrite Hy. unfold ret at 1.
  destruct data; reflexivity.
Qed.

Lemma load_tasks_quiet w w' r :
  load_tasks P w = (w', r) -> quiet w w' /\ jobs w' = jobs w.
Proof.
  destruct (fs w) as [text|] eqn:Hfs.
  - destruct (yaml_safe_load P text) as [msg|data] eqn:Hy.
    + rewrite (load_tasks_unparseable w text msg Hfs Hy).
      intros [= <- <-]. apply quiet_print.
    + rewrite (load_tasks_parsed w text data Hfs Hy).
      intros [= <- <-]. split; auto using quiet_refl.
  - rewrite (load_tasks_missing w Hfs).
    intros [= <- <-]. split; auto using quiet_refl.
Qed.

Lemma registration_tracked t d r :
  recurrence_of (VDict d) = Ok r ->
  Forall (tracked t) (snd (registration P t d r)).
Proof.
  intros Hr. unfold registration.
  destruct (String.eqb r "daily") eqn:Ed; [|destruct (String.eqb r "weekly") eqn:Ew];
    [| |constructor];
    (destruct (time_of (field d "schedule" VNone)) as [a|e] eqn:Ht; [|constructor]);
    cbn [snd]; constructor; [|constructor| |constructor];
    (split; [|reflexivity]); (split; [|split]);
    try (apply new_job_timed; eapply time_of_bounds; eassumption);
    try (exists d; reflexivity);
    cbn [new_job job_func unit_]; unfold kind_of; rewrite Hr, Ed; try rewrite Ew; reflexivity.
Qed.

Lemma schedule_task_inv task w w' r :
  schedule_task P task w = (w', r) ->
  Forall (tracked (clock w)) (jobs w) ->
  quiet w w' /\ Forall (tracked (clock w)) (jobs w').
Proof.
  intros H Hw.
  destruct task as [| | | | |d];
    try (unfold schedule_task, bind, lift in H; cbn [py_get] in H;
         injection H as <- <-; split; auto using quiet_refl).
  destruct (recurrence_of (VDict d)) as [rc|e] eqn:Hr.
  - rewrite (schedule_task_spec P d rc w Hr) in H. injection H as <- _.
    split; [apply quiet_registered|].
    cbn [registered jobs]. apply Forall_app. split; [exact Hw|].
    apply registration_tracked. exact Hr.
  - unfold recurrence_of in Hr. cbn [py_get] in Hr.
    unfold schedule_task in H. unfold bind at 1 in H. unfold lift at 1 in H.
    cbn [py_get] in H. unfold bind at 1 in H. unfold lift at 1 in H.
    rewrite Hr in H. injection H as <- <-. split; auto using quiet_refl.
Qed.

Lemma for_each_schedule_task_inv tasks : forall w w' r,
  for_each tasks (schedule_task P) w = (w', r) ->
  Forall (tracked (clock w)) (jobs w) ->
  quiet w w' /\ Forall (tracked (clock w)) (jobs w').
Proof.
  induction tasks as [|task rest IH]; intros w w' r H Hw.
  - injection H as <- <-. split; auto using quiet_refl.
  - cbn [for_each] in H. unfold bind in H.
    destruct (schedule_task P task w) as [w1 [[]|e]] eqn:H1.
    + destruct (schedule_task_inv _ _ _ _ H1 Hw) as [Q1 T1].
      assert (Hc : clock w1 = clock w) by apply Q1.
      rewrite <- Hc in T1.
      destruct (IH _ _ _ H T1) as [Q2 T2]. rewrite Hc in T2.
      split; [eapply quiet_trans; eauto|exact T2].
    + injection H as <- <-. eapply schedule_task_inv; eauto.
Qed.

Lemma schedule_tasks_inv w w' r :
  schedule_tasks P w = (w', r) ->
  Forall (tracked (clock w)) (jobs w) ->
  quiet w w' /\ Forall (tracked (clock w)) (jobs w').
Proof.
  unfold schedule_tasks. unfold bind at 1.
  destruct (load_tasks P w) as [w1 [tasks|e]] eqn:Hl; intros H Hw;
    destruct (load_tasks_quiet _ _ _ Hl) as [Q1 J1].
  - unfold bind at 1 in H. unfold lift in H.
    assert (Hc : clock w1 = clock w) by apply Q1.
    destruct (py_iter tasks) as [items|e].
    + rewrite <- J1, <- Hc in Hw.
      destruct (for_each_schedule_task_inv _ _ _ _ H Hw) as [Q2 T2].
      rewrite Hc in T2. split; [eapply quiet_trans; eauto|exact T2].
    + injection H as <- <-. rewrite J1. auto.
  - injection H as <- <-. rewrite J1. auto.
Qed.
End Startup.

Lemma static_fields j j' :
  static j = static j' ->
  interval j = interval j' /\ unit_ j = unit_ j' /\ at_time j = at_time j' /\
  start_day j = start_day j' /\ job_func j = job_func j'.
Proof. unfold static. intros [= A B C D E]. auto. Qed.

Lemma script_job_static j j' : static j = static j' -> script_job j -> script_job j'.
Proof.
  intros H. apply static_fields in H. destruct H as (A & B & C & D & E).
  unfold script_job, timed_job. rewrite A, B, C, D, E. auto.
Qed.

Lemma period_phase_static j j' :
  static j = static j' -> period j = period j' /\ phase j = phase j'.
Proof.
  intros H. apply static_fields in H. destruct H as (A & B & C & D & E).
  unfold period, phase. rewrite B, C. auto.
Qed.

Section WholeRun.
Variable P : Platform.

(** A run of [run_scheduler_loop] that registered its tasks: it ends
    normally when the user interrupts it, the store is as it was, and
    every registered job ran exactly at its [firings]. *)
Lemma run_scheduler_loop_spec w wf :
  Forall (tracked (clock w)) (jobs w) ->
  ascending (clock w) (future w) ->
  run_scheduler_loop P w = (wf, Ok tt) ->
  exists F,
    fs wf = fs w /\ stdin wf = stdin w /\
    Forall script_job (jobs wf) /\
    fired wf = fired w ++ F /\
    executed wf = executed w ++ map (fun f => (fst f, task_of (jobs wf) (snd f))) F /\
    (forall i j, nth_error (jobs wf) i = Some j ->
       map fst (filter (ran_job i) F)
       = firings (period j) (phase j) (clock w) (clock w :: future w)) /\
    Forall (fun f => (snd f < List.length (jobs wf))%nat) F.
Proof.
  intros Hw Hasc. unfold run_scheduler_loop.
  unfold bind at 1.
  destruct (quiet_print
    "Démarrage de l'exécution de l'agenda. Appuyez sur Ctrl+C pour arrêter." w)
    as [Q0 J0].
  destruct (print _ w) as [w0 [[]|e0]] eqn:Hp; [|discriminate].
  cbn [fst] in Q0, J0.
  unfold bind at 1.
  destruct (schedule_tasks P w0) as [w2 [[]|e]] eqn:Hs; [|discriminate].
  assert (Hc0 : clock w0 = clock w) by apply Q0.
  destruct (schedule_tasks_inv P w0 w2 _ Hs) as [Q2 T2].
  { rewrite J0, Hc0. exact Hw. }
  rewrite Hc0 in T2.
  pose proof (quiet_trans _ _ _ Q0 Q2) as (A & B & C & D & E & G & _).
  destruct (scheduler_loop_spec P (future w2) w2 (clock w) (S (List.length (future w2))))
    as (wf' & F & Hloop & A' & B' & S' & Hfired & Hexec & Hfil & Hval & _); auto.
  { lia. }
  { rewrite C, D. exact Hasc. }
  unfold try_except. rewrite Hloop. unfold interrupted.
  cbn [is_KeyboardInterrupt exn_cls]. unfold print.
  intros [= <-]. cbn [fs stdin jobs fired executed].
  exists F. repeat split; try congruence.
  - apply Forall_forall. intros j' Hin.
    apply In_nth_error in Hin. destruct Hin as [k Hk].
    destruct (static_nth_error _ _ _ _ S' Hk) as (j & Hj & Hst).
    apply (script_job_static j j' Hst).
    rewrite Forall_forall in T2. apply T2. eapply nth_error_In; eauto.
  - rewrite Hexec, E. f_equal. apply map_ext. intros f.
    f_equal. symmetry. apply task_of_static. exact S'.
  - intros i j' Hn.
    destruct (static_nth_error _ _ _ _ S' Hn) as (j & Hj & Hst).
    destruct (period_phase_static _ _ Hst) as [<- <-].
    rewrite (Hfil i j Hj), C, D. reflexivity.
  - assert (L : List.length (jobs wf') = List.length (jobs w2)).
    { rewrite <- (length_map static (jobs wf')), S'. apply length_map. }
    rewrite L. exact Hval.
Qed.

(** The loop always ends once the tasks are registered: the interrupt is
    reached and caught. *)
Lemma run_scheduler_loop_returns w :
  Forall (tracked (clock w)) (jobs w) ->
  ascending (clock w) (future w) ->
  snd (schedule_tasks P (fst (print
    "Démarrage de l'exécution de l'agenda. Appuyez sur Ctrl+C pour arrêter." w)))
  = Ok tt ->
  snd (run_scheduler_loop P w) = Ok tt.
Proof.
  intros Hw Hasc. unfold run_scheduler_loop.
  unfold bind at 1.
  destruct (quiet_print
    "Démarrage de l'exécution de l'agenda. Appuyez sur Ctrl+C pour arrêter." w)
    as [Q0 J0].
  destruct (print _ w) as [w0 [[]|e0]] eqn:Hp; [|discriminate].
  cbn [fst] in *.
  unfold bind at 1.
  destruct (schedule_tasks P w0) as [w2 [[]|e]] eqn:Hs; [|discriminate].
  intros _.
  assert (Hc0 : clock w0 = clock w) by apply Q0.
  destruct (schedule_tasks_inv P w0 w2 _ Hs) as [Q2 T2].
  { rewrite J0, Hc0. exact Hw. }
  rewrite Hc0 in T2.
  pose proof (quiet_trans _ _ _ Q0 Q2) as (A & B & C & D & E & G & _).
  destruct (scheduler_loop_spec P (future w2) w2 (clock w) (S (List.length (future w2))))
    as (wf' & F & Hloop & _); auto.
  { lia. }
  { rewrite C, D. exact Hasc. }
  unfold try_except. rewrite Hloop. reflexivity.
Qed.
End WholeRun.

(** ** Sample data

    A platform and a store to run the model on: the YAML reader returns
    [doc] for every text but an open brace, [/bin/true] exits with 0,
    [/bin/false] with 1, and nothing else can be launched. *)
Definition sample_str (v : pyval) : string :=
  match v with
  | VStr s => s
  | VNone => "None"
  | VInt n => if n =? 0 then "0" else if n =? 1 then "1" else "n"
  | VList _ => "[...]"
  | _ => "?"
  end.

Definition sample_spawn (argv : list pyval) : spawn_outcome :=
  match argv with
  | VStr cmd :: _ =>
      if String.eqb cmd "/bin/true" then Exited 0
      else if String.eqb cmd "/bin/false" then Exited 1
      else Fault "[Errno 2] No such file or directory"
  | _ => Fault "expected str, bytes or os.PathLike object"
  end.

(** The ids of the tasks of a document, for a dump one can read. *)
Definition sample_dump (v : pyval) : string :=
  match py_get v "tasks" (VList []) with
  | Ok (VList l) =>
      PyStr.join ","
        (map (fun task => match py_get task "id" VNone with
                          | Ok x => sample_str x
                          | Raise _ => "?"
                          end) l)
  | _ => EmptyString
  end.

Definition sample_platform (doc : pyval) : Platform :=
  mkPlatform
    (fun text => if String.eqb text "{"
                 then inl "while parsing a flow node: expected the node content"
                 else inr doc)
    sample_dump
    sample_str
    sample_spawn
    (fun _ => "<Signals.SIGKILL: 9>").

Definition sample_task (id cmd sched rec : string) : pyval :=
  VDict [("id", VStr id); ("name", VStr id); ("command", VStr cmd);
         ("args", VList []); ("schedule", VStr sched); ("recurrence", VStr rec)].

Definition backup : pyval := sample_task "backup" "/bin/true" "02:00" "daily".
Definition report : pyval := sample_task "report" "/bin/false" "02:00" "weekly".
Definition cleanup : pyval := sample_task "cleanup" "/usr/bin/nope" "02:00" "Daily".
Definition audit : pyval := sample_task "audit" "/bin/true" "02:00" "monthly".
Definition broken : pyval := sample_task "broken" "/bin/true" "25:00" "daily".

Definition sample_doc (tasks : list pyval) : pyval := VDict [("tasks", VList tasks)].

(** Some text that the sample reader accepts. *)
Definition sample_store : option string := Some "tasks: ...".

(** Day 735000 of the calendar is a Monday. *)
Definition monday_0 : Z := 735000 * day_us.
Definition at_hms (day0 h m s : Z) : Z := day0 + (h * 3600 + m * 60 + s) * usec.

(** *** The model on small inputs *)

Example strip_id : PyStr.strip "  backup " = "backup"%string.
Proof. reflexivity. Qed.

Example split_args : PyStr.split " -a  --level 3 " = ["-a"; "--level"; "3"]%string.
Proof. reflexivity. Qed.

Example lower_recurrence : PyStr.lower "Weekly" = "weekly"%string.
Proof. reflexivity. Qed.

Example time_of_plain : time_of (VStr "09:30") = Ok (Time 9 30 0).
Proof. reflexivity. Qed.

Example time_of_seconds : time_of (VStr "23:59:59") = Ok (Time 23 59 59).
Proof. reflexivity. Qed.

Example time_of_one_digit_hour : exn_cls_of (time_of (VStr "9:30")) = Some ScheduleValueError.
Proof. reflexivity. Qed.

Example time_of_hour_25 : exn_cls_of (time_of (VStr "25:00")) = Some ScheduleValueError.
Proof. reflexivity. Qed.

Example time_of_none : exn_cls_of (time_of VNone) = Some TypeError.
Proof. reflexivity. Qed.

(** Registered five seconds before its time, a daily job is due today;
    registered at its time, tomorrow. *)
Example first_run_today :
  Schedule._schedule_next_run
    (mkJob 1 (Some Days) (Some (Time 2 0 0)) None None None backup)
    (at_hms monday_0 1 59 55)
  = Ok (mkJob 1 (Some Days) (Some (Time 2 0 0)) None None
              (Some (at_hms monday_0 2 0 0)) backup).
Proof. reflexivity. Qed.

Example first_run_tomorrow :
  Schedule._schedule_next_run
    (mkJob 1 (Some Days) (Some (Time 2 0 0)) None None None backup)
    (at_hms monday_0 2 0 0)
  = Ok (mkJob 1 (Some Days) (Some (Time 2 0 0)) None None
              (Some (at_hms (monday_0 + day_us) 2 0 0)) backup).
Proof. reflexivity. Qed.

(** Registered on a Wednesday, a Monday job is due on the next Monday. *)
Example first_run_next_monday :
  Schedule._schedule_next_run
    (mkJob 1 (Some Weeks) (Some (Time 2 0 0)) (Some Monday) None None report)
    (at_hms (monday_0 + 2 * day_us) 14 0 0)
  = Ok (mkJob 1 (Some Weeks) (Some (Time 2 0 0)) (Some Monday) None
              (Some (at_hms (monday_0 + 7 * day_us) 2 0 0)) report).
Proof. reflexivity. Qed.

Example list_two_tasks :
  console (fst (main (sample_platform (sample_doc [backup; audit]))
                     (mkArgs CmdList None) (boot sample_store [] 0 [])))
  = ["Tâches programmées :";
     "ID: backup"; "  Nom       : backup"; "  Commande  : /bin/true ";
     "  Horaire   : 02:00 (récurrence: daily)"; "";
     "ID: audit"; "  Nom       : audit"; "  Commande  : /bin/true ";
     "  Horaire   : 02:00 (récurrence: monthly)"; ""]%string.
Proof. reflexivity. Qed.

Example add_a_task :
  main (sample_platform (sample_doc [backup])) (mkArgs CmdAdd None)
       (boot sample_store
             ["  new "; "New task"; "/bin/true"; " -a  -b "; "09:30"; "WEEKLY"]%string
             0 [])
  = (mkWorld (Some "backup,new"%string) []
       ["Entrez l'ID unique de la tâche : ";
        "Nom de la tâche : ";
        "Chemin complet du programme/script : ";
        "Arguments (séparés par des espaces, optionnel) : ";
        "Heure d'exécution (format HH:MM, ex: 09:00) : ";
        "Récurrence (daily/weekly, par défaut daily) : ";
        "Tâche ajoutée avec succès."]%string
       0 [] [] [] [],
     Ok tt).
Proof. reflexivity. Qed.

(** ** The properties of the specification *)

Lemma filter_ran_job_single i F tf :
  map fst (filter (ran_job i) F) = [tf] -> filter (ran_job i) F = [(tf, i)].
Proof.
  intros H.
  destruct (filter (ran_job i) F) as [|[t k] [|? ?]] eqn:E; try discriminate.
  injection H as ->.
  assert (Hin : In (tf, k) (filter (ran_job i) F)) by (rewrite E; left; reflexivity).
  apply filter_In in Hin. destruct Hin as [_ Hk].
  unfold ran_job in Hk. cbn [snd] in Hk. apply Nat.eqb_eq in Hk. now subst.
Qed.

(** C1.  A run of the loop that polls once per second for 70 seconds from
    its start, with the instant [s] of a registered daily job inside the
    window: [Job.run] is called for that job exactly once, less than a
    second after [s], and every call of [Job.run] is one call of
    [run_task] on the job's task. *)
Theorem daily_job_fires_once_in_window
    (P : Platform) (file : option string) (keyboard : list string)
    (t0 s : Z) (wf : World) (i : nat) (j : Job) (a : time_) :
  run_scheduler_loop P (boot file keyboard t0 (window t0 69)) = (wf, Ok tt) ->
  nth_error (jobs wf) i = Some j ->
  unit_ j = Some Days -> at_time j = Some a ->
  time_of_day s = time_us a ->
  t0 < s <= t0 + 69 * usec ->
  exists tf,
    filter (ran_job i) (fired wf) = [(tf, i)] /\
    s <= tf < s + usec /\
    executed wf = map (fun f => (fst f, task_of (jobs wf) (snd f))) (fired wf).
Proof.
  intros Hrun Hn Hu Ha Hs Hwin.
  destruct (run_scheduler_loop_spec P (boot file keyboard t0 (window t0 69)) wf)
    as (F & _ & _ & Hjobs & Hfired & Hexec & Hfil & _);
    [constructor
    |apply (paced_ascending usec), (proj2 (paced_window t0 69))
    |exact Hrun|].
  cbn [boot fired executed clock future app] in *.
  rewrite Forall_forall in Hjobs.
  destruct (Hjobs j (nth_error_In _ _ Hn)) as ((_ & (a' & Ha' & Hb) & _) & _).
  rewrite Ha in Ha'. injection Ha' as <-.
  specialize (Hfil i j Hn).
  assert (Hper : period j = day_us) by (unfold period; now rewrite Hu).
  assert (Hph : phase j = time_us a) by (unfold phase; now rewrite Ha).
  rewrite Hper, Hph in Hfil.
  pose proof day_us_pos as Hd.
  assert (Hslot : next_slot day_us (time_us a) t0 = s).
  { symmetry. apply next_slot_unique; auto.
    - unfold day_us, usec in *. lia.
    - unfold time_of_day in Hs. rewrite Hs.
      symmetry. apply Z.mod_small. unfold usec in Hb. lia. }
  destruct (firings_once day_us (time_us a) Hd usec (t0 :: window t0 69) t0)
    as (tf & Hf & Hb').
  - apply paced_window.
  - rewrite Hslot. apply Exists_exists. exists (t0 + Z.of_nat 69 * usec).
    split; [|lia]. apply in_window. exists 69%nat. split; [lia|reflexivity].
  - rewrite Hslot. apply Forall_forall. intros t Ht.
    apply in_window in Ht. destruct Ht as (k & Hk & ->).
    unfold day_us, usec in *. lia.
  - rewrite Hslot in Hb'. exists tf.
    rewrite Hfired. rewrite Hf in Hfil.
    split; [apply filter_ran_job_single; exact Hfil|].
    split; [exact Hb'|]. exact Hexec.
Qed.

(** Started on a Monday at 01:59:55 with the jobs [backup] (daily at
    02:00) and [report] (every Monday at 02:00), and interrupted after 70
    polls. *)
Definition sample_run : World * result unit :=
  run_scheduler_loop (sample_platform (sample_doc [backup; report]))
    (boot sample_store [] (at_hms monday_0 1 59 55)
          (window (at_hms monday_0 1 59 55) 69)).

Lemma daily_job_fires_once_witness :
  exists tf,
    filter (ran_job 0) (fired (fst sample_run)) = [(tf, 0%nat)] /\
    at_hms monday_0 2 0 0 <= tf < at_hms monday_0 2 0 0 + usec /\
    executed (fst sample_run)
    = map (fun f => (fst f, task_of (jobs (fst sample_run)) (snd f)))
          (fired (fst sample_run)).
Proof.
  eapply (daily_job_fires_once_in_window
            (sample_platform (sample_doc [backup; report]))
            sample_store [] (at_hms monday_0 1 59 55) (at_hms monday_0 2 0 0)
            (fst sample_run) 0).
  - vm_compute. reflexivity.
  - vm_compute. reflexivity.
  - reflexivity.
  - reflexivity.
  - vm_compute. reflexivity.
  - vm_compute. split; [reflexivity|discriminate].
Defined.






(** A record as [schedule_tasks] expects it: a mapping whose recurrence,
    when it has one, is a string. *)
Definition record (task : pyval) : Prop :=
  exists d r, task = VDict d /\ recurrence_of task = Ok r.

Section Batch.
Variable P : Platform.

Definition registration_of (t : Z) (task : pyval) : string * list Job :=
  match task with
  | VDict d =>
      match recurrence_of task with
      | Ok r => registration P t d r
      | Raise _ => (EmptyString, [])
      end
  | _ => (EmptyString, [])
  end.

Lemma registered_registered w o1 j1 o2 j2 :
  registered (registered w o1 j1) o2 j2 = registered w (o1 ++ o2) (j1 ++ j2).
Proof. unfold registered. cbn. now rewrite !app_assoc. Qed.

Lemma registered_nil w : registered w [] [] = w.
Proof. destruct w. unfold registered. cbn. now rewrite !app_nil_r. Qed.

(** The registration loop on a batch of records: one line per record,
    one job per record that can be scheduled, in order. *)
Lemma for_each_schedule_task_spec tasks : forall w,
  Forall record tasks ->
  for_each tasks (schedule_task P) w
  = (registered w (map (fun x => fst (registration_of (clock w) x)) tasks)
                  (flat_map (fun x => snd (registration_of (clock w) x)) tasks),
     Ok tt).
Proof.
  induction tasks as [|task rest IH]; intros w Hr.
  - cbn. now rewrite registered_nil.
  - inversion Hr as [|? ? (d & r & -> & Hrec) Hrest]; subst.
    cbn [for_each]. unfold bind.
    rewrite (schedule_task_spec P d r w Hrec).
    rewrite (IH _ Hrest), registered_registered.
    cbn [map flat_map registered clock]. unfold registration_of at 3 5.
    rewrite Hrec. reflexivity.
Qed.

Lemma schedule_tasks_spec w w1 tasks :
  load_tasks P w = (w1, Ok (VList tasks)) ->
  Forall record tasks ->
  schedule_tasks P w
  = (registered w1 (map (fun x => fst (registration_of (clock w) x)) tasks)
                   (flat_map (fun x => snd (registration_of (clock w) x)) tasks),
     Ok tt).
Proof.
  intros Hl Hr. unfold schedule_tasks. unfold bind at 1. rewrite Hl.
  unfold bind at 1. unfold lift. cbn [py_iter].
  rewrite (for_each_schedule_task_spec tasks w1 Hr).
  destruct (load_tasks_quiet P _ _ _ Hl) as [(_ & _ & -> & _) _]. reflexivity.
Qed.

End Batch.






(** C4 (amended).  [run_task] returns nothing, whatever the outcome.  For
    a record whose command cannot be launched or exits with a status
    other than 0, it returns normally, having printed its heading and one
    more line, which is not empty and is not the line of success.  And a
    pass of the scheduler, whatever the outcomes of the launches, returns
    normally having run every job that was due. *)
Theorem failed_launch_is_printed_not_raised
    (P : Platform) (d : list (string * pyval)) (argv : list pyval) (w : World) :
  py_cons (field d "command" VNone) (field d "args" (VList [])) = Ok argv ->
  (exists msg, spawn P argv = Fault msg) \/
  (exists status, status <> 0 /\ spawn P argv = Exited status) ->
  (exists heading line,
      run_task P (VDict d) w
      = (with_output w [heading; line] [(clock w, VDict d)], Ok tt) /\
      line <> EmptyString /\ line <> "Tâche exécutée avec succès."%string) /\
  (forall w' tprev,
      Forall (tracked tprev) (jobs w') -> tprev <= clock w' ->
      exists w1,
        run_pending P w' = (w1, Ok tt) /\
        forall i j, nth_error (jobs w') i = Some j -> due (clock w') j = true ->
                    In (clock w', i) (fired w1) /\
                    In (clock w', job_func j) (executed w1)).
Proof.
  intros Hc Hfail. split.
  - rewrite run_task_dict. unfold run_task_output, outcome_line. rewrite Hc.
    do 2 eexists. split; [reflexivity|].
    destruct Hfail as [(msg & ->)|(status & Hs & ->)].
    + split; discriminate.
    + apply Z.eqb_neq in Hs. rewrite Hs. split; discriminate.
  - intros w' tprev Hw Ht.
    destruct (pass_spec P w' tprev Hw Ht)
      as (w1 & Hrun & _ & _ & _ & _ & _ & _ & Hfired & Hexec & _).
    exists w1. split; [exact Hrun|].
    intros i j Hn Hd.
    assert (Hin : In i (pending (clock w') (jobs w'))) by (apply in_pending; eauto).
    split.
    + rewrite Hfired. apply in_or_app. right.
      apply in_map_iff. exists i. auto.
    + rewrite Hexec. apply in_or_app. right.
      apply in_map_iff. exists i. split; [|exact Hin].
      unfold task_of. now rewrite Hn.
Qed.

(** C4, as stated, fails: what [run_task] returns for a command that
    cannot be launched is what it returns for one that succeeds; the
    outcome only shows on the console. *)
Lemma run_task_returns_nothing :
  sample_spawn [VStr "/usr/bin/nope"] = Fault "[Errno 2] No such file or directory" /\
  sample_spawn [VStr "/bin/true"] = Exited 0 /\
  snd (run_task (sample_platform VNone) cleanup (boot None [] 0 []))
  = snd (run_task (sample_platform VNone) backup (boot None [] 0 [])) /\
  console (fst (run_task (sample_platform VNone) cleanup (boot None [] 0 [])))
  = ["Exécution de la tâche : cleanup (ID: cleanup)";
     "Exception : [Errno 2] No such file or directory"]%string /\
  console (fst (run_task (sample_platform VNone) backup (boot None [] 0 [])))
  = ["Exécution de la tâche : backup (ID: backup)";
     "Tâche exécutée avec succès."]%string.
Proof. vm_compute. repeat split; reflexivity. Qed.

Lemma failed_launch_witness :
  (exists heading line,
      run_task (sample_platform VNone) report (boot None [] 0 [])
      = (with_output (boot None [] 0 []) [heading; line] [(0, report)], Ok tt) /\
      line <> EmptyString /\ line <> "Tâche exécutée avec succès."%string) /\
  (forall w' tprev,
      Forall (tracked tprev) (jobs w') -> tprev <= clock w' ->
      exists w1,
        run_pending (sample_platform VNone) w' = (w1, Ok tt) /\
        forall i j, nth_error (jobs w') i = Some j -> due (clock w') j = true ->
                    In (clock w', i) (fired w1) /\
                    In (clock w', job_func j) (executed w1)).
Proof.
  apply (failed_launch_is_printed_not_raised (sample_platform VNone)
           [("id", VStr "report"); ("name", VStr "report");
            ("command", VStr "/bin/false"); ("args", VList []);
            ("schedule", VStr "02:00"); ("recurrence", VStr "weekly")]
           [VStr "/bin/false"] (boot None [] 0 [])).
  - reflexivity.
  - right. exists 1. split; [discriminate|reflexivity].
Defined.

(** ** The store: add, remove, test, load *)

Definition is_mapping (task : pyval) : Prop := exists d, task = VDict d.

(** [task.get("id") == id] *)
Definition has_id (id : string) (task : pyval) : bool :=
  match py_get task "id" VNone with
  | Ok v => eq_str v id
  | Raise _ => false
  end.

Lemma any_id_eq_spec id tasks :
  Forall is_mapping tasks ->
  any_id_eq id tasks = Ok (existsb (has_id id) tasks).
Proof.
  induction 1 as [|task rest [d ->] _ IH]; [reflexivity|].
  cbn [any_id_eq existsb]. unfold has_id. cbn [py_get].
  destruct (eq_str _ id); [reflexivity|exact IH].
Qed.

Lemma without_id_spec id tasks :
  Forall is_mapping tasks ->
  without_id id tasks = Ok (filter (fun task => negb (has_id id task)) tasks).
Proof.
  induction 1 as [|task rest [d ->] _ IH]; [reflexivity|].
  cbn [without_id filter]. rewrite IH. unfold has_id. cbn [py_get]. reflexivity.
Qed.

Lemma filter_all (A : Type) (f : A -> bool) l :
  (forall x, In x l -> f x = true) -> filter f l = l.
Proof.
  induction l as [|x l IH]; intros H; [reflexivity|].
  cbn [filter]. rewrite (H x (or_introl eq_refl)). f_equal.
  apply IH. intros y Hy. apply H. now right.
Qed.

Lemma filter_shorter (A : Type) (f : A -> bool) l :
  (exists x, In x l /\ f x = false) ->
  (List.length (filter f l) < List.length l)%nat.
Proof.
  induction l as [|x l IH]; intros (y & Hy & Hf); [contradiction|].
  cbn [filter List.length]. pose proof (filter_length_le f l) as Hle.
  destruct Hy as [->|Hy].
  - rewrite Hf. lia.
  - assert (Hl : (List.length (filter f l) < List.length l)%nat) by (apply IH; eauto).
    destruct (f x); cbn [List.length]; lia.
Qed.

Definition written (w : World) (text : string) (out : list string) : World :=
  mkWorld (Some text) (stdin w) (console w ++ out) (clock w) (future w)
          (jobs w) (executed w) (fired w).

Section Store.
Variable P : Platform.


(** C6.  When no record of the stored list has the id, [remove_task]
    prints that no task was found and returns; nothing is written. *)
Theorem remove_unknown_id_changes_nothing
    (w w1 : World) (tasks : list pyval) (id : string) :
  load_tasks P w = (w1, Ok (VList tasks)) ->
  Forall is_mapping tasks ->
  (forall task, In task tasks -> has_id id task = false) ->
  exists w',
    remove_task P id w = (w', Ok tt) /\
    fs w' = fs w /\
    console w' = console w1 ++ ["Aucune tâche avec cet ID n'a été trouvée."%string] /\
    jobs w' = jobs w /\ executed w' = executed w.
Proof.
  intros Hl Hm Hno.
  destruct (load_tasks_quiet P _ _ _ Hl) as [(A & B & C & D & E & F & _) J].
  unfold remove_task. unfold bind at 1. rewrite Hl.
  unfold bind at 1. unfold lift at 1. cbn [py_iter].
  unfold bind at 1. unfold lift at 1. rewrite (without_id_spec _ _ Hm).
  unfold bind at 1. unfold lift at 1. cbn [py_len].
  rewrite filter_all.
  2:{ intros x Hx. rewrite (Hno x Hx). reflexivity. }
  rewrite Nat.eqb_refl. unfold print.
  eexists. split; [reflexivity|].
  cbn [fs console jobs executed]. repeat split; auto.
Qed.

(** C9.  When some record of the stored list has the id, [remove_task]
    writes back the list without every record that has it, the others in
    their order, and prints that the task was removed. *)
Theorem remove_deletes_every_match
    (w w1 : World) (tasks : list pyval) (id : string) :
  load_tasks P w = (w1, Ok (VList tasks)) ->
  Forall is_mapping tasks ->
  (exists task, In task tasks /\ has_id id task = true) ->
  remove_task P id w
  = (written w1
       (yaml_dump P (VDict [("tasks"%string,
          VList (filter (fun task => negb (has_id id task)) tasks))]))
       ["Tâche supprimée avec succès."%string],
     Ok tt).
Proof.
  intros Hl Hm (task & Ht & Hid).
  unfold remove_task. unfold bind at 1. rewrite Hl.
  unfold bind at 1. unfold lift at 1. cbn [py_iter].
  unfold bind at 1. unfold lift at 1. rewrite (without_id_spec _ _ Hm).
  unfold bind at 1. unfold lift at 1. cbn [py_len].
  assert (Hlt : (List.length (filter (fun task => negb (has_id id task)) tasks)
                 < List.length tasks)%nat).
  { apply filter_shorter. exists task. split; [exact Ht|]. now rewrite Hid. }
  destruct (Nat.eqb_spec (List.length (filter (fun task => negb (has_id id task)) tasks))
                         (List.length tasks)) as [Heq|_]; [lia|].
  reflexivity.
Qed.

(** C10.  [test_task] calls [run_task] on the first record of the stored
    list that has the id, and on no other; nothing about its recurrence
    or its schedule is looked at, and nothing is scheduled. *)
Theorem test_runs_first_match_only
    (w w1 : World) (pre post : list pyval) (d : list (string * pyval)) (id : string) :
  load_tasks P w = (w1, Ok (VList (pre ++ VDict d :: post))) ->
  Forall is_mapping pre ->
  (forall task, In task pre -> has_id id task = false) ->
  has_id id (VDict d) = true ->
  test_task P id w
  = (with_output w1
       (("Test de la tâche '" ++ str P (field d "name" VNone)
         ++ "' (ID: " ++ id ++ ")")%string :: run_task_output P d)
       [(clock w, VDict d)],
     Ok tt).
Proof.
  intros Hl Hm Hno Hid.
  destruct (load_tasks_quiet P _ _ _ Hl) as [(_ & _ & C & _) _].
  unfold test_task. unfold bind at 1. rewrite Hl.
  unfold bind at 1. unfold lift at 1. cbn [py_iter].
  rewrite <- C. clear Hl C. revert Hno.
  induction Hm as [|task rest [d' ->] _ IH]; intros Hno.
  - cbn [app test_task_loop]. unfold bind at 1. unfold lift at 1. cbn [py_get].
    unfold has_id in Hid. cbn [py_get] in Hid. rewrite Hid.
    unfold bind at 1. unfold lift at 1. cbn [py_get].
    unfold bind at 1. unfold print at 1.
    rewrite run_task_dict. unfold with_output, field.
    cbn [fs stdin console clock future jobs executed fired].
    rewrite <- app_assoc. reflexivity.
  - cbn [app test_task_loop]. unfold bind at 1. unfold lift at 1. cbn [py_get].
    pose proof (Hno (VDict d') (or_introl eq_refl)) as Hd'.
    unfold has_id in Hd'. cbn [py_get] in Hd'. rewrite Hd'.
    apply IH. intros x Hx. apply Hno. now right.
Qed.
End Store.



(** C8.  [remove] and [test] without [--id]: [main] prints its request
    and leaves by [sys.exit(1)]; the exit status is 1 and the world is
    otherwise as it was: no file written, no task run. *)
Theorem missing_id_exits_with_status_1 (P : Platform) (w : World) :
  main P (mkArgs CmdRemove None) w
  = (fst (print "Veuillez spécifier --id pour supprimer une tâche." w),
     Raise (Exn (SystemExit 1) EmptyString)) /\
  main P (mkArgs CmdTest None) w
  = (fst (print "Veuillez spécifier --id pour tester une tâche." w),
     Raise (Exn (SystemExit 1) EmptyString)) /\
  exit_status (snd (main P (mkArgs CmdRemove None) w)) = 1 /\
  exit_status (snd (main P (mkArgs CmdTest None) w)) = 1 /\
  fs (fst (main P (mkArgs CmdRemove None) w)) = fs w /\
  fs (fst (main P (mkArgs CmdTest None) w)) = fs w /\
  executed (fst (main P (mkArgs CmdRemove None) w)) = executed w /\
  executed (fst (main P (mkArgs CmdTest None) w)) = executed w.
Proof. repeat split. Qed.

Definition twice : pyval := sample_task "backup" "/bin/false" "03:00" "weekly".
Definition odd : pyval := sample_task "odd" "/bin/true" "25:99" "monthly".
Definition odd_again : pyval := sample_task "odd" "/bin/false" "02:00" "daily".


Lemma remove_unknown_id_witness :
  exists w',
    remove_task (sample_platform (sample_doc [backup; report])) "nobody"
      (boot sample_store [] 0 []) = (w', Ok tt) /\
    fs w' = sample_store /\
    console w' = [] ++ ["Aucune tâche avec cet ID n'a été trouvée."%string] /\
    jobs w' = [] /\ executed w' = [].
Proof.
  apply (remove_unknown_id_changes_nothing
           (sample_platform (sample_doc [backup; report]))
           (boot sample_store [] 0 []) (boot sample_store [] 0 [])
           [backup; report] "nobody"%string).
  - reflexivity.
  - repeat constructor; eexists; reflexivity.
  - intros task [<-|[<-|[]]]; reflexivity.
Defined.

Lemma remove_deletes_every_match_witness :
  remove_task (sample_platform (sample_doc [backup; report; twice])) "backup"
    (boot sample_store [] 0 [])
  = (written (boot sample_store [] 0 [])
       (sample_dump (VDict [("tasks"%string,
          VList (filter (fun task => negb (has_id "backup" task))
                        [backup; report; twice]))]))
       ["Tâche supprimée avec succès."%string],
     Ok tt).
Proof.
  apply (remove_deletes_every_match
           (sample_platform (sample_doc [backup; report; twice]))
           (boot sample_store [] 0 []) (boot sample_store [] 0 [])
           [backup; report; twice] "backup"%string).
  - reflexivity.
  - repeat constructor; eexists; reflexivity.
  - exists backup. split; [left; reflexivity|reflexivity].
Defined.

Lemma test_runs_first_match_witness :
  test_task (sample_platform (sample_doc [backup; odd; odd_again])) "odd"
    (boot sample_store [] 0 [])
  = (with_output (boot sample_store [] 0 [])
       ["Test de la tâche 'odd' (ID: odd)"%string;
        "Exécution de la tâche : odd (ID: odd)"%string;
        "Tâche exécutée avec succès."%string]
       [(0, odd)],
     Ok tt).
Proof.
  apply (test_runs_first_match_only
           (sample_platform (sample_doc [backup; odd; odd_again]))
           (boot sample_store [] 0 []) (boot sample_store [] 0 [])
           [backup] [odd_again]
           [("id", VStr "odd"); ("name", VStr "odd"); ("command", VStr "/bin/true");
            ("args", VList []); ("schedule", VStr "25:99");
            ("recurrence", VStr "monthly")]%string
           "odd"%string).
  - reflexivity.
  - repeat constructor; eexists; reflexivity.
  - intros task [<-|[]]; reflexivity.
  - reflexivity.
Defined.

(** * Further properties *)

(** ** What each function leaves alone

    [preserves f m]: running [m] does not change the part [f] of the
    world, whether [m] returns or raises. *)
Definition preserves {X A : Type} (f : World -> X) (m : M A) : Prop :=
  forall w, f (fst (m w)) = f w.

Section Frame.
Context {X : Type} (f : World -> X).

Lemma preserves_ret A (a : A) : preserves f (ret a).
Proof. intros w. reflexivity. Qed.

Lemma preserves_raise A e : preserves f (@raise A e).
Proof. intros w. reflexivity. Qed.

Lemma preserves_lift A (r : result A) : preserves f (lift r).
Proof. intros w. reflexivity. Qed.

Lemma preserves_bind A B (m : M A) (k : A -> M B) :
  preserves f m -> (forall a, preserves f (k a)) -> preserves f (bind m k).
Proof.
  intros Hm Hk w. unfold bind. specialize (Hm w).
  destruct (m w) as [w' [a|e]]; cbn [fst] in *.
  - rewrite (Hk a w'). exact Hm.
  - exact Hm.
Qed.

Lemma preserves_try_except A (body : M A) handles handler :
  preserves f body -> (forall e, preserves f (handler e)) ->
  preserves f (try_except body handles handler).
Proof.
  intros Hb Hh w. unfold try_except. specialize (Hb w).
  destruct (body w) as [w' [a|e]]; cbn [fst] in *.
  - exact Hb.
  - destruct (handles e); [rewrite (Hh e w')|]; exact Hb.
Qed.

Lemma preserves_for_each A (l : list A) body :
  (forall x, preserves f (body x)) -> preserves f (for_each l body).
Proof.
  intros Hb. induction l as [|x rest IH]; cbn [for_each].
  - apply preserves_ret.
  - apply preserves_bind; auto.
Qed.
End Frame.

(** The steps that only change a field other than [f]. *)
Ltac frame_step :=
  lazymatch goal with
  | |- preserves _ (bind _ _) => apply preserves_bind; [|intros ?]
  | |- preserves _ (try_except _ _ _) => apply preserves_try_except; [|intros ?]
  | |- preserves _ (for_each _ _) => apply preserves_for_each; intros ?
  | |- preserves _ (ret _) => apply preserves_ret
  | |- preserves _ (raise _) => apply preserves_raise
  | |- preserves _ (lift _) => apply preserves_lift
  | |- preserves _ (if ?b then _ else _) => destruct b
  | |- preserves _ (match ?x with _ => _ end) => destruct x
  end.

Ltac frame_leaf :=
  let w := fresh "w" in
  let done := (cbn [fst]; solve [reflexivity | assumption]) in
  intros w; cbv beta;
  first
    [ reflexivity
    | destruct (stdin w) eqn:?; done
    | destruct (future w) eqn:?; done
    | destruct (fs w) eqn:?; done
    | match goal with
      | |- context [nth_error (jobs w) ?i] =>
          destruct (nth_error (jobs w) i) eqn:?; done
      end ].

Create HintDb frame.

Ltac frames := repeat frame_step; try solve [auto with frame | frame_leaf].


Lemma load_tasks_keeps_fs (P : Platform) : preserves fs (load_tasks P).
Proof. unfold load_tasks, path_exists, read_file, safe_load. frames. Qed.
#[local] Hint Resolve load_tasks_keeps_fs : frame.

Lemma load_tasks_keeps_stdin (P : Platform) : preserves stdin (load_tasks P).
Proof. unfold load_tasks, path_exists, read_file, safe_load. frames. Qed.
#[local] Hint Resolve load_tasks_keeps_stdin : frame.

Lemma load_tasks_keeps_jobs (P : Platform) : preserves jobs (load_tasks P).
Proof. unfold load_tasks, path_exists, read_file, safe_load. frames. Qed.
#[local] Hint Resolve load_tasks_keeps_jobs : frame.

Lemma load_tasks_keeps_executed (P : Platform) : preserves executed (load_tasks P).
Proof. unfold load_tasks, path_exists, read_file, safe_load. frames. Qed.
#[local] Hint Resolve load_tasks_keeps_executed : frame.

Lemma list_tasks_keeps_fs (P : Platform) : preserves fs (list_tasks P).
Proof. unfold list_tasks, print. frames. Qed.
#[local] Hint Resolve list_tasks_keeps_fs : frame.

Lemma list_tasks_keeps_stdin (P : Platform) : preserves stdin (list_tasks P).
Proof. unfold list_tasks, print. frames. Qed.
#[local] Hint Resolve list_tasks_keeps_stdin : frame.

Lemma list_tasks_keeps_jobs (P : Platform) : preserves jobs (list_tasks P).
Proof. unfold list_tasks, print. frames. Qed.
#[local] Hint Resolve list_tasks_keeps_jobs : frame.

Lemma list_tasks_keeps_executed (P : Platform) : preserves executed (list_tasks P).
Proof. unfold list_tasks, print. frames. Qed.
#[local] Hint Resolve list_tasks_keeps_executed : frame.

Lemma add_task_interactive_keeps_jobs (P : Platform) : preserves jobs (add_task_interactive P).
Proof. unfold add_task_interactive, input, print, write_tasks. frames. Qed.
#[local] Hint Resolve add_task_interactive_keeps_jobs : frame.

Lemma add_task_interactive_keeps_executed (P : Platform) : preserves executed (add_task_interactive P).
Proof. unfold add_task_interactive, input, print, write_tasks. frames. Qed.
#[local] Hint Resolve add_task_interactive_keeps_executed : frame.

Lemma remove_task_keeps_stdin (P : Platform) (id : string) : preserves stdin (remove_task P id).
Proof. unfold remove_task, print, write_tasks. frames. Qed.
#[local] Hint Resolve remove_task_keeps_stdin : frame.

Lemma remove_task_keeps_jobs (P : Platform) (id : string) : preserves jobs (remove_task P id).
Proof. unfold remove_task, print, write_tasks. frames. Qed.
#[local] Hint Resolve remove_task_keeps_jobs : frame.

Lemma remove_task_keeps_executed (P : Platform) (id : string) : preserves executed (remove_task P id).
Proof. unfold remove_task, print, write_tasks. frames. Qed.
#[local] Hint Resolve remove_task_keeps_executed : frame.

Lemma run_task_keeps_fs (P : Platform) (task : pyval) : preserves fs (run_task P task).
Proof. unfold run_task, log_executed, print, subprocess_run. frames. Qed.
#[local] Hint Resolve run_task_keeps_fs : frame.

Lemma run_task_keeps_stdin (P : Platform) (task : pyval) : preserves stdin (run_task P task).
Proof. unfold run_task, log_executed, print, subprocess_run. frames. Qed.
#[local] Hint Resolve run_task_keeps_stdin : frame.

Lemma run_task_keeps_jobs (P : Platform) (task : pyval) : preserves jobs (run_task P task).
Proof. unfold run_task, log_executed, print, subprocess_run. frames. Qed.
#[local] Hint Resolve run_task_keeps_jobs : frame.

Lemma do_keeps_fs (j : Job) (task : pyval) : preserves fs (Schedule.do j task).
Proof. unfold Schedule.do, now, Schedule.get_jobs, Schedule.set_jobs. frames. Qed.
#[local] Hint Resolve do_keeps_fs : frame.

Lemma do_keeps_stdin (j : Job) (task : pyval) : preserves stdin (Schedule.do j task).
Proof. unfold Schedule.do, now, Schedule.get_jobs, Schedule.set_jobs. frames. Qed.
#[local] Hint Resolve do_keeps_stdin : frame.

Lemma do_keeps_executed (j : Job) (task : pyval) : preserves executed (Schedule.do j task).
Proof. unfold Schedule.do, now, Schedule.get_jobs, Schedule.set_jobs. frames. Qed.
#[local] Hint Resolve do_keeps_executed : frame.

Lemma schedule_task_keeps_fs (P : Platform) (task : pyval) : preserves fs (schedule_task P task).
Proof. unfold schedule_task, print. frames. Qed.
#[local] Hint Resolve schedule_task_keeps_fs : frame.

Lemma schedule_task_keeps_stdin (P : Platform) (task : pyval) : preserves stdin (schedule_task P task).
Proof. unfold schedule_task, print. frames. Qed.
#[local] Hint Resolve schedule_task_keeps_stdin : frame.

Lemma schedule_task_keeps_executed (P : Platform) (task : pyval) : preserves executed (schedule_task P task).
Proof. unfold schedule_task, print. frames. Qed.
#[local] Hint Resolve schedule_task_keeps_executed : frame.

Lemma schedule_tasks_keeps_fs (P : Platform) : preserves fs (schedule_tasks P).
Proof. unfold schedule_tasks. frames. Qed.
#[local] Hint Resolve schedule_tasks_keeps_fs : frame.

Lemma schedule_tasks_keeps_stdin (P : Platform) : preserves stdin (schedule_tasks P).
Proof. unfold schedule_tasks. frames. Qed.
#[local] Hint Resolve schedule_tasks_keeps_stdin : frame.

Lemma schedule_tasks_keeps_executed (P : Platform) : preserves executed (schedule_tasks P).
Proof. unfold schedule_tasks. frames. Qed.
#[local] Hint Resolve schedule_tasks_keeps_executed : frame.

Lemma run_pending_keeps_fs (P : Platform) : preserves fs (run_pending P).
Proof. unfold run_pending, Schedule.run_pending, Schedule._run_job, Schedule.run, Schedule.job_at, Schedule.log_fired, Schedule.set_job, Schedule.get_jobs, Schedule.set_jobs, now. frames. Qed.
#[local] Hint Resolve run_pending_keeps_fs : frame.

Lemma run_pending_keeps_stdin (P : Platform) : preserves stdin (run_pending P).
Proof. unfold run_pending, Schedule.run_pending, Schedule._run_job, Schedule.run, Schedule.job_at, Schedule.log_fired, Schedule.set_job, Schedule.get_jobs, Schedule.set_jobs, now. frames. Qed.
#[local] Hint Resolve run_pending_keeps_stdin : frame.

Lemma scheduler_loop_keeps_fs (P : Platform) (fuel : nat) : preserves fs (scheduler_loop P fuel).
Proof. induction fuel as [|n IH]; cbn [scheduler_loop]; unfold sleep; frames. Qed.
#[local] Hint Resolve scheduler_loop_keeps_fs : frame.

Lemma scheduler_loop_keeps_stdin (P : Platform) (fuel : nat) : preserves stdin (scheduler_loop P fuel).
Proof. induction fuel as [|n IH]; cbn [scheduler_loop]; unfold sleep; frames. Qed.
#[local] Hint Resolve scheduler_loop_keeps_stdin : frame.

Lemma run_scheduler_loop_keeps_fs (P : Platform) : preserves fs (run_scheduler_loop P).
Proof. unfold run_scheduler_loop, print; frames; intros w; apply scheduler_loop_keeps_fs. Qed.
#[local] Hint Resolve run_scheduler_loop_keeps_fs : frame.

Lemma run_scheduler_loop_keeps_stdin (P : Platform) : preserves stdin (run_scheduler_loop P).
Proof. unfold run_scheduler_loop, print; frames; intros w; apply scheduler_loop_keeps_stdin. Qed.
#[local] Hint Resolve run_scheduler_loop_keeps_stdin : frame.

Lemma test_task_loop_keeps_fs (P : Platform) (id : string) (items : list pyval) : preserves fs (test_task_loop P id items).
Proof. induction items as [|task rest IH]; cbn [test_task_loop]; unfold print; frames. Qed.
#[local] Hint Resolve test_task_loop_keeps_fs : frame.

Lemma test_task_loop_keeps_stdin (P : Platform) (id : string) (items : list pyval) : preserves stdin (test_task_loop P id items).
Proof. induction items as [|task rest IH]; cbn [test_task_loop]; unfold print; frames. Qed.
#[local] Hint Resolve test_task_loop_keeps_stdin : frame.

Lemma test_task_loop_keeps_jobs (P : Platform) (id : string) (items : list pyval) : preserves jobs (test_task_loop P id items).
Proof. induction items as [|task rest IH]; cbn [test_task_loop]; unfold print; frames. Qed.
#[local] Hint Resolve test_task_loop_keeps_jobs : frame.

Lemma test_task_keeps_fs (P : Platform) (id : string) : preserves fs (test_task P id).
Proof. unfold test_task. frames. Qed.
#[local] Hint Resolve test_task_keeps_fs : frame.

Lemma test_task_keeps_stdin (P : Platform) (id : string) : preserves stdin (test_task P id).
Proof. unfold test_task. frames. Qed.
#[local] Hint Resolve test_task_keeps_stdin : frame.

Lemma test_task_keeps_jobs (P : Platform) (id : string) : preserves jobs (test_task P id).
Proof. unfold test_task. frames. Qed.
#[local] Hint Resolve test_task_keeps_jobs : frame.

(** ** What a command never does *)

(** X1.  Only [add] and [remove] write [tasks.yml]: after [list], [test]
    or [run], however the command ends, the file is as it was. *)
Theorem only_add_and_remove_write_the_store
    (P : Platform) (a : Args) (w : World) :
  args_command a <> CmdAdd -> args_command a <> CmdRemove ->
  fs (fst (main P a w)) = fs w.
Proof.
  intros Ha Hr. unfold main.
  destruct (args_command a); try congruence.
  - apply run_scheduler_loop_keeps_fs.
  - apply list_tasks_keeps_fs.
  - destruct (no_id a); [reflexivity|apply test_task_keeps_fs].
Qed.

Lemma only_add_and_remove_write_witness :
  fs (fst (main (sample_platform (sample_doc [backup; report]))
                (mkArgs CmdTest (Some "report"%string))
                (boot sample_store [] 0 [])))
  = sample_store.
Proof.
  apply (only_add_and_remove_write_the_store
           (sample_platform (sample_doc [backup; report]))
           (mkArgs CmdTest (Some "report"%string))
           (boot sample_store [] 0 []));
    discriminate.
Defined.

(** X2.  Only [test] and [run] launch a task: [list], [add] and [remove]
    never call [run_task], whatever the store holds and whatever is
    typed. *)
Theorem only_test_and_run_launch_tasks
    (P : Platform) (a : Args) (w : World) :
  args_command a <> CmdTest -> args_command a <> CmdRun ->
  executed (fst (main P a w)) = executed w.
Proof.
  intros Ht Hr. unfold main.
  destruct (args_command a); try congruence.
  - apply list_tasks_keeps_executed.
  - apply add_task_interactive_keeps_executed.
  - destruct (no_id a); [reflexivity|apply remove_task_keeps_executed].
Qed.

Lemma only_test_and_run_launch_witness :
  executed (fst (main (sample_platform (sample_doc [backup; report]))
                      (mkArgs CmdRemove (Some "backup"%string))
                      (boot sample_store [] 0 [])))
  = [].
Proof.
  apply (only_test_and_run_launch_tasks
           (sample_platform (sample_doc [backup; report]))
           (mkArgs CmdRemove (Some "backup"%string))
           (boot sample_store [] 0 []));
    discriminate.
Defined.

(** X3.  Only [add] reads the standard input: every other command leaves
    it untouched. *)
Theorem only_add_reads_input (P : Platform) (a : Args) (w : World) :
  args_command a <> CmdAdd ->
  stdin (fst (main P a w)) = stdin w.
Proof.
  intros Ha. unfold main.
  destruct (args_command a); try congruence.
  - apply run_scheduler_loop_keeps_stdin.
  - apply list_tasks_keeps_stdin.
  - destruct (no_id a); [reflexivity|apply remove_task_keeps_stdin].
  - destruct (no_id a); [reflexivity|apply test_task_keeps_stdin].
Qed.

Lemma only_add_reads_input_witness :
  stdin (fst (main (sample_platform (sample_doc [backup; report]))
                   (mkArgs CmdList None)
                   (boot sample_store ["y"%string] 0 [])))
  = ["y"%string].
Proof.
  apply (only_add_reads_input
           (sample_platform (sample_doc [backup; report]))
           (mkArgs CmdList None)
           (boot sample_store ["y"%string] 0 []));
    discriminate.
Defined.

(** ** Sequencing *)

Lemma bind_Ok A B (m : M A) (k : A -> M B) w w' a :
  m w = (w', Ok a) -> bind m k w = k a w'.
Proof. intros H. unfold bind. rewrite H. reflexivity. Qed.

Lemma bind_Raise A B (m : M A) (k : A -> M B) w w' e :
  m w = (w', Raise e) -> bind m k w = (w', Raise e).
Proof. intros H. unfold bind. rewrite H. reflexivity. Qed.

(** ** What [tasks.yml] may hold *)

Section Documents.
Variable P : Platform.

Lemma load_tasks_mapping w text d :
  fs w = Some text -> yaml_safe_load P text = inr (VDict d) ->
  load_tasks P w = (w, Ok (field d "tasks" (VList []))).
Proof. intros Hfs Hy. now rewrite (load_tasks_parsed P w text _ Hfs Hy). Qed.

Lemma load_tasks_no_mapping w text data :
  fs w = Some text -> yaml_safe_load P text = inr data ->
  data <> VNone -> (forall d, data <> VDict d) ->
  load_tasks P w
  = (w, Raise (Exn AttributeError "object has no attribute 'get'")).
Proof.
  intros Hfs Hy Hn Hd. rewrite (load_tasks_parsed P w text _ Hfs Hy).
  destruct data; try reflexivity; [congruence|].
  exfalso. eapply Hd. reflexivity.
Qed.

(** The store reads as the empty list: there is no file, or the document
    is empty, or it is a mapping without [tasks], or with an empty
    list. *)
Definition empty_store (w : World) : Prop :=
  fs w = None \/
  exists text,
    fs w = Some text /\
    (yaml_safe_load P text = inr VNone \/
     exists d, yaml_safe_load P text = inr (VDict d) /\
               field d "tasks" (VList []) = VList []).

Lemma load_tasks_empty_store w :
  empty_store w -> load_tasks P w = (w, Ok (VList [])).
Proof.
  intros [Hfs|(text & Hfs & [Hy|(d & Hy & Hd)])].
  - apply load_tasks_missing. exact Hfs.
  - now rewrite (load_tasks_parsed P w text _ Hfs Hy).
  - rewrite (load_tasks_mapping w text d Hfs Hy), Hd. reflexivity.
Qed.
End Documents.

(** X4.  A document that is neither empty nor a mapping (a list of
    tasks at top level, a string, a number): [load_tasks] raises
    [AttributeError], which nothing catches, so every command ends with
    exit status 1, having written nothing, read nothing and launched
    nothing. *)
Theorem document_that_is_no_mapping_fails_every_command
    (P : Platform) (a : Args) (w : World) (text : string) (data : pyval) :
  fs w = Some text -> yaml_safe_load P text = inr data ->
  data <> VNone -> (forall d, data <> VDict d) ->
  exn_cls_of (snd (load_tasks P w)) = Some AttributeError /\
  exit_status (snd (main P a w)) = 1 /\
  fs (fst (main P a w)) = fs w /\
  stdin (fst (main P a w)) = stdin w /\
  executed (fst (main P a w)) = executed w.
Proof.
  intros Hfs Hy Hn Hd.
  pose proof (load_tasks_no_mapping P w text data Hfs Hy Hn Hd) as Hl.
  split; [rewrite Hl; reflexivity|].
  assert (E : exists w', main P a w
                = (w', Raise (Exn AttributeError "object has no attribute 'get'"))
              /\ fs w' = fs w /\ stdin w' = stdin w /\ executed w' = executed w
              \/ main P a w = (w', Raise (Exn (SystemExit 1) EmptyString))
              /\ fs w' = fs w /\ stdin w' = stdin w /\ executed w' = executed w).
  { destruct a as [[| | | |] id]; unfold main; cbn [args_command].
    - eexists. left. split.
      { unfold run_scheduler_loop, schedule_tasks.
        erewrite bind_Ok by reflexivity.
        apply bind_Raise, bind_Raise.
        apply (load_tasks_no_mapping P _ text data); assumption. }
      repeat split.
    - exists w. left. split; [|repeat split]. apply bind_Raise. exact Hl.
    - exists w. left. split; [|repeat split]. apply bind_Raise. exact Hl.
    - destruct (no_id _).
      + eexists. right. split; [reflexivity|repeat split].
      + exists w. left. split; [|repeat split]. apply bind_Raise. exact Hl.
    - destruct (no_id _).
      + eexists. right. split; [reflexivity|repeat split].
      + exists w. left. split; [|repeat split]. apply bind_Raise. exact Hl. }
  destruct E as (w' & [(-> & A & B & C)|(-> & A & B & C)]); repeat split; assumption.
Qed.

Lemma document_that_is_no_mapping_witness :
  exn_cls_of (snd (load_tasks (sample_platform (VList [backup]))
                              (boot sample_store [] 0 [])))
  = Some AttributeError /\
  exit_status (snd (main (sample_platform (VList [backup])) (mkArgs CmdList None)
                         (boot sample_store [] 0 []))) = 1 /\
  fs (fst (main (sample_platform (VList [backup])) (mkArgs CmdList None)
                (boot sample_store [] 0 []))) = sample_store /\
  stdin (fst (main (sample_platform (VList [backup])) (mkArgs CmdList None)
                   (boot sample_store [] 0 []))) = [] /\
  executed (fst (main (sample_platform (VList [backup])) (mkArgs CmdList None)
                      (boot sample_store [] 0 []))) = [].
Proof.
  apply (document_that_is_no_mapping_fails_every_command
           (sample_platform (VList [backup])) (mkArgs CmdList None)
           (boot sample_store [] 0 []) "tasks: ..."%string (VList [backup]));
    try reflexivity; [discriminate|intros d; discriminate].
Defined.

(** X5.  A missing file, an empty document, a mapping without [tasks]
    and a mapping with an empty [tasks] list all read as no task at all:
    [list] prints that there is none, [remove] and [test] that the id is
    unknown, and each returns with nothing else changed. *)
Theorem empty_store_has_no_task (P : Platform) (w : World) (id : string) :
  empty_store P w ->
  load_tasks P w = (w, Ok (VList [])) /\
  list_tasks P w = (fst (print "Aucune tâche trouvée." w), Ok tt) /\
  remove_task P id w
  = (fst (print "Aucune tâche avec cet ID n'a été trouvée." w), Ok tt) /\
  test_task P id w
  = (fst (print "Aucune tâche avec cet ID n'a été trouvée." w), Ok tt).
Proof.
  intros He. pose proof (load_tasks_empty_store P w He) as Hl.
  split; [exact Hl|]. split; [|split].
  - unfold list_tasks. unfold bind at 1. rewrite Hl. reflexivity.
  - unfold remove_task. unfold bind at 1. rewrite Hl. reflexivity.
  - unfold test_task. unfold bind at 1. rewrite Hl. reflexivity.
Qed.

Lemma empty_store_witness :
  load_tasks (sample_platform (VDict [("version"%string, VInt 1)]))
             (boot sample_store [] 0 [])
  = (boot sample_store [] 0 [], Ok (VList [])) /\
  list_tasks (sample_platform (VDict [("version"%string, VInt 1)]))
             (boot sample_store [] 0 [])
  = (fst (print "Aucune tâche trouvée." (boot sample_store [] 0 [])), Ok tt) /\
  remove_task (sample_platform (VDict [("version"%string, VInt 1)])) "backup"
              (boot sample_store [] 0 [])
  = (fst (print "Aucune tâche avec cet ID n'a été trouvée."
                (boot sample_store [] 0 [])), Ok tt) /\
  test_task (sample_platform (VDict [("version"%string, VInt 1)])) "backup"
            (boot sample_store [] 0 [])
  = (fst (print "Aucune tâche avec cet ID n'a été trouvée."
                (boot sample_store [] 0 [])), Ok tt).
Proof.
  apply (empty_store_has_no_task
           (sample_platform (VDict [("version"%string, VInt 1)]))
           (boot sample_store [] 0 []) "backup"%string).
  right. exists "tasks: ..."%string. split; [reflexivity|].
  right. eexists. split; reflexivity.
Defined.

(** X6.  A [tasks] entry that is present but null (the line [tasks:]
    with nothing after it): [list] still says that there is no task, but
    every other command fails on iterating over it, with exit status 1
    and nothing written or launched. *)
Theorem null_tasks_entry_lists_but_fails_elsewhere
    (P : Platform) (a : Args) (w : World) (text : string)
    (d : list (string * pyval)) :
  fs w = Some text -> yaml_safe_load P text = inr (VDict d) ->
  assoc "tasks" d = Some VNone ->
  list_tasks P w = (fst (print "Aucune tâche trouvée." w), Ok tt) /\
  (args_command a <> CmdList ->
   exit_status (snd (main P a w)) = 1 /\
   fs (fst (main P a w)) = fs w /\
   executed (fst (main P a w)) = executed w).
Proof.
  intros Hfs Hy Hd.
  assert (Hl : forall w', fs w' = Some text -> load_tasks P w' = (w', Ok VNone)).
  { intros w' Hfs'. rewrite (load_tasks_mapping P w' text d Hfs' Hy).
    unfold field. rewrite Hd. reflexivity. }
  split.
  - unfold list_tasks. rewrite (bind_Ok _ _ _ _ _ _ _ (Hl w Hfs)). reflexivity.
  - intros Hc.
    assert (E : exists w' e, main P a w = (w', Raise e)
                /\ exit_status (Raise e) = 1
                /\ fs w' = fs w /\ executed w' = executed w).
    { destruct a as [[| | | |] id]; unfold main; cbn [args_command] in *;
        try congruence.
      - do 2 eexists. split.
        { unfold run_scheduler_loop, schedule_tasks.
          erewrite bind_Ok by reflexivity.
          apply bind_Raise. erewrite bind_Ok by (apply Hl; exact Hfs).
          apply bind_Raise. reflexivity. }
        repeat split.
      - unfold add_task_interactive.
        rewrite (bind_Ok _ _ _ _ _ _ _ (Hl w Hfs)).
        unfold bind at 1. unfold input.
        destruct (stdin w); do 2 eexists; (split; [reflexivity|repeat split]).
      - destruct (no_id _).
        + do 2 eexists. split; [reflexivity|repeat split].
        + do 2 eexists. split.
          { unfold remove_task.
            rewrite (bind_Ok _ _ _ _ _ _ _ (Hl w Hfs)). apply bind_Raise. reflexivity. }
          repeat split.
      - destruct (no_id _).
        + do 2 eexists. split; [reflexivity|repeat split].
        + do 2 eexists. split.
          { unfold test_task.
            rewrite (bind_Ok _ _ _ _ _ _ _ (Hl w Hfs)). apply bind_Raise. reflexivity. }
          repeat split. }
    destruct E as (w' & e & -> & A & B & C). repeat split; assumption.
Qed.

Lemma null_tasks_entry_witness :
  list_tasks (sample_platform (VDict [("tasks"%string, VNone)]))
             (boot sample_store [] 0 [])
  = (fst (print "Aucune tâche trouvée." (boot sample_store [] 0 [])), Ok tt) /\
  (args_command (mkArgs CmdRun None) <> CmdList ->
   exit_status (snd (main (sample_platform (VDict [("tasks"%string, VNone)]))
                          (mkArgs CmdRun None) (boot sample_store [] 0 []))) = 1 /\
   fs (fst (main (sample_platform (VDict [("tasks"%string, VNone)]))
                 (mkArgs CmdRun None) (boot sample_store [] 0 []))) = sample_store /\
   executed (fst (main (sample_platform (VDict [("tasks"%string, VNone)]))
                       (mkArgs CmdRun None) (boot sample_store [] 0 []))) = []).
Proof.
  apply (null_tasks_entry_lists_but_fails_elsewhere
           (sample_platform (VDict [("tasks"%string, VNone)]))
           (mkArgs CmdRun None) (boot sample_store [] 0 [])
           "tasks: ..."%string [("tasks"%string, VNone)]);
    reflexivity.
Defined.

(** ** Adding a task *)

(** The record [add_task_interactive] builds from the six lines typed. *)
Definition typed_record (l1 l2 l3 l4 l5 l6 : string) : pyval :=
  VDict [("id"%string, VStr (PyStr.strip l1));
         ("name"%string, VStr (PyStr.strip l2));
         ("command"%string, VStr (PyStr.strip l3));
         ("args"%string, VList (map VStr (PyStr.split l4)));
         ("schedule"%string, VStr (PyStr.strip l5));
         ("recurrence"%string,
          VStr (PyStr.lower (if String.eqb (PyStr.strip l6) EmptyString
                             then "daily"%string else PyStr.strip l6)))].

Definition add_prompts : list string :=
  ["Entrez l'ID unique de la tâche : ";
   "Nom de la tâche : ";
   "Chemin complet du programme/script : ";
   "Arguments (séparés par des espaces, optionnel) : ";
   "Heure d'exécution (format HH:MM, ex: 09:00) : ";
   "Récurrence (daily/weekly, par défaut daily) : "]%string.


Definition tasks_doc (tasks : list pyval) : pyval :=
  VDict [("tasks"%string, VList tasks)].

Lemma existsb_has_id_false id tasks :
  (forall task, In task tasks -> has_id id task = false) ->
  existsb (has_id id) tasks = false.
Proof.
  intros H. destruct (existsb (has_id id) tasks) eqn:E; [|reflexivity].
  apply existsb_exists in E. destruct E as (x & Hx & Hid).
  rewrite (H x Hx) in Hid. discriminate.
Qed.


Section Adding.
Variable P : Platform.

(** The world after a successful [add]. *)
Definition added (w1 : World) (rest : list string) (tasks : list pyval) : World :=
  mkWorld (Some (yaml_dump P (tasks_doc tasks))) rest
          (console w1 ++ add_prompts ++ ["Tâche ajoutée avec succès."%string])
          (clock w1) (future w1) (jobs w1) (executed w1) (fired w1).

Lemma add_task_interactive_appends w w1 tasks l1 l2 l3 l4 l5 l6 rest :
  load_tasks P w = (w1, Ok (VList tasks)) ->
  Forall is_mapping tasks ->
  stdin w = l1 :: l2 :: l3 :: l4 :: l5 :: l6 :: rest ->
  (forall task, In task tasks -> has_id (PyStr.strip l1) task = false) ->
  add_task_interactive P w
  = (added w1 rest (tasks ++ [typed_record l1 l2 l3 l4 l5 l6]), Ok tt).
Proof.
  intros Hl Hm Hin Hno.
  destruct (load_tasks_quiet P _ _ _ Hl) as [(A & B & C & D & E & F & _) J].
  unfold add_task_interactive. rewrite (bind_Ok _ _ _ _ _ _ _ Hl).
  unfold bind at 1. unfold input at 1. rewrite B, Hin.
  unfold bind at 1. unfold lift at 1. cbn [py_iter].
  unfold bind at 1. unfold lift at 1.
  rewrite (any_id_eq_spec _ _ Hm), (existsb_has_id_false _ _ Hno).
  unfold bind, input, lift, print, write_tasks, py_append, added, typed_record,
    tasks_doc, add_prompts.
  cbn [fs stdin console clock future jobs executed fired].
  rewrite <- !app_assoc. reflexivity.
Qed.
End Adding.



(** X8.  When the input ends before the six answers are given, [add]
    leaves with [EOFError] (exit status 1) and writes nothing: a record
    is stored whole or not at all. *)
Theorem add_with_input_cut_short_writes_nothing
    (P : Platform) (w w1 : World) (tasks : list pyval) :
  load_tasks P w = (w1, Ok (VList tasks)) ->
  Forall is_mapping tasks ->
  (List.length (stdin w) < 6)%nat ->
  (forall l rest task,
      stdin w = l :: rest -> In task tasks -> has_id (PyStr.strip l) task = false) ->
  exists w',
    add_task_interactive P w
    = (w', Raise (Exn EOFError "EOF when reading a line")) /\
    exit_status (snd (add_task_interactive P w)) = 1 /\
    fs w' = fs w /\ stdin w' = [] /\ executed w' = executed w.
Proof.
  intros Hl Hm Hlen Hno.
  destruct (load_tasks_quiet P _ _ _ Hl) as [(A & B & C & D & E & F & _) J].
  assert (G : exists w',
             add_task_interactive P w
             = (w', Raise (Exn EOFError "EOF when reading a line")) /\
             fs w' = fs w /\ stdin w' = [] /\ executed w' = executed w).
  { unfold add_task_interactive. rewrite (bind_Ok _ _ _ _ _ _ _ Hl).
    unfold bind at 1. unfold input at 1. rewrite B.
    destruct (stdin w) as [|l1 ins] eqn:Hin.
    { eexists. split; [reflexivity|]. cbn [fs stdin executed]. auto. }
    unfold bind at 1. unfold lift at 1. cbn [py_iter].
    unfold bind at 1. unfold lift at 1.
    rewrite (any_id_eq_spec _ _ Hm),
      (existsb_has_id_false _ _ (fun task => Hno l1 ins task eq_refl)).
    unfold bind, input, lift.
    cbn [fs stdin console clock future jobs executed fired].
    destruct ins as [|l2 [|l3 [|l4 [|l5 [|l6 rest]]]]];
      try (eexists; split; [reflexivity|]; cbn [fs stdin executed]; auto).
    cbn [List.length] in Hlen. lia. }
  destruct G as (w' & Hadd & G). exists w'. rewrite Hadd. auto.
Qed.

Lemma add_with_input_cut_short_witness :
  exists w',
    add_task_interactive (sample_platform (sample_doc [backup]))
      (boot sample_store ["new"; "New task"; "/bin/true"]%string 0 [])
    = (w', Raise (Exn EOFError "EOF when reading a line")) /\
    exit_status (snd (add_task_interactive (sample_platform (sample_doc [backup]))
      (boot sample_store ["new"; "New task"; "/bin/true"]%string 0 []))) = 1 /\
    fs w' = sample_store /\ stdin w' = [] /\ executed w' = [].
Proof.
  apply (add_with_input_cut_short_writes_nothing
           (sample_platform (sample_doc [backup]))
           (boot sample_store ["new"; "New task"; "/bin/true"]%string 0 [])
           (boot sample_store ["new"; "New task"; "/bin/true"]%string 0 [])
           [backup]).
  - reflexivity.
  - repeat constructor. eexists. reflexivity.
  - cbn. lia.
  - intros l rest task [= <- <-] [<-|[]]. reflexivity.
Defined.

(** ** One command after another

    What a command finds in [tasks.yml] is what the YAML reader makes of
    the text the command before it wrote.  The properties below assume,
    for the one document that is written, that the reader gives back the
    document the writer was given. *)

(** A platform whose reader knows the documents of [docs] by the text
    [sample_dump] writes for them, and rejects any other text. *)
Definition shelf_platform (docs : list pyval) : Platform :=
  mkPlatform
    (fun text =>
       match find (fun doc => String.eqb (sample_dump doc) text) docs with
       | Some doc => inr doc
       | None => inl "could not find expected ':'"%string
       end)
    sample_dump
    sample_str
    sample_spawn
    (fun _ => "<Signals.SIGKILL: 9>"%string).

Section Sequences.
Variable P : Platform.

Lemma load_tasks_written w text tasks :
  fs w = Some text -> yaml_safe_load P text = inr (tasks_doc tasks) ->
  load_tasks P w = (w, Ok (VList tasks)).
Proof. intros Hfs Hy. now rewrite (load_tasks_mapping P w text _ Hfs Hy). Qed.


Lemma remove_task_cases w w1 tasks id :
  load_tasks P w = (w1, Ok (VList tasks)) ->
  Forall is_mapping tasks ->
  remove_task P id w
  = if existsb (has_id id) tasks
    then (written w1
            (yaml_dump P (tasks_doc (filter (fun task => negb (has_id id task)) tasks)))
            ["Tâche supprimée avec succès."%string],
          Ok tt)
    else (fst (print "Aucune tâche avec cet ID n'a été trouvée." w1), Ok tt).
Proof.
  intros Hl Hm.
  unfold remove_task. rewrite (bind_Ok _ _ _ _ _ _ _ Hl).
  unfold bind at 1. unfold lift at 1. cbn [py_iter].
  unfold bind at 1. unfold lift at 1. rewrite (without_id_spec _ _ Hm).
  unfold bind at 1. unfold lift at 1. cbn [py_len].
  destruct (existsb (has_id id) tasks) eqn:Hex.
  - apply existsb_exists in Hex. destruct Hex as (task & Ht & Hid).
    assert (Hlt : (List.length (filter (fun task => negb (has_id id task)) tasks)
                   < List.length tasks)%nat).
    { apply filter_shorter. exists task. split; [exact Ht|]. now rewrite Hid. }
    destruct (Nat.eqb_spec
                (List.length (filter (fun task => negb (has_id id task)) tasks))
                (List.length tasks)) as [Heq|_]; [lia|].
    reflexivity.
  - rewrite filter_all.
    2:{ intros x Hx. destruct (has_id id x) eqn:Hid; [|reflexivity].
        assert (existsb (has_id id) tasks = true)
          by (apply existsb_exists; eauto).
        congruence. }
    rewrite Nat.eqb_refl. reflexivity.
Qed.

Lemma has_id_filter_out id tasks :
  existsb (has_id id) (filter (fun task => negb (has_id id task)) tasks) = false.
Proof.
  apply existsb_has_id_false. intros task Hin.
  apply filter_In in Hin. destruct Hin as [_ H].
  now destruct (has_id id task).
Qed.

Lemma is_mapping_typed_record l1 l2 l3 l4 l5 l6 :
  is_mapping (typed_record l1 l2 l3 l4 l5 l6).
Proof. eexists. reflexivity. Qed.

Lemma has_id_typed_record id l1 l2 l3 l4 l5 l6 :
  has_id id (typed_record l1 l2 l3 l4 l5 l6) = String.eqb (PyStr.strip l1) id.
Proof. reflexivity. Qed.
End Sequences.


Definition new_task_lines : list string :=
  ["  new "; "New task"; "/bin/true"; " -a  -b "; "09:30"; "WEEKLY"]%string.

Definition new_task : pyval :=
  typed_record "  new " "New task" "/bin/true" " -a  -b " "09:30" "WEEKLY".


(** X10.  [remove] undoes [add]: removing the id just added writes back
    exactly the list that was stored before the [add]. *)
Theorem remove_undoes_add
    (P : Platform) (w w1 : World) (tasks : list pyval)
    (l1 l2 l3 l4 l5 l6 : string) (rest : list string) :
  load_tasks P w = (w1, Ok (VList tasks)) ->
  Forall is_mapping tasks ->
  stdin w = l1 :: l2 :: l3 :: l4 :: l5 :: l6 :: rest ->
  (forall task, In task tasks -> has_id (PyStr.strip l1) task = false) ->
  yaml_safe_load P
    (yaml_dump P (tasks_doc (tasks ++ [typed_record l1 l2 l3 l4 l5 l6])))
  = inr (tasks_doc (tasks ++ [typed_record l1 l2 l3 l4 l5 l6])) ->
  let w2 := fst (add_task_interactive P w) in
  remove_task P (PyStr.strip l1) w2
  = (written w2 (yaml_dump P (tasks_doc tasks))
             ["Tâche supprimée avec succès."%string],
     Ok tt).
Proof.
  intros Hl Hm Hin Hno Hrt w2. subst w2.
  rewrite (add_task_interactive_appends P w w1 tasks l1 l2 l3 l4 l5 l6
             rest Hl Hm Hin Hno).
  cbn [fst].
  set (w2 := added P w1 rest _).
  rewrite (remove_task_cases P w2 w2 (tasks ++ [typed_record l1 l2 l3 l4 l5 l6])).
  - rewrite existsb_app. cbn [existsb].
    rewrite has_id_typed_record, String.eqb_refl, orb_true_r.
    rewrite filter_app. cbn [filter].
    rewrite has_id_typed_record, String.eqb_refl. cbn [negb].
    rewrite app_nil_r, filter_all; [reflexivity|].
    intros x Hx. now rewrite (Hno x Hx).
  - eapply load_tasks_written; [reflexivity|exact Hrt].
  - apply Forall_app. split; [exact Hm|].
    repeat constructor. apply is_mapping_typed_record.
Qed.

Lemma remove_undoes_add_witness :
  let P := shelf_platform [sample_doc [backup]; sample_doc [backup; new_task]] in
  let w := boot (Some "backup"%string) new_task_lines 0 [] in
  let w2 := fst (add_task_interactive P w) in
  remove_task P (PyStr.strip "  new ") w2
  = (written w2 (yaml_dump P (tasks_doc [backup]))
             ["Tâche supprimée avec succès."%string],
     Ok tt).
Proof.
  intros P w.
  apply (remove_undoes_add P w w [backup]
           "  new " "New task" "/bin/true" " -a  -b " "09:30" "WEEKLY" []).
  - reflexivity.
  - repeat constructor. eexists. reflexivity.
  - reflexivity.
  - intros task [<-|[]]. reflexivity.
  - reflexivity.
Defined.

(** X11.  A removed id is gone: after a [remove] that found the id, a
    second [remove] and a [test] of the same id both answer that no task
    has it; the second [remove] writes nothing and the [test] launches
    nothing. *)
Theorem a_removed_id_is_gone
    (P : Platform) (w w1 : World) (tasks : list pyval) (id : string) :
  load_tasks P w = (w1, Ok (VList tasks)) ->
  Forall is_mapping tasks ->
  existsb (has_id id) tasks = true ->
  yaml_safe_load P
    (yaml_dump P (tasks_doc (filter (fun task => negb (has_id id task)) tasks)))
  = inr (tasks_doc (filter (fun task => negb (has_id id task)) tasks)) ->
  let w2 := fst (remove_task P id w) in
  remove_task P id w2
  = (fst (print "Aucune tâche avec cet ID n'a été trouvée." w2), Ok tt) /\
  test_task P id w2
  = (fst (print "Aucune tâche avec cet ID n'a été trouvée." w2), Ok tt).
Proof.
  intros Hl Hm Hex Hrt w2. subst w2.
  rewrite (remove_task_cases P w w1 tasks id Hl Hm), Hex. cbn [fst].
  set (kept := filter (fun task => negb (has_id id task)) tasks) in *.
  set (w2 := written w1 _ _).
  assert (Hl2 : load_tasks P w2 = (w2, Ok (VList kept))).
  { eapply load_tasks_written; [reflexivity|exact Hrt]. }
  assert (Hm2 : Forall is_mapping kept).
  { apply Forall_forall. intros x Hx. apply filter_In in Hx.
    rewrite Forall_forall in Hm. apply Hm, Hx. }
  split.
  - rewrite (remove_task_cases P w2 w2 kept id Hl2 Hm2).
    unfold kept. rewrite has_id_filter_out. reflexivity.
  - unfold test_task. rewrite (bind_Ok _ _ _ _ _ _ _ Hl2).
    unfold bind at 1. unfold lift at 1. cbn [py_iter].
    pose proof (has_id_filter_out id tasks) as Hout. fold kept in Hout.
    clear Hl2 Hrt. revert Hout. generalize w2.
    induction Hm2 as [|task rest' [d ->] _ IH]; intros w' Hout; [reflexivity|].
    cbn [existsb] in Hout. apply orb_false_iff in Hout. destruct Hout as [H1 H2].
    cbn [test_task_loop]. unfold bind at 1. unfold lift at 1. cbn [py_get].
    unfold has_id in H1. cbn [py_get] in H1. rewrite H1.
    apply IH. exact H2.
Qed.

Lemma a_removed_id_is_gone_witness :
  let P := shelf_platform [sample_doc [backup; report]; sample_doc [report]] in
  let w := boot (Some "backup,report"%string) [] 0 [] in
  let w2 := fst (remove_task P "backup" w) in
  remove_task P "backup" w2
  = (fst (print "Aucune tâche avec cet ID n'a été trouvée." w2), Ok tt) /\
  test_task P "backup" w2
  = (fst (print "Aucune tâche avec cet ID n'a été trouvée." w2), Ok tt).
Proof.
  intros P w.
  apply (a_removed_id_is_gone P w w [backup; report] "backup").
  - reflexivity.
  - repeat constructor; eexists; reflexivity.
  - reflexivity.
  - reflexivity.
Defined.

(** ** Testing and listing *)

Section Testing.
Variable P : Platform.

Lemma test_task_loop_unknown id tasks : forall w,
  Forall is_mapping tasks ->
  existsb (has_id id) tasks = false ->
  test_task_loop P id tasks w
  = (fst (print "Aucune tâche avec cet ID n'a été trouvée." w), Ok tt).
Proof.
  intros w Hm. revert w.
  induction Hm as [|task rest [d ->] _ IH]; intros w Hout; [reflexivity|].
  cbn [existsb] in Hout. apply orb_false_iff in Hout. destruct Hout as [H1 H2].
  cbn [test_task_loop]. unfold bind at 1. unfold lift at 1. cbn [py_get].
  unfold has_id in H1. cbn [py_get] in H1. rewrite H1.
  apply IH. exact H2.
Qed.

(** The five lines [list_tasks] prints for a record. *)
Definition listing (d : list (string * pyval)) (joined : string) : list string :=
  [ "ID: " ++ str P (field d "id" VNone);
    "  Nom       : " ++ str P (field d "name" VNone);
    "  Commande  : " ++ str P (field d "command" VNone) ++ " " ++ joined;
    "  Horaire   : " ++ str P (field d "schedule" VNone)
      ++ " (récurrence: " ++ str P (field d "recurrence" (VStr "daily")) ++ ")";
    EmptyString ]%string.

(** The arguments of a record, joined by blanks, when [join] accepts
    them. *)
Definition joined_args (task : pyval) : result string :=
  match py_get task "args" (VList []) with
  | Ok args => py_join " " args
  | Raise e => Raise e
  end.

(** What [list_tasks] prints for a record it can show. *)
Definition listing_of (task : pyval) : list string :=
  match task, joined_args task with
  | VDict d, Ok joined => listing d joined
  | _, _ => []
  end.

Definition listable (task : pyval) : Prop :=
  is_mapping task /\ exists joined, joined_args task = Ok joined.

Definition printed (w : World) (out : list string) : World :=
  mkWorld (fs w) (stdin w) (console w ++ out) (clock w) (future w)
          (jobs w) (executed w) (fired w).

Lemma printed_nil w : printed w [] = w.
Proof. destruct w. unfold printed. cbn. now rewrite app_nil_r. Qed.

Lemma printed_printed w o1 o2 : printed (printed w o1) o2 = printed w (o1 ++ o2).
Proof. unfold printed. cbn. now rewrite app_assoc. Qed.

(** One turn of the loop of [list_tasks]. *)
Definition list_one (task : pyval) : M unit :=
  id <- lift (py_get task "id" VNone) ;;
  print ("ID: " ++ str P id) ;;
  name <- lift (py_get task "name" VNone) ;;
  print ("  Nom       : " ++ str P name) ;;
  cmd <- lift (py_get task "command" VNone) ;;
  args <- lift (py_get task "args" (VList [])) ;;
  joined <- lift (py_join " " args) ;;
  print ("  Commande  : " ++ str P cmd ++ " " ++ joined) ;;
  sched <- lift (py_get task "schedule" VNone) ;;
  rec <- lift (py_get task "recurrence" (VStr "daily")) ;;
  print ("  Horaire   : " ++ str P sched ++ " (récurrence: " ++ str P rec ++ ")") ;;
  print EmptyString.

Lemma list_tasks_loop w w1 tasks :
  load_tasks P w = (w1, Ok tasks) -> py_not tasks = false ->
  list_tasks P w
  = match py_iter tasks with
    | Ok items =>
        for_each items list_one (printed w1 ["Tâches programmées :"%string])
    | Raise e => (printed w1 ["Tâches programmées :"%string], Raise e)
    end.
Proof.
  intros Hl Hn. unfold list_tasks. rewrite (bind_Ok _ _ _ _ _ _ _ Hl), Hn.
  unfold bind at 1. unfold print at 1. fold (printed w1 ["Tâches programmées :"%string]).
  unfold bind at 1. unfold lift at 1.
  destruct (py_iter tasks); reflexivity.
Qed.

Lemma list_one_listable d joined w :
  joined_args (VDict d) = Ok joined ->
  list_one (VDict d) w = (printed w (listing d joined), Ok tt).
Proof.
  unfold joined_args. cbn [py_get]. intros Hj.
  unfold list_one, bind, lift, print, printed, listing, field, str.
  cbn [py_get fs stdin console clock future jobs executed fired].
  rewrite Hj. cbn [fs stdin console clock future jobs executed fired].
  rewrite <- !app_assoc. reflexivity.
Qed.

Lemma list_one_not_joinable d e w :
  joined_args (VDict d) = Raise e ->
  list_one (VDict d) w
  = (printed w [("ID: " ++ str P (field d "id" VNone))%string;
                ("  Nom       : " ++ str P (field d "name" VNone))%string],
     Raise e).
Proof.
  unfold joined_args. cbn [py_get]. intros Hj.
  unfold list_one, bind, lift, print, printed, field, str.
  cbn [py_get fs stdin console clock future jobs executed fired].
  rewrite Hj. cbn [fs stdin console clock future jobs executed fired].
  rewrite <- !app_assoc. reflexivity.
Qed.

Lemma for_each_list_one tasks : forall w,
  Forall listable tasks ->
  for_each tasks list_one w = (printed w (flat_map listing_of tasks), Ok tt).
Proof.
  induction tasks as [|task rest IH]; intros w Hl.
  - cbn. now rewrite printed_nil.
  - inversion Hl as [|? ? [[d ->] [joined Hj]] Hrest]; subst.
    cbn [for_each flat_map]. unfold bind.
    rewrite (list_one_listable d joined w Hj), (IH _ Hrest), printed_printed.
    unfold listing_of at 2. rewrite Hj. reflexivity.
Qed.
Lemma for_each_list_one_stops pre d post e : forall w,
  Forall listable pre ->
  joined_args (VDict d) = Raise e ->
  for_each (pre ++ VDict d :: post) list_one w
  = (printed w (flat_map listing_of pre
                ++ [("ID: " ++ str P (field d "id" VNone))%string;
                    ("  Nom       : " ++ str P (field d "name" VNone))%string]),
     Raise e).
Proof.
  induction pre as [|task rest IH]; intros w Hl Hj.
  - cbn [app for_each flat_map]. unfold bind.
    rewrite (list_one_not_joinable d e w Hj). reflexivity.
  - inversion Hl as [|? ? [[d' ->] [joined Hj']] Hrest]; subst.
    cbn [app for_each flat_map]. unfold bind.
    rewrite (list_one_listable d' joined w Hj'), (IH _ Hrest Hj), printed_printed.
    unfold listing_of at 2. rewrite Hj', <- app_assoc. reflexivity.
Qed.
End Testing.

(** X12.  [test] with an id that no stored record has: one line says
    that no task has it, and nothing is launched or written. *)
Theorem test_of_unknown_id_runs_nothing
    (P : Platform) (w w1 : World) (tasks : list pyval) (id : string) :
  load_tasks P w = (w1, Ok (VList tasks)) ->
  Forall is_mapping tasks ->
  (forall task, In task tasks -> has_id id task = false) ->
  test_task P id w
  = (printed w1 ["Aucune tâche avec cet ID n'a été trouvée."%string], Ok tt) /\
  executed (fst (test_task P id w)) = executed w /\
  fs (fst (test_task P id w)) = fs w.
Proof.
  intros Hl Hm Hno.
  assert (E : test_task P id w
              = (printed w1 ["Aucune tâche avec cet ID n'a été trouvée."%string],
                 Ok tt)).
  { unfold test_task. rewrite (bind_Ok _ _ _ _ _ _ _ Hl).
    unfold bind at 1. unfold lift at 1. cbn [py_iter].
    apply test_task_loop_unknown; [exact Hm|].
    apply existsb_has_id_false. exact Hno. }
  destruct (load_tasks_quiet P _ _ _ Hl) as [(A & B & C & D & E' & F & _) J].
  rewrite E. cbn [fst printed executed fs]. auto.
Qed.

Lemma test_of_unknown_id_witness :
  test_task (sample_platform (sample_doc [backup; report])) "cleanup"
            (boot sample_store [] 0 [])
  = (printed (boot sample_store [] 0 [])
             ["Aucune tâche avec cet ID n'a été trouvée."%string], Ok tt) /\
  executed (fst (test_task (sample_platform (sample_doc [backup; report])) "cleanup"
                           (boot sample_store [] 0 []))) = [] /\
  fs (fst (test_task (sample_platform (sample_doc [backup; report])) "cleanup"
                     (boot sample_store [] 0 []))) = sample_store.
Proof.
  apply (test_of_unknown_id_runs_nothing
           (sample_platform (sample_doc [backup; report]))
           (boot sample_store [] 0 []) (boot sample_store [] 0 [])
           [backup; report] "cleanup").
  - reflexivity.
  - repeat constructor; eexists; reflexivity.
  - intros task [<-|[<-|[]]]; reflexivity.
Defined.

(** X13.  [list] on a store that is not empty prints its heading and
    then, for each record in the order of the file, five lines: id,
    name, command with the arguments joined by blanks, schedule with
    the recurrence ([daily] when the record has none), and an empty
    line.  A missing key is shown as the text of [None]. *)
Theorem list_prints_five_lines_per_record
    (P : Platform) (w w1 : World) (tasks : list pyval) :
  load_tasks P w = (w1, Ok (VList tasks)) ->
  tasks <> [] ->
  Forall listable tasks ->
  list_tasks P w
  = (printed w1 ("Tâches programmées :"%string :: flat_map (listing_of P) tasks),
     Ok tt) /\
  List.length (flat_map (listing_of P) tasks) = (5 * List.length tasks)%nat.
Proof.
  intros Hl Hne Hall. split.
  - rewrite (list_tasks_loop P w w1 _ Hl) by (destruct tasks; [congruence|reflexivity]).
    cbn [py_iter]. rewrite (for_each_list_one P tasks _ Hall), printed_printed.
    reflexivity.
  - clear Hl Hne. induction Hall as [|task rest [[d ->] [joined Hj]] _ IH]; [reflexivity|].
    cbn [flat_map]. rewrite length_app, IH. unfold listing_of. rewrite Hj.
    cbn [listing List.length]. lia.
Qed.

Lemma list_prints_five_lines_witness :
  list_tasks (sample_platform (sample_doc [backup; audit])) (boot sample_store [] 0 [])
  = (printed (boot sample_store [] 0 [])
       ("Tâches programmées :"%string
          :: flat_map (listing_of (sample_platform (sample_doc [backup; audit])))
                      [backup; audit]),
     Ok tt) /\
  List.length (flat_map (listing_of (sample_platform (sample_doc [backup; audit])))
                        [backup; audit])
  = (5 * List.length [backup; audit])%nat.
Proof.
  apply (list_prints_five_lines_per_record
           (sample_platform (sample_doc [backup; audit]))
           (boot sample_store [] 0 []) (boot sample_store [] 0 [])).
  - reflexivity.
  - discriminate.
  - repeat constructor; try (eexists; reflexivity).
Defined.

(** X14.  [list] stops at the first record whose arguments cannot be
    joined (a number among them, as YAML reads [args: [-n, 5]], or a
    bare number): the records before it are shown in full, then the id
    and name lines of that record, and the command ends there with the
    exception of [join] (exit status 1); no later record is shown. *)
Theorem list_stops_at_arguments_it_cannot_join
    (P : Platform) (w w1 : World) (pre post : list pyval)
    (d : list (string * pyval)) (e : exn) :
  load_tasks P w = (w1, Ok (VList (pre ++ VDict d :: post))) ->
  Forall listable pre ->
  joined_args (VDict d) = Raise e ->
  list_tasks P w
  = (printed w1
       ("Tâches programmées :"%string
          :: flat_map (listing_of P) pre
          ++ [("ID: " ++ str P (field d "id" VNone))%string;
              ("  Nom       : " ++ str P (field d "name" VNone))%string]),
     Raise e) /\
  exn_cls e = TypeError /\
  exit_status (snd (list_tasks P w)) = 1.
Proof.
  intros Hl Hpre Hj.
  assert (He : exn_cls e = TypeError).
  { unfold joined_args in Hj. cbn [py_get] in Hj. unfold py_join in Hj.
    destruct (py_iter _) as [items|e'] eqn:Hi.
    - destruct (all_str items) as [l|e'] eqn:Ha; [discriminate|].
      injection Hj as ->. clear Hi. revert e Ha.
      induction items as [|x items IH]; intros e Ha; [discriminate|].
      cbn [all_str] in Ha.
      destruct x; try (injection Ha as <-; reflexivity).
      destruct (all_str items) as [l|e'']; [discriminate|].
      injection Ha as ->. apply IH. reflexivity.
    - injection Hj as ->.
      destruct (match assoc "args" d with Some x => x | None => VList [] end);
        try discriminate; injection Hi as <-; reflexivity. }
  assert (E : list_tasks P w
    = (printed w1
         ("Tâches programmées :"%string
            :: flat_map (listing_of P) pre
            ++ [("ID: " ++ str P (field d "id" VNone))%string;
                ("  Nom       : " ++ str P (field d "name" VNone))%string]),
       Raise e)).
  { rewrite (list_tasks_loop P w w1 _ Hl) by (destruct pre; reflexivity).
    cbn [py_iter].
    rewrite (for_each_list_one_stops P pre d post e _ Hpre Hj), printed_printed.
    reflexivity. }
  rewrite E. cbn [snd exit_status]. rewrite He. auto.
Qed.

Definition numbered : pyval :=
  VDict [("id"%string, VStr "numbered"); ("name"%string, VStr "numbered");
         ("command"%string, VStr "/usr/bin/head");
         ("args"%string, VList [VStr "-n"; VInt 5]);
         ("schedule"%string, VStr "02:00"); ("recurrence"%string, VStr "daily")].

Lemma list_stops_witness :
  list_tasks (sample_platform (sample_doc [backup; numbered; report]))
             (boot sample_store [] 0 [])
  = (printed (boot sample_store [] 0 [])
       ("Tâches programmées :"%string
          :: flat_map (listing_of (sample_platform (sample_doc [backup; numbered; report])))
                      [backup]
          ++ ["ID: numbered"%string; "  Nom       : numbered"%string]),
     Raise (Exn TypeError "sequence item: expected str instance")) /\
  exn_cls (Exn TypeError "sequence item: expected str instance") = TypeError /\
  exit_status (snd (list_tasks (sample_platform (sample_doc [backup; numbered; report]))
                               (boot sample_store [] 0 []))) = 1.
Proof.
  apply (list_stops_at_arguments_it_cannot_join
           (sample_platform (sample_doc [backup; numbered; report]))
           (boot sample_store [] 0 []) (boot sample_store [] 0 [])
           [backup] [report]
           [("id"%string, VStr "numbered"); ("name"%string, VStr "numbered");
            ("command"%string, VStr "/usr/bin/head");
            ("args"%string, VList [VStr "-n"; VInt 5]);
            ("schedule"%string, VStr "02:00"); ("recurrence"%string, VStr "daily")]).
  - reflexivity.
  - repeat constructor; try (eexists; reflexivity).
  - reflexivity.
Defined.

(** ** Launching a task *)

Definition success_line : string := "Tâche exécutée avec succès.".

Lemma outcome_line_success P cmd args :
  outcome_line P cmd args = success_line <->
  exists l, args = VList l /\ spawn P (cmd :: l) = Exited 0.
Proof.
  unfold outcome_line, py_cons, success_line. split.
  - destruct args; try discriminate.
    destruct (spawn P (cmd :: l)) as [status|msg] eqn:Hs; [|discriminate].
    destruct (Z.eqb_spec status 0) as [->|_]; [|discriminate].
    intros _. exists l. auto.
  - intros (l & -> & Hs). rewrite Hs. reflexivity.
Qed.

(** X15.  [run_task] on a record always returns, having printed two
    lines: its heading and one line for the outcome.  The line of
    success is printed exactly when the arguments are a list and the
    child process, started on the command followed by them, exits with
    status 0. *)
Theorem run_task_reports_success_only_for_exit_0
    (P : Platform) (d : list (string * pyval)) (w : World) :
  snd (run_task P (VDict d) w) = Ok tt /\
  (exists heading outcome,
      console (fst (run_task P (VDict d) w)) = console w ++ [heading; outcome] /\
      (outcome = success_line <->
       exists l, field d "args" (VList []) = VList l /\
                 spawn P (field d "command" VNone :: l) = Exited 0)) /\
  (In success_line (run_task_output P d) <->
   exists l, field d "args" (VList []) = VList l /\
             spawn P (field d "command" VNone :: l) = Exited 0).
Proof.
  rewrite run_task_dict. cbn [fst snd with_output console].
  split; [reflexivity|]. split.
  - do 2 eexists. split; [reflexivity|]. apply outcome_line_success.
  - unfold run_task_output. cbn [In]. rewrite <- outcome_line_success.
    split; [|auto].
    intros [H|[H|[]]]; [discriminate H|exact H].
Qed.

(** ** Registration, record by record *)

Section Records.
Variable P : Platform.

(** What [load_tasks] returns depends on the file only. *)
Lemma load_tasks_same_store w w' :
  fs w = fs w' -> snd (load_tasks P w) = snd (load_tasks P w').
Proof.
  intros E. destruct (fs w) as [text|] eqn:Hfs.
  - destruct (yaml_safe_load P text) as [msg|data] eqn:Hy.
    + rewrite (load_tasks_unparseable P w text msg Hfs Hy),
        (load_tasks_unparseable P w' text msg (eq_sym E) Hy). reflexivity.
    + rewrite (load_tasks_parsed P w text data Hfs Hy),
        (load_tasks_parsed P w' text data (eq_sym E) Hy). reflexivity.
  - rewrite (load_tasks_missing P w Hfs), (load_tasks_missing P w' (eq_sym E)).
    reflexivity.
Qed.

Lemma schedule_task_raises task e w :
  recurrence_of task = Raise e -> schedule_task P task w = (w, Raise e).
Proof.
  unfold recurrence_of, schedule_task. intros H.
  destruct (py_get task "recurrence" (VStr "daily")) as [v|e'].
  - unfold bind at 1. unfold lift at 1.
    unfold bind at 1. unfold lift at 1. rewrite H. reflexivity.
  - injection H as ->. reflexivity.
Qed.

Lemma recurrence_of_raises task e :
  recurrence_of task = Raise e -> exn_cls e = AttributeError.
Proof.
  unfold recurrence_of. destruct task; cbn [py_get]; try (intros [= <-]; reflexivity).
  destruct (match assoc "recurrence" d with Some x => x | None => VStr "daily" end);
    cbn [py_lower]; try discriminate; intros [= <-]; reflexivity.
Qed.

Lemma for_each_schedule_task_stops pre bad post e : forall w,
  Forall record pre ->
  recurrence_of bad = Raise e ->
  for_each (pre ++ bad :: post) (schedule_task P) w
  = (registered w (map (fun x => fst (registration_of P (clock w) x)) pre)
                  (flat_map (fun x => snd (registration_of P (clock w) x)) pre),
     Raise e).
Proof.
  induction pre as [|task rest IH]; intros w Hr Hbad.
  - cbn [app for_each map flat_map]. unfold bind.
    rewrite (schedule_task_raises bad e w Hbad), registered_nil. reflexivity.
  - inversion Hr as [|? ? (d & r & -> & Hrec) Hrest]; subst.
    cbn [app for_each]. unfold bind.
    rewrite (schedule_task_spec P d r w Hrec).
    rewrite (IH _ Hrest Hbad), registered_registered.
    cbn [map flat_map registered clock]. unfold registration_of at 3 5.
    rewrite Hrec. reflexivity.
Qed.

(** The store as [main] finds it after its first line is printed. *)
Lemma load_tasks_after_print s w w1 tasks :
  load_tasks P w = (w1, Ok tasks) ->
  exists w1',
    load_tasks P (fst (print s w)) = (w1', Ok tasks) /\
    quiet w w1' /\ jobs w1' = jobs w.
Proof.
  intros Hl.
  destruct (load_tasks P (fst (print s w))) as [w1' r] eqn:Hl'.
  pose proof (load_tasks_same_store (fst (print s w)) w eq_refl) as E.
  rewrite Hl, Hl' in E. cbn [snd] in E. subst r.
  exists w1'. split; [reflexivity|].
  destruct (load_tasks_quiet P _ _ _ Hl') as [Q J].
  destruct (quiet_print s w) as [Q0 J0].
  split; [eapply quiet_trans; eauto|congruence].
Qed.

Definition start_line : string :=
  "Démarrage de l'exécution de l'agenda. Appuyez sur Ctrl+C pour arrêter.".

Definition stop_line : string := "Arrêt de l'agenda.".

(** [run_scheduler_loop] when the registration fails: the loop is not
    entered. *)
Lemma run_scheduler_loop_aborts w w2 e :
  schedule_tasks P (fst (print start_line w)) = (w2, Raise e) ->
  run_scheduler_loop P w = (w2, Raise e).
Proof.
  intros H. unfold run_scheduler_loop.
  erewrite bind_Ok by reflexivity. apply bind_Raise. exact H.
Qed.

(** [run_scheduler_loop] when the registration succeeds: the loop runs
    until the interrupt, which is caught; the jobs are those that were
    registered. *)
Lemma run_scheduler_loop_registered w w2 :
  Forall (tracked (clock w)) (jobs w) ->
  ascending (clock w) (future w) ->
  schedule_tasks P (fst (print start_line w)) = (w2, Ok tt) ->
  exists wl,
    run_scheduler_loop P w = (fst (print stop_line wl), Ok tt) /\
    map static (jobs wl) = map static (jobs w2) /\
    fs wl = fs w /\ stdin wl = stdin w.
Proof.
  intros Hw Hasc Hs.
  destruct (quiet_print start_line w) as [Q0 J0].
  assert (Hc0 : clock (fst (print start_line w)) = clock w) by apply Q0.
  destruct (schedule_tasks_inv P _ w2 _ Hs) as [Q2 T2].
  { rewrite J0, Hc0. exact Hw. }
  rewrite Hc0 in T2.
  pose proof (quiet_trans _ _ _ Q0 Q2) as (A & B & C & D & E & G & _).
  destruct (scheduler_loop_spec P (future w2) w2 (clock w) (S (List.length (future w2))))
    as (wl & F & Hloop & A' & B' & S' & _); auto.
  { lia. }
  { rewrite C, D. exact Hasc. }
  exists wl. split; [|repeat split; congruence].
  unfold run_scheduler_loop.
  erewrite bind_Ok by reflexivity.
  fold start_line. erewrite bind_Ok by exact Hs.
  unfold try_except. rewrite Hloop. reflexivity.
Qed.

Lemma schedule_tasks_after_print s w w1 tasks :
  load_tasks P w = (w1, Ok (VList tasks)) ->
  Forall record tasks ->
  exists w1',
    quiet w w1' /\ jobs w1' = jobs w /\
    schedule_tasks P (fst (print s w))
    = (registered w1' (map (fun x => fst (registration_of P (clock w) x)) tasks)
                      (flat_map (fun x => snd (registration_of P (clock w) x)) tasks),
       Ok tt).
Proof.
  intros Hl Hr.
  destruct (load_tasks_after_print s w w1 _ Hl) as (w1' & Hl' & Q & J).
  exists w1'. split; [exact Q|]. split; [exact J|].
  rewrite (schedule_tasks_spec P _ w1' tasks Hl' Hr). reflexivity.
Qed.


End Records.

(** X16.  A record without a [recurrence] key is scheduled every day, at
    its [schedule] time. *)
Theorem record_without_recurrence_is_daily
    (P : Platform) (d : list (string * pyval)) (a : time_) (w : World) :
  assoc "recurrence" d = None ->
  time_of (field d "schedule" VNone) = Ok a ->
  schedule_task P (VDict d) w
  = (registered w [scheduled_line P d Days] [new_job Days a (clock w) (VDict d)],
     Ok tt).
Proof.
  intros Hr Ht.
  rewrite (schedule_task_spec P d "daily" w).
  - unfold registration. cbn [String.eqb Ascii.eqb Bool.eqb]. rewrite Ht. reflexivity.
  - unfold recurrence_of. cbn [py_get]. rewrite Hr. reflexivity.
Qed.

Definition plain : list (string * pyval) :=
  [("id"%string, VStr "plain"); ("name"%string, VStr "plain");
   ("command"%string, VStr "/bin/true"); ("schedule"%string, VStr "06:15")].

Lemma record_without_recurrence_witness :
  schedule_task (sample_platform VNone) (VDict plain) (boot None [] 0 [])
  = (registered (boot None [] 0 [])
       [scheduled_line (sample_platform VNone) plain Days]
       [new_job Days (Time 6 15 0) (clock (boot None [] 0 [])) (VDict plain)],
     Ok tt).
Proof.
  apply (record_without_recurrence_is_daily
           (sample_platform VNone) plain (Time 6 15 0) (boot None [] 0 []));
    reflexivity.
Defined.





(** X18.  A record that is no mapping, or whose [recurrence] is not a
    string (a number, or a key with nothing after it), stops [run] at
    registration: the exception of the failed call leaves [main], the
    exit status is 1, the polling loop is never entered and no task is
    launched, although the records before it had their jobs
    registered. *)
Theorem malformed_record_aborts_run
    (P : Platform) (file : option string) (keyboard : list string)
    (t0 : Z) (ticks : list Z) (id : option string) (w1 : World)
    (pre post : list pyval) (bad : pyval) (e : exn) :
  load_tasks P (boot file keyboard t0 ticks) = (w1, Ok (VList (pre ++ bad :: post))) ->
  Forall record pre ->
  recurrence_of bad = Raise e ->
  let r := main P (mkArgs CmdRun id) (boot file keyboard t0 ticks) in
  snd r = Raise e /\ exn_cls e = AttributeError /\ exit_status (snd r) = 1 /\
  jobs (fst r) = flat_map (fun x => snd (registration_of P t0 x)) pre /\
  executed (fst r) = [] /\ fired (fst r) = [] /\
  future (fst r) = ticks /\ fs (fst r) = file.
Proof.
  intros Hl Hpre Hbad r.
  destruct (load_tasks_after_print P start_line _ w1 _ Hl) as (w1' & Hl' & Q & J).
  destruct Q as (A & B & C & D & E & F & _).
  assert (Hs : schedule_tasks P (fst (print start_line (boot file keyboard t0 ticks)))
               = (registered w1'
                    (map (fun x => fst (registration_of P t0 x)) pre)
                    (flat_map (fun x => snd (registration_of P t0 x)) pre),
                  Raise e)).
  { unfold schedule_tasks. rewrite (bind_Ok _ _ _ _ _ _ _ Hl').
    unfold bind at 1. unfold lift at 1. cbn [py_iter].
    rewrite (for_each_schedule_task_stops P pre bad post e w1' Hpre Hbad).
    rewrite C. reflexivity. }
  pose proof (recurrence_of_raises bad e Hbad) as He.
  subst r. unfold main. cbn [args_command].
  rewrite (run_scheduler_loop_aborts P _ _ _ Hs).
  cbn [fst snd exit_status registered jobs executed fired future fs].
  rewrite He, J, E, F, D, A. repeat split.
Qed.

Definition unnamed : pyval :=
  VDict [("id"%string, VStr "unnamed"); ("command"%string, VStr "/bin/true");
         ("schedule"%string, VStr "02:00"); ("recurrence"%string, VNone)].

Lemma malformed_record_witness :
  let P := sample_platform (sample_doc [backup; unnamed; report]) in
  let r := main P (mkArgs CmdRun None) (boot sample_store [] 0 [1]) in
  snd r = Raise (Exn AttributeError "object has no attribute 'lower'") /\
  exn_cls (Exn AttributeError "object has no attribute 'lower'") = AttributeError /\
  exit_status (snd r) = 1 /\
  jobs (fst r) = flat_map (fun x => snd (registration_of P 0 x)) [backup] /\
  executed (fst r) = [] /\ fired (fst r) = [] /\
  future (fst r) = [1] /\ fs (fst r) = sample_store.
Proof.
  intros P.
  apply (malformed_record_aborts_run P sample_store [] 0 [1] None
           (boot sample_store [] 0 [1]) [backup] [report] unnamed).
  - reflexivity.
  - repeat constructor; eexists; eexists; split; reflexivity.
  - reflexivity.
Defined.

(** X19.  With records that are all well formed, [run] can only end by
    the interrupt, and then ends well: however long it is left running,
    once Ctrl+C is pressed during a sleep the command prints its last
    line and returns, with exit status 0, the file untouched and
    exactly the jobs that were registered at the start. *)
Theorem run_ends_on_interrupt_with_status_0
    (P : Platform) (file : option string) (keyboard : list string)
    (t0 : Z) (ticks : list Z) (id : option string) (w1 : World)
    (tasks : list pyval) :
  ascending t0 ticks ->
  load_tasks P (boot file keyboard t0 ticks) = (w1, Ok (VList tasks)) ->
  Forall record tasks ->
  exists wf,
    main P (mkArgs CmdRun id) (boot file keyboard t0 ticks) = (wf, Ok tt) /\
    exit_status (snd (main P (mkArgs CmdRun id) (boot file keyboard t0 ticks))) = 0 /\
    last (console wf) EmptyString = stop_line /\
    fs wf = file /\
    map job_func (jobs wf)
    = map job_func (flat_map (fun x => snd (registration_of P t0 x)) tasks).
Proof.
  intros Hasc Hl Hrec.
  destruct (schedule_tasks_after_print P start_line _ w1 tasks Hl Hrec)
    as (w1' & Q & J & Hs).
  destruct (run_scheduler_loop_registered P (boot file keyboard t0 ticks) _
              ltac:(constructor) Hasc Hs) as (wl & Hrun & Hst & Hfs & _).
  unfold main. cbn [args_command]. rewrite Hrun.
  eexists. split; [reflexivity|].
  cbn [fst snd exit_status print console fs jobs].
  split; [reflexivity|]. split; [apply last_last|]. split; [exact Hfs|].
  cbn [registered jobs boot clock] in Hst. rewrite J in Hst. cbn [boot jobs app] in Hst.
  assert (E : forall l, map job_func l = map job_func (map static l)).
  { intros l. rewrite map_map. reflexivity. }
  rewrite E, Hst, <- E. reflexivity.
Qed.

Lemma run_ends_on_interrupt_witness :
  exists wf,
    main (sample_platform (sample_doc [backup; report])) (mkArgs CmdRun None)
         (boot sample_store [] (at_hms monday_0 1 59 55)
               (window (at_hms monday_0 1 59 55) 9)) = (wf, Ok tt) /\
    exit_status (snd (main (sample_platform (sample_doc [backup; report]))
                           (mkArgs CmdRun None)
                           (boot sample_store [] (at_hms monday_0 1 59 55)
                                 (window (at_hms monday_0 1 59 55) 9)))) = 0 /\
    last (console wf) EmptyString = stop_line /\
    fs wf = sample_store /\
    map job_func (jobs wf)
    = map job_func
        (flat_map (fun x => snd (registration_of
                                   (sample_platform (sample_doc [backup; report]))
                                   (at_hms monday_0 1 59 55) x))
                  [backup; report]).
Proof.
  eapply (run_ends_on_interrupt_with_status_0
            (sample_platform (sample_doc [backup; report]))
            sample_store [] (at_hms monday_0 1 59 55)
            (window (at_hms monday_0 1 59 55) 9) None _ [backup; report]).
  - apply (paced_ascending usec), (proj2 (paced_window _ 9)).
  - vm_compute. reflexivity.
  - repeat constructor; eexists; eexists; split; reflexivity.
Defined.

(** ** How often a job runs *)

(** Each run of [runs] comes at or after an instant of [due] that is
    later than the run before it (for the first: later than [t]). *)
Fixpoint spaced (due : Z -> Prop) (t : Z) (runs : list Z) : Prop :=
  match runs with
  | [] => True
  | r :: rest => (exists n, due n /\ t < n <= r) /\ spaced due r rest
  end.

Lemma spaced_earlier due t t' runs : t' <= t -> spaced due t runs -> spaced due t' runs.
Proof.
  destruct runs as [|r rest]; [trivial|].
  intros Ht [(n & Hn & Hb) Hr]. split; [|exact Hr]. exists n. split; [exact Hn|lia].
Qed.

Lemma spaced_impl (due due' : Z -> Prop) runs : forall t,
  (forall n, due n -> due' n) -> spaced due t runs -> spaced due' t runs.
Proof.
  induction runs as [|r rest IH]; intros t H; [trivial|].
  intros [(n & Hn & Hb) Hr]. split; [exists n; auto|apply IH; auto].
Qed.



Section Recurrence.
Variables per ph : Z.
Hypothesis per_pos : 0 < per.

Definition slot (n : Z) : Prop := n mod per = ph mod per.



(** Whatever the polling, a job runs only when a new slot has come. *)
Lemma firings_spaced ticks : forall tprev,
  ascending tprev ticks -> spaced slot tprev (firings per ph tprev ticks).
Proof.
  induction ticks as [|t rest IH]; intros tprev Hasc; [exact I|].
  destruct Hasc as [Hle Hasc]. cbn [firings].
  pose proof (next_slot_after per ph per_pos tprev) as Ha.
  destruct (Z.leb_spec (next_slot per ph tprev) t) as [Hd|Hd]; cbn [app].
  - split; [|apply IH; exact Hasc].
    exists (next_slot per ph tprev). split; [|lia].
    apply next_slot_phase.
  - apply (spaced_earlier _ t); [exact Hle|]. apply IH. exact Hasc.
Qed.



End Recurrence.

(** The instants at which a job of the script is due: its time of day,
    on every day for a daily job, on Mondays for a weekly one. *)
Definition due_instant (j : Job) (n : Z) : Prop :=
  match at_time j with
  | Some a =>
      time_of_day n = time_us a /\
      (unit_ j = Some Weeks -> weekday n = weekday_index Monday)
  | None => False
  end.

Lemma week_slot a n :
  0 <= a < day_us ->
  (n mod (7 * day_us) = a mod (7 * day_us)
   <-> time_of_day n = a /\ weekday n = weekday_index Monday).
Proof.
  intros Ha. unfold time_of_day, weekday. cbn [weekday_index].
  pose proof day_us_pos as Hd.
  remember day_us as D eqn:HD. clear HD.
  rewrite (Z.mod_small a) by lia.
  pose proof (Z.div_mod n D ltac:(lia)) as E1.
  pose proof (Z.mod_pos_bound n D Hd) as B1.
  pose proof (Z.div_mod (n / D) 7 ltac:(lia)) as E2.
  pose proof (Z.mod_pos_bound (n / D) 7 ltac:(lia)) as B2.
  set (q := n / D) in *. set (r := n mod D) in *.
  set (q7 := q / 7) in *. set (r7 := q mod 7) in *.
  assert (Hr7 : 0 <= r7 * D <= 6 * D) by nia.
  assert (H' : n mod (7 * D) = r7 * D + r).
  { symmetry. apply (Z.mod_unique n (7 * D) q7); [left; lia|].
    rewrite E1, E2. ring. }
  rewrite H'. split.
  - intros H. assert (r7 * D = a - r) by lia.
    assert (r7 = 0) by nia. subst r7. lia.
  - intros [H1 H2]. rewrite H1, H2. lia.
Qed.

Lemma due_instant_slot j n :
  script_job j -> (due_instant j n <-> slot (period j) (phase j) n).
Proof.
  intros ((_ & (a & Ha & Hb) & Hk) & _).
  unfold due_instant, slot, period, phase. rewrite Ha.
  assert (Ha' : 0 <= time_us a < day_us) by (unfold usec in Hb; lia).
  destruct Hk as [(Hu & _)|(Hu & _)]; rewrite Hu; cbn [unit_us].
  - unfold time_of_day. rewrite (Z.mod_small (time_us a)) by lia.
    split; [intros [H _]; exact H|intros H; split; [exact H|discriminate]].
  - rewrite (week_slot (time_us a) n Ha'). split.
    + intros [H1 H2]. split; [exact H1|apply H2; reflexivity].
    + intros [H1 H2]. split; [exact H1|intros _; exact H2].
Qed.

(** X20.  However the loop is polled (late, irregularly, after a long
    stall), a job runs only when a new due instant has come: its first
    run is at or after a due instant later than the start, and each
    further run is at or after a due instant later than the run before.
    So a job never runs early, and never twice for one due instant. *)
Theorem job_runs_only_when_newly_due
    (P : Platform) (file : option string) (keyboard : list string)
    (t0 : Z) (ticks : list Z) (wf : World) (i : nat) (j : Job) :
  ascending t0 ticks ->
  run_scheduler_loop P (boot file keyboard t0 ticks) = (wf, Ok tt) ->
  nth_error (jobs wf) i = Some j ->
  spaced (due_instant j) t0 (map fst (filter (ran_job i) (fired wf))).
Proof.
  intros Hasc Hrun Hn.
  destruct (run_scheduler_loop_spec P (boot file keyboard t0 ticks) wf)
    as (F & _ & _ & Hjobs & Hfired & _ & Hfil & _);
    [constructor|exact Hasc|exact Hrun|].
  cbn [boot fired clock future app] in *.
  rewrite Forall_forall in Hjobs.
  pose proof (Hjobs j (nth_error_In _ _ Hn)) as Hj.
  rewrite Hfired, (Hfil i j Hn).
  apply (spaced_impl (slot (period j) (phase j))).
  - intros n. apply due_instant_slot. exact Hj.
  - apply firings_spaced; [apply period_pos|].
    cbn [ascending]. split; [lia|exact Hasc].
Qed.

Definition no_job : Job := mkJob 1 None None None None None VNone.

(** The daily job of [sample_run], as the run leaves it. *)
Definition sample_job : Job := hd no_job (jobs (fst sample_run)).

Lemma job_runs_only_when_newly_due_witness :
  spaced (due_instant sample_job) (at_hms monday_0 1 59 55)
         (map fst (filter (ran_job 0) (fired (fst sample_run)))).
Proof.
  apply (job_runs_only_when_newly_due
           (sample_platform (sample_doc [backup; report]))
           sample_store [] (at_hms monday_0 1 59 55)
           (window (at_hms monday_0 1 59 55) 69) (fst sample_run) 0 sample_job).
  - apply (paced_ascending usec), (proj2 (paced_window _ 69)).
  - vm_compute. reflexivity.
  - vm_compute. reflexivity.
Defined.



(** ** What the exit status tells *)

Section Status.
Variable P : Platform.

Lemma test_task_loop_returns id items : forall w,
  Forall is_mapping items -> snd (test_task_loop P id items w) = Ok tt.
Proof.
  intros w Hm. revert w.
  induction Hm as [|task rest [d ->] _ IH]; intros w; [reflexivity|].
  cbn [test_task_loop]. unfold bind at 1. unfold lift at 1. cbn [py_get].
  destruct (eq_str _ id); [|apply IH].
  unfold bind at 1. unfold lift at 1. cbn [py_get].
  unfold bind at 1. unfold print at 1.
  rewrite run_task_dict. reflexivity.
Qed.
End Status.

(** X22.  On a store of records, [remove] and [test] with an id end with
    exit status 0 whatever happens: whether or not a record has the id
    and, for [test], whether or not its command could be launched and
    how it ended.  The outcome is told by the printed lines only. *)
Theorem remove_and_test_exit_0_whatever_happens
    (P : Platform) (a : Args) (w w1 : World) (tasks : list pyval) :
  load_tasks P w = (w1, Ok (VList tasks)) ->
  Forall is_mapping tasks ->
  no_id a = false ->
  args_command a = CmdRemove \/ args_command a = CmdTest ->
  snd (main P a w) = Ok tt /\ exit_status (snd (main P a w)) = 0.
Proof.
  intros Hl Hm Hid Hc.
  assert (E : snd (main P a w) = Ok tt).
  { unfold main. destruct Hc as [-> | ->]; rewrite Hid.
    - rewrite (remove_task_cases P w w1 tasks _ Hl Hm).
      destruct (existsb _ tasks); reflexivity.
    - unfold test_task. rewrite (bind_Ok _ _ _ _ _ _ _ Hl).
      unfold bind at 1. unfold lift at 1. cbn [py_iter].
      apply test_task_loop_returns. exact Hm. }
  rewrite E. split; reflexivity.
Qed.

Lemma remove_and_test_exit_0_witness :
  snd (main (sample_platform (sample_doc [backup; report]))
            (mkArgs CmdTest (Some "report"%string)) (boot sample_store [] 0 []))
  = Ok tt /\
  exit_status (snd (main (sample_platform (sample_doc [backup; report]))
                         (mkArgs CmdTest (Some "report"%string))
                         (boot sample_store [] 0 []))) = 0.
Proof.
  apply (remove_and_test_exit_0_whatever_happens
           (sample_platform (sample_doc [backup; report]))
           (mkArgs CmdTest (Some "report"%string))
           (boot sample_store [] 0 []) (boot sample_store [] 0 [])
           [backup; report]).
  - reflexivity.
  - repeat constructor; eexists; reflexivity.
  - reflexivity.
  - right. reflexivity.
Defined.





(** ** A store that only [add] wrote to *)

Lemma all_str_strings l : all_str (map VStr l) = Ok l.
Proof.
  induction l as [|x l IH]; [reflexivity|].
  cbn [map all_str]. rewrite IH. reflexivity.
Qed.

Lemma listable_typed_record l1 l2 l3 l4 l5 l6 :
  listable (typed_record l1 l2 l3 l4 l5 l6).
Proof.
  split; [eexists; reflexivity|].
  exists (PyStr.join " " (PyStr.split l4)).
  unfold joined_args, typed_record, py_join.
  cbn [py_get assoc String.eqb Ascii.eqb Bool.eqb py_iter].
  rewrite all_str_strings. reflexivity.
Qed.

Lemma record_typed_record l1 l2 l3 l4 l5 l6 :
  record (typed_record l1 l2 l3 l4 l5 l6).
Proof. do 2 eexists. split; reflexivity. Qed.

(** X25.  [add] keeps a store in good order: when every stored record
    can be listed and scheduled (a mapping, its arguments a list of
    strings, its recurrence a string), the same holds after an [add],
    whatever was typed; [list] then shows the new record last, and the
    registration of [run] goes through all the records. *)
Theorem add_keeps_the_store_usable
    (P : Platform) (w w1 : World) (tasks : list pyval)
    (l1 l2 l3 l4 l5 l6 : string) (rest : list string) :
  load_tasks P w = (w1, Ok (VList tasks)) ->
  Forall listable tasks ->
  Forall record tasks ->
  stdin w = l1 :: l2 :: l3 :: l4 :: l5 :: l6 :: rest ->
  (forall task, In task tasks -> has_id (PyStr.strip l1) task = false) ->
  yaml_safe_load P
    (yaml_dump P (tasks_doc (tasks ++ [typed_record l1 l2 l3 l4 l5 l6])))
  = inr (tasks_doc (tasks ++ [typed_record l1 l2 l3 l4 l5 l6])) ->
  let w2 := fst (add_task_interactive P w) in
  let stored := tasks ++ [typed_record l1 l2 l3 l4 l5 l6] in
  Forall listable stored /\ Forall record stored /\
  list_tasks P w2
  = (printed w2 ("Tâches programmées :"%string :: flat_map (listing_of P) stored),
     Ok tt) /\
  snd (schedule_tasks P w2) = Ok tt.
Proof.
  intros Hl Hlist Hrec Hin Hno Hrt w2 stored. subst w2.
  assert (Hm : Forall is_mapping tasks).
  { eapply Forall_impl; [|exact Hlist]. intros x [H _]. exact H. }
  rewrite (add_task_interactive_appends P w w1 tasks l1 l2 l3 l4 l5 l6
             rest Hl Hm Hin Hno).
  cbn [fst]. fold stored. set (w2 := added P w1 rest stored).
  assert (Hl2 : load_tasks P w2 = (w2, Ok (VList stored))).
  { eapply load_tasks_written; [reflexivity|exact Hrt]. }
  assert (Hlist2 : Forall listable stored).
  { apply Forall_app. split; [exact Hlist|].
    constructor; [apply listable_typed_record|constructor]. }
  assert (Hrec2 : Forall record stored).
  { apply Forall_app. split; [exact Hrec|].
    constructor; [apply record_typed_record|constructor]. }
  split; [exact Hlist2|]. split; [exact Hrec2|]. split.
  - rewrite (list_tasks_loop P w2 w2 _ Hl2)
      by (unfold stored; destruct tasks; reflexivity).
    cbn [py_iter]. rewrite (for_each_list_one P stored _ Hlist2), printed_printed.
    reflexivity.
  - rewrite (schedule_tasks_spec P w2 w2 stored Hl2 Hrec2). reflexivity.
Qed.

Lemma add_keeps_the_store_usable_witness :
  let P := shelf_platform [sample_doc [backup]; sample_doc [backup; new_task]] in
  let w := boot (Some "backup"%string) new_task_lines 0 [] in
  let w2 := fst (add_task_interactive P w) in
  let stored := [backup] ++ [new_task] in
  Forall listable stored /\ Forall record stored /\
  list_tasks P w2
  = (printed w2 ("Tâches programmées :"%string :: flat_map (listing_of P) stored),
     Ok tt) /\
  snd (schedule_tasks P w2) = Ok tt.
Proof.
  intros P w.
  apply (add_keeps_the_store_usable P w w [backup]
           "  new " "New task" "/bin/true" " -a  -b " "09:30" "WEEKLY" []).
  - reflexivity.
  - repeat constructor; eexists; reflexivity.
  - repeat constructor; eexists; eexists; split; reflexivity.
  - reflexivity.
  - intros task [<-|[]]. reflexivity.
  - reflexivity.
Defined.

(** ** Which records become jobs *)

(** A record that [schedule_tasks] can turn into a job: its recurrence,
    in lower case, is daily or weekly, and [at] accepts its schedule. *)
Definition schedulable (task : pyval) : bool :=
  match task, kind_of task with
  | VDict d, Some _ =>
      match time_of (field d "schedule" VNone) with
      | Ok _ => true
      | Raise _ => false
      end
  | _, _ => false
  end.





Example schedulable_sample :
  filter schedulable [audit; backup; broken; report] = [backup; report].
Proof. reflexivity. Qed.
